(** * generate_hcl code generation (package genhcl)

    A shallow embedding of [generate/genhcl/genhcl.go]: the block loop of
    [Load] (scope filters, lets, condition, inherit, asserts, content) and the
    partial-evaluation copier [copyBody] / [appendBlock] together with the
    [tm_dynamic] expander [appendDynamicBlocks] / [appendDynamicBlock].

    Go mutates two objects while it copies: the destination [*hclwrite.Body]
    and the evaluator.  Both are threaded explicitly here: every copier takes
    the destination and the evaluator state and returns the pair it leaves
    behind together with the [error] it returns (or the panic it raises). *)

From Stdlib Require Import ZArith OrderedTypeEx Sorting.Sorted Sorting.Permutation.
From stdpp Require Import gmap strings list fin_maps.

Set Warnings "-register-all,-notation-incompatible-prefix".

(** ** cty values (github.com/zclconf/go-cty), the part genhcl inspects

    Known values and typed nulls; [NilVal] is the zero [cty.Value] that
    [var foreach cty.Value] holds before it is assigned.  Unknown and marked
    values are outside this model. *)

Inductive ctyType : Type :=
| TyNil            (* the zero Type carried by cty.NilVal *)
| DynamicPseudoType
| TyBool
| TyNumber
| TyString
| TyList (ety : ctyType)
| TyMap (ety : ctyType)
| TySet (ety : ctyType)
| TyTuple
| TyObject.

Inductive Value : Type :=
| NilVal
| NullVal (ty : ctyType)
| BoolVal (b : bool)
| NumberIntVal (n : Z)
| StringVal (s : string)
| ListVal (ety : ctyType) (vs : list Value)
| MapVal (ety : ctyType) (entries : list (string * Value))
| SetVal (ety : ctyType) (vs : list Value)
| TupleVal (vs : list Value)
| ObjectVal (attrs : list (string * Value)).

Module cty.

Definition Type_ (val : Value) : ctyType :=
  match val with
  | NilVal => TyNil
  | NullVal ty => ty
  | BoolVal _ => TyBool
  | NumberIntVal _ => TyNumber
  | StringVal _ => TyString
  | ListVal ety _ => TyList ety
  | MapVal ety _ => TyMap ety
  | SetVal ety _ => TySet ety
  | TupleVal _ => TyTuple
  | ObjectVal _ => TyObject
  end.

(* val.v == nil: true of typed nulls and of the zero Value. *)
Definition IsNull (val : Value) : bool :=
  match val with
  | NilVal | NullVal _ => true
  | _ => false
  end.

Definition IsBool (ty : ctyType) : bool :=
  match ty with TyBool => true | _ => false end.
Definition IsString (ty : ctyType) : bool :=
  match ty with TyString => true | _ => false end.
Definition IsListType (ty : ctyType) : bool :=
  match ty with TyList _ => true | _ => false end.
Definition IsMapType (ty : ctyType) : bool :=
  match ty with TyMap _ => true | _ => false end.
Definition IsSetType (ty : ctyType) : bool :=
  match ty with TySet _ => true | _ => false end.
Definition IsTupleType (ty : ctyType) : bool :=
  match ty with TyTuple => true | _ => false end.
Definition IsObjectType (ty : ctyType) : bool :=
  match ty with TyObject => true | _ => false end.

(* canElementIterator: decided on the type alone, so a null list, map or
   set can "be iterated". *)
Definition CanIterateElements (val : Value) : bool :=
  let ty := Type_ val in
  IsListType ty || IsMapType ty || IsSetType ty
  || IsTupleType ty || IsObjectType ty.

Fixpoint FriendlyName (ty : ctyType) : string :=
  match ty with
  | TyNil => "invalid"
  | DynamicPseudoType => "dynamic"
  | TyBool => "bool"
  | TyNumber => "number"
  | TyString => "string"
  | TyList e => "list of " +:+ FriendlyName e
  | TyMap e => "map of " +:+ FriendlyName e
  | TySet e => "set of " +:+ FriendlyName e
  | TyTuple => "tuple"
  | TyObject => "object"
  end.

(* Maps and objects are visited by ascending key. *)
Fixpoint insertEntry (e : string * Value) (es : list (string * Value))
  : list (string * Value) :=
  match es with
  | [] => [e]
  | e' :: rest =>
      if String.ltb (fst e') (fst e) then e' :: insertEntry e rest
      else e :: es
  end.

Definition sortEntries (es : list (string * Value)) : list (string * Value) :=
  foldr insertEntry [] es.

Fixpoint indexed (i : Z) (vs : list Value) : list (Value * Value) :=
  match vs with
  | [] => []
  | v :: rest => (NumberIntVal i, v) :: indexed (i + 1) rest
  end.

(* The key/value pairs val.ElementIterator() yields, in its order: lists
   and tuples by index, maps and objects by key, a set with each element as
   both key and value.  Null and non-collection values have none (the Go
   call panics on them; genhcl never reaches it). *)
Definition ElementIterator (val : Value) : list (Value * Value) :=
  match val with
  | ListVal _ vs | TupleVal vs => indexed 0 vs
  | MapVal _ es | ObjectVal es =>
      map (fun e => (StringVal (fst e), snd e)) (sortEntries es)
  | SetVal _ vs => map (fun v => (v, v)) vs
  | _ => []
  end.

Definition LengthInt (val : Value) : nat := length (ElementIterator val).

End cty.

(** ** Source ranges, expressions and the hclsyntax tree *)

Record Range : Type := mkRange {
  Filename : string;
  StartByte : nat;
  EndByte : nat
}.

(* hclsyntax.Expression: the node kinds genhcl tells apart, and function
   calls for everything it treats as opaque.  ast.CloneExpression only
   protects the shared tree from in-place rewriting; values here are
   immutable, so the wrapper is the identity. *)
Inductive Expr : Type :=
| LiteralValueExpr (Val : Value) (SrcRange : Range)
| ObjectConsExpr (Items : list (Expr * Expr)) (SrcRange : Range)
| ScopeTraversalExpr (Traversal : list string) (SrcRange : Range)
| FunctionCallExpr (Name : string) (Args : list Expr) (SrcRange : Range).

Definition ExprRange (e : Expr) : Range :=
  match e with
  | LiteralValueExpr _ r | ObjectConsExpr _ r
  | ScopeTraversalExpr _ r | FunctionCallExpr _ _ r => r
  end.

Record Attribute : Type := mkAttribute {
  Name : string;
  AttrExpr : Expr;
  AttrRange : Range
}.

(* hclsyntax.Block and hclsyntax.Body.  Body.Attributes is a Go map keyed by
   attribute name; Block.Body is a pointer, nil in [None]. *)
Inductive Block : Type :=
  mkBlock (Type_ : string) (Labels : list string) (body : option Body)
          (TypeRange : Range) (LabelRanges : list Range)
with Body : Type :=
  mkBody (Attributes : gmap string Attribute) (Blocks : list Block)
         (SrcRange : Range).

Definition BlockType (b : Block) : string :=
  match b with mkBlock t _ _ _ _ => t end.
Definition BlockLabels (b : Block) : list string :=
  match b with mkBlock _ l _ _ _ => l end.
Definition BlockBody (b : Block) : option Body :=
  match b with mkBlock _ _ bd _ _ => bd end.
Definition BlockTypeRange (b : Block) : Range :=
  match b with mkBlock _ _ _ r _ => r end.
Definition BlockLabelRanges (b : Block) : list Range :=
  match b with mkBlock _ _ _ _ rs => rs end.
Definition BodyAttributes (b : Body) : gmap string Attribute :=
  match b with mkBody a _ _ => a end.
Definition BodyBlocks (b : Body) : list Block :=
  match b with mkBody _ bs _ => bs end.
Definition BodyRange (b : Body) : Range :=
  match b with mkBody _ _ r => r end.

(* Nesting depth of a syntax tree: the recursion measure of the copier. *)
Fixpoint depthBody (b : Body) : nat :=
  match b with
  | mkBody _ blocks _ =>
      S ((fix go (bs : list Block) : nat :=
            match bs with
            | [] => 0
            | x :: rest => Nat.max (depthBlock x) (go rest)
            end) blocks)
  end
with depthBlock (b : Block) : nat :=
  match b with
  | mkBlock _ _ None _ _ => 0
  | mkBlock _ _ (Some bd) _ _ => depthBody bd
  end.

Definition depthBlocks (bs : list Block) : nat :=
  foldr (fun x n => Nat.max (depthBlock x) n) 0 bs.

(** ** The destination tree (hclwrite) *)

Inductive Tokens : Type :=
| TokensForExpression (e : Expr)
| TokensForValue (v : Value).

Inductive WItem : Type :=
| WAttribute (name : string) (tokens : Tokens)
| WBlock (type : string) (labels : list string) (body : list WItem).

(* *hclwrite.Body: attributes and blocks in the order they were added. *)
Abbreviation WBody := (list WItem).

(* body.SetAttributeRaw: overwrite the attribute of that name in place, or
   add it at the end. *)
Fixpoint SetAttributeRaw (name : string) (tokens : Tokens) (body : WBody) : WBody :=
  match body with
  | [] => [WAttribute name tokens]
  | WAttribute n t :: rest =>
      if String.eqb n name then WAttribute name tokens :: rest
      else WAttribute n t :: SetAttributeRaw name tokens rest
  | it :: rest => it :: SetAttributeRaw name tokens rest
  end.

(** ** Errors *)

(** Modelled from the spec: the [errors] package (errors.E, errors.L) is not
    among the sources.  [E] records the arguments of one errors.E call: kind,
    range, format string with its operands, wrapped error.  The error list of
    errors.L is the growable list of section 9 of the spec: [Append] skips
    nil and splices in the elements of another list, [AsError] is nil on the
    empty list and the list itself otherwise. *)
Abbreviation Kind := string.

Inductive ErrRange : Type :=
| NoRange
| AtRange (r : Range)
| AtRanges (rs : list Range).

Inductive MsgArg : Type :=
| ArgString (s : string)
| ArgType (ty : ctyType)
| ArgValue (v : Value)
| ArgExpr (e : Expr).

Record Msg : Type := mkMsg { format : string; operands : list MsgArg }.

Inductive error : Type :=
| E (kind : option Kind) (rng : ErrRange) (description : Msg) (cause : option error)
| List_ (errs : list error).

Module errors.

Fixpoint elements (e : error) : list error :=
  match e with
  | List_ errs =>
      (fix go (l : list error) : list error :=
         match l with
         | [] => []
         | x :: rest => elements x ++ go rest
         end) errs
  | _ => [e]
  end.

Definition L : list error := [].

Definition Append (l : list error) (err : option error) : list error :=
  match err with
  | None => l
  | Some e => l ++ elements e
  end.

Definition AsError (l : list error) : option error :=
  match l with
  | [] => None
  | _ => Some (List_ l)
  end.

End errors.

Definition noMsg : Msg := mkMsg "" [].
Definition msg (s : string) : Msg := mkMsg s [].

Definition ErrParsing : Kind := "parsing generate_hcl block".
Definition ErrContentEval : Kind := "evaluating content".
Definition ErrConditionEval : Kind := "evaluating condition attribute".
Definition ErrInheritEval : Kind := "evaluating inherit attribute".
Definition ErrInvalidConditionType : Kind := "invalid condition type".
Definition ErrInvalidInheritType : Kind := "invalid inherit type".
Definition ErrInvalidDynamicIterator : Kind := "invalid tm_dynamic.iterator".
Definition ErrInvalidDynamicLabels : Kind := "invalid tm_dynamic.labels".
Definition ErrDynamicAttrsEval : Kind := "evaluating tm_dynamic.attributes".
Definition ErrDynamicConditionEval : Kind := "evaluating tm_dynamic.condition".
Definition ErrDynamicAttrsConflict : Kind :=
  "tm_dynamic.attributes and tm_dynamic.content have conflicting fields".

(* What a Go call leaves its caller with: a result, a returned error, or a
   panic unwinding the stack. *)
Inductive outcome (A : Type) : Type :=
| Ret (a : A)
| Err (e : error)
| Panic (reason : string).
Arguments Ret {A} a.
Arguments Err {A} e.
Arguments Panic {A} reason.

(* A function of result type [error]: nil is [Ret tt]. *)
Abbreviation status := (outcome unit).
Definition nil_ : status := Ret tt.

(** ** The evaluation context *)

(* project.Path: the components below the project root; the root is []. *)
Abbreviation Path := (list string).

Inductive Function : Type :=
| VendorFunc (targetDir vendorDir : Path)
| HCLExpressionFunc
| StdlibFunc (name : string).

(** Modelled from the spec: the evaluation context of [hcl/eval] is not
    among the sources.  It carries named value bindings and registered
    functions; [SetNamespace] binds an object built from the given fields
    under a name, [DeleteNamespace] removes the binding, [SetFunction]
    registers a callable, [Copy] forks the context (a value here, so the
    copy is the value itself). *)
Record Context : Type := mkContext {
  Variables : gmap string Value;
  Functions : gmap string Function
}.

Definition SetNamespace (name : string) (vals : list (string * Value))
    (c : Context) : Context :=
  mkContext (<[name := ObjectVal vals]> (Variables c)) (Functions c).

Definition DeleteNamespace (name : string) (c : Context) : Context :=
  mkContext (delete name (Variables c)) (Functions c).

Definition HasNamespace (name : string) (c : Context) : bool :=
  bool_decide (is_Some (Variables c !! name)).

Definition SetFunction (name : string) (f : Function) (c : Context) : Context :=
  mkContext (Variables c) (<[name := f]> (Functions c)).

Definition Copy (c : Context) : Context := c.

(* hcl.Evaluator: the two evaluation methods of the interface, as functions
   of the context they read.  PartialEval leaves references to unknown
   namespaces in the expression it returns. *)
Class Evaluator : Type := {
  Eval : Context -> Expr -> outcome Value;
  PartialEval : Context -> Expr -> outcome (Expr * bool)
}.

Definition bind {A B : Type} (o : outcome A) (k : A -> outcome B) : outcome B :=
  match o with
  | Ret a => k a
  | Err e => Err e
  | Panic p => Panic p
  end.

(* Wrap the error of a failed call, as [errors.E(kind, err, ...)] does. *)
Definition mapErr {A : Type} (wrap : error -> error) (o : outcome A) : outcome A :=
  match o with
  | Err e => Err (wrap e)
  | _ => o
  end.

Notation "x <- o ;; k" := (bind o (fun x => k))
  (at level 100, o at next level, right associativity).
Notation "' p <- o ;; k" := (bind o (fun x => let 'p := x in k))
  (at level 100, p pattern, o at next level, right associativity).

(** ** The tm_dynamic expander and the partial-evaluation copier *)

Record dynBlockAttributes : Type := mkDynBlockAttributes {
  attributes : option Attribute;
  iterator : option Attribute;
  foreach : option Attribute;
  labels : option Attribute;
  condition : option Attribute
}.

Record tmAttribute : Type := mkTmAttribute {
  name : string;
  tokens : Tokens;
  info : Range
}.

(* The state a copier leaves behind, and the error it returns. *)
Abbreviation Result := (WBody * Context * status)%type.

Definition attrErr (attr : Attribute) (m : Msg) : error :=
  E (Some ErrParsing) (AtRange (ExprRange (AttrExpr attr))) m None.

Definition wrapAttrErr (err : error) (attr : Attribute) (m : Msg) : error :=
  E (Some ErrParsing) (AtRange (ExprRange (AttrExpr attr))) m (Some err).

(* The loop of getDynamicBlockAttrs over block.Body.Attributes, one map
   entry at a time. *)
Definition dynAttrStep (acc : dynBlockAttributes * list error)
    (entry : string * Attribute) : dynBlockAttributes * list error :=
  let '(dynAttrs, errs) := acc in
  let '(name, attr) := entry in
  if String.eqb name "attributes" then
    (mkDynBlockAttributes (Some attr) (iterator dynAttrs) (foreach dynAttrs)
       (labels dynAttrs) (condition dynAttrs), errs)
  else if String.eqb name "for_each" then
    (mkDynBlockAttributes (attributes dynAttrs) (iterator dynAttrs) (Some attr)
       (labels dynAttrs) (condition dynAttrs), errs)
  else if String.eqb name "labels" then
    (mkDynBlockAttributes (attributes dynAttrs) (iterator dynAttrs)
       (foreach dynAttrs) (Some attr) (condition dynAttrs), errs)
  else if String.eqb name "iterator" then
    (mkDynBlockAttributes (attributes dynAttrs) (Some attr) (foreach dynAttrs)
       (labels dynAttrs) (condition dynAttrs), errs)
  else if String.eqb name "condition" then
    (mkDynBlockAttributes (attributes dynAttrs) (iterator dynAttrs)
       (foreach dynAttrs) (labels dynAttrs) (Some attr), errs)
  else
    (dynAttrs,
     errors.Append errs
       (Some (attrErr attr
                (mkMsg "tm_dynamic unsupported attribute %q" [ArgString name])))).

(* getDynamicBlockAttrs(block), on block.Body.  Go ranges over the map in an
   order of its choosing; [map_to_list] fixes one. *)
Definition getDynamicBlockAttrs (body : Body)
    : dynBlockAttributes * option error :=
  let '(dynAttrs, errs) :=
    foldl dynAttrStep
      (mkDynBlockAttributes None None None None None, errors.L)
      (map_to_list (BodyAttributes body)) in
  (dynAttrs, errors.AsError errs).

Definition contentBlockStep (acc : option Block * list error) (b : Block)
    : option Block * list error :=
  let '(contentBlock, errs) := acc in
  if negb (String.eqb (BlockType b) "content") then
    (contentBlock,
     errors.Append errs
       (Some (E (Some ErrParsing) (AtRange (BlockTypeRange b))
                (mkMsg "unrecognized block %s" [ArgString (BlockType b)]) None)))
  else
    match contentBlock with
    | Some _ =>
        (contentBlock,
         errors.Append errs
           (Some (E (Some ErrParsing) (AtRange (BlockTypeRange b))
                    (msg "multiple definitions of the `content` block") None)))
    | None => (Some b, errs)
    end.

Definition getContentBlock (blocks : list Block) : option Block * option error :=
  let '(contentBlock, errs) := foldl contentBlockStep (None, errors.L) blocks in
  match errors.AsError errs with
  | Some err => (None, Some err)
  | None => (contentBlock, None)
  end.

(** Modelled from the spec: ast.SortRawAttributes is not among the sources;
   the attributes of a body are visited in lexical order of their names. *)
Fixpoint insertAttribute (a : Attribute) (l : list Attribute) : list Attribute :=
  match l with
  | [] => [a]
  | b :: rest =>
      if String.ltb (Name b) (Name a) then b :: insertAttribute a rest
      else a :: l
  end.

Definition SortRawAttributes (attrs : gmap string Attribute) : list Attribute :=
  foldr insertAttribute [] (snd <$> map_to_list attrs).

(* The callback protocol of cty's ForEachElement: visit the pairs in order
   until the callback asks to stop. *)
Fixpoint ForEachElement {S : Type} (elems : list (Value * Value))
    (callback : Value -> Value -> S -> S * bool) (s : S) : S :=
  match elems with
  | [] => s
  | (key, value) :: rest =>
      let '(s', stop) := callback key value s in
      if stop then s' else ForEachElement rest callback s'
  end.

Section Copier.

Context {evaluatorImpl : Evaluator}.

(* Collaborators of other packages, at their interface:
   hcl.ValueAsStringList, hclsyntax.ValidIdentifier and
   hcl.AbsTraversalForExpr (the names of the traversal steps, or None when
   the diagnostics have errors). *)
Variable ValueAsStringList : Value -> outcome (list string).
Variable ValidIdentifier : string -> bool.
Variable AbsTraversalForExpr : Expr -> option (list string).

Fixpoint setBodyAttributes (body : WBody) (attrs : list tmAttribute)
    : WBody * status :=
  match attrs with
  | [] => (body, nil_)
  | attr :: rest =>
      if negb (ValidIdentifier (name attr)) then
        (body,
         Err (E (Some ErrParsing) (AtRange (info attr))
                (mkMsg "tm_dynamic.attributes key %q is not a valid HCL identifier"
                       [ArgString (name attr)]) None))
      else setBodyAttributes (SetAttributeRaw (name attr) (tokens attr) body) rest
  end.

(* labels of the generated block (appendDynamicBlock, lines 466-481) *)
Definition dynamicLabels (evaluator : Context) (attrs : dynBlockAttributes)
    : outcome (list string) :=
  match labels attrs with
  | None => Ret []
  | Some l =>
      labelsVal <- mapErr (fun err =>
          E (Some ErrInvalidDynamicLabels) (AtRange (AttrRange l))
            (msg "failed to evaluate tm_dynamic.labels") (Some err))
        (Eval evaluator (AttrExpr l)) ;;
      mapErr (fun err =>
          E (Some ErrInvalidDynamicLabels) (AtRange (AttrRange l))
            (msg "tm_dynamic.labels is not a string list") (Some err))
        (ValueAsStringList labelsVal)
  end.

(* case *hclsyntax.LiteralValueExpr: one tmAttribute per element *)
Fixpoint literalTmAttrs (rng : Range) (elems : list (Value * Value))
    : outcome (list tmAttribute) :=
  match elems with
  | [] => Ret []
  | (key, val) :: rest =>
      match key with
      | StringVal k =>
          tmAttrs <- literalTmAttrs rng rest ;;
          Ret (mkTmAttribute k (TokensForValue val) rng :: tmAttrs)
      | _ => Panic "unreachable"
      end
  end.

(* case *hclsyntax.ObjectConsExpr: one tmAttribute per item *)
Fixpoint objectTmAttrs (evaluator : Context) (items : list (Expr * Expr))
    : outcome (list tmAttribute) :=
  match items with
  | [] => Ret []
  | (KeyExpr, ValueExpr) :: rest =>
      keyVal <- mapErr (fun err =>
          E (Some ErrDynamicAttrsEval) (AtRange (ExprRange KeyExpr))
            (msg "evaluating tm_dynamic.attributes key") (Some err))
        (Eval evaluator KeyExpr) ;;
      if negb (cty.IsString (cty.Type_ keyVal)) then
        Err (E (Some ErrParsing) (AtRange (ExprRange KeyExpr))
               (mkMsg "tm_dynamic.attributes key %q has type %q, must be a string"
                      [ArgValue keyVal; ArgType (cty.Type_ keyVal)]) None)
      else
        '(valExpr, _) <- mapErr (fun _ =>
            E (Some ErrDynamicAttrsEval) (AtRange (ExprRange ValueExpr))
              (mkMsg "failed to evaluate attribute value: %s" [ArgExpr ValueExpr])
              None)
          (PartialEval evaluator ValueExpr) ;;
        match keyVal with
        | StringVal k =>
            tmAttrs <- objectTmAttrs evaluator rest ;;
            Ret (mkTmAttribute k (TokensForExpression valExpr)
                   (ExprRange ValueExpr) :: tmAttrs)
        | _ => Panic "value is null"
        end
  end.

(* the tmAttrs of tm_dynamic.attributes (appendDynamicBlock, lines 487-550) *)
Definition tmAttributes (evaluator : Context) (attr : Attribute)
    : outcome (list tmAttribute) :=
  '(attrsExpr, _) <- mapErr (fun err =>
      E (Some ErrDynamicAttrsEval) (AtRange (AttrRange attr)) noMsg (Some err))
    (PartialEval evaluator (AttrExpr attr)) ;;
  match attrsExpr with
  | LiteralValueExpr val rng =>
      if cty.IsNull val then
        Err (E (Some ErrParsing) (AtRange rng) (msg "attributes is null") None)
      else if negb (cty.IsObjectType (cty.Type_ val))
              && negb (cty.IsMapType (cty.Type_ val)) then
        Err (attrErr attr
               (mkMsg "tm_dynamic attributes must be an object/map, got %s instead"
                      [ArgType (cty.Type_ val)]))
      else literalTmAttrs rng (cty.ElementIterator val)
  | ObjectConsExpr items _ => objectTmAttrs evaluator items
  | _ =>
      Err (attrErr attr
             (mkMsg "tm_dynamic attributes must be an object, got %T instead"
                    [ArgExpr attrsExpr]))
  end.

(* The first attribute of the content block, in the order Go ranges over
   them, that tm_dynamic.attributes has already set. *)
Definition conflictingAttribute (attributeNames : gset string)
    (contentAttrs : gmap string Attribute) : option Attribute :=
  List.find (fun attr => bool_decide (Name attr ∈ attributeNames))
    (snd <$> map_to_list contentAttrs).

Section Open.

(* The recursive call on a nested body. *)
Variable copyBody : WBody -> Body -> Context -> Result.

(* appendDynamicBlock after destination.AppendBlock: everything written
   to newblock.Body(), starting from the empty body. *)
Definition fillDynamicBlock (evaluator : Context)
    (attrs : dynBlockAttributes) (contentBlock : option Block) : Result :=
  let newbody : WBody := [] in
  let attrsPhase : WBody * outcome (gset string) :=
    match attributes attrs with
    | None => (newbody, Ret ∅)
    | Some a =>
        match tmAttributes evaluator a with
        | Err e => (newbody, Err e)
        | Panic p => (newbody, Panic p)
        | Ret tmAttrs =>
            match setBodyAttributes newbody tmAttrs with
            | (newbody', Ret _) =>
                (newbody', Ret (list_to_set (name <$> tmAttrs)))
            | (newbody', Err e) => (newbody', Err e)
            | (newbody', Panic p) => (newbody', Panic p)
            end
        end
    end in
  match attrsPhase with
  | (newbody, Err e) => (newbody, evaluator, Err e)
  | (newbody, Panic p) => (newbody, evaluator, Panic p)
  | (newbody, Ret attributeNames) =>
      match contentBlock with
      | None => (newbody, evaluator, nil_)
      | Some cb =>
          match BlockBody cb with
          | None => (newbody, evaluator, Panic "nil pointer dereference")
          | Some cbody =>
              match conflictingAttribute attributeNames (BodyAttributes cbody) with
              | Some attr =>
                  (newbody, evaluator,
                   Err (E (Some ErrDynamicAttrsConflict) (AtRange (AttrRange attr))
                          (mkMsg "attribute %s already set by tm_dynamic.attributes"
                                 [ArgString (Name attr)]) None))
              | None => copyBody newbody cbody evaluator
              end
          end
      end
  end.

Definition appendDynamicBlockWith (destination : WBody) (evaluator : Context)
    (genBlockType : string) (attrs : dynBlockAttributes)
    (contentBlock : option Block) : Result :=
  match dynamicLabels evaluator attrs with
  | Err e => (destination, evaluator, Err e)
  | Panic p => (destination, evaluator, Panic p)
  | Ret labels =>
      let '(newbody, evaluator', st) :=
        fillDynamicBlock evaluator attrs contentBlock in
      (destination ++ [WBlock genBlockType labels newbody], evaluator', st)
  end.

(* The structural checks at the head of appendDynamicBlocks (lines
   601-616), in the order they are appended to errs. *)
Definition dynamicBlockErrors (dynblock : Block) (body : Body) : list error :=
  let errs := errors.L in
  let errs :=
    if bool_decide (length (BlockLabels dynblock) ≠ 1) then
      errors.Append errs
        (Some (E (Some ErrParsing) (AtRanges (BlockLabelRanges dynblock))
                 (msg "tm_dynamic requires a single label") None))
    else errs in
  let '(attrs, err) := getDynamicBlockAttrs body in
  let errs := errors.Append errs err in
  let '(contentBlock, err) := getContentBlock (BodyBlocks body) in
  let errs := errors.Append errs err in
  if bool_decide (contentBlock = None ∧ attributes attrs = None) then
    errors.Append errs
      (Some (E (Some ErrParsing) (AtRange (BodyRange body))
               (msg "`content` block or `attributes` obj must be defined") None))
  else errs.

(* The guard (lines 624-635): true when there is no condition. *)
Definition dynamicCondition (evaluator : Context) (attrs : dynBlockAttributes)
    : outcome bool :=
  match condition attrs with
  | None => Ret true
  | Some c =>
      condition <- mapErr (fun err =>
          E (Some ErrDynamicConditionEval) NoRange noMsg (Some err))
        (Eval evaluator (AttrExpr c)) ;;
      if negb (cty.IsBool (cty.Type_ condition)) then
        Err (E (Some ErrDynamicConditionEval) NoRange
               (mkMsg "want boolean got %s" [ArgType (cty.Type_ condition)])
               None)
      else
        match condition with
        | BoolVal b => Ret b
        | _ => Panic "value is null"
        end
  end.

(* The collection (lines 637-651): the zero Value when there is no
   for_each. *)
Definition foreachValue (evaluator : Context) (attrs : dynBlockAttributes)
    : outcome Value :=
  match foreach attrs with
  | None => Ret NilVal
  | Some fe =>
      foreach <- mapErr (fun err =>
          wrapAttrErr err fe (msg "evaluating `for_each` expression"))
        (Eval evaluator (AttrExpr fe)) ;;
      if negb (cty.CanIterateElements foreach) then
        Err (attrErr fe
               (mkMsg "`for_each` expression of type %s cannot be iterated"
                      [ArgType (cty.Type_ foreach)]))
      else Ret foreach
  end.

(* The loop-variable name (lines 665-680). *)
Definition iteratorName (genBlockType : string) (attrs : dynBlockAttributes)
    : outcome string :=
  match iterator attrs with
  | None => Ret genBlockType
  | Some it =>
      match AbsTraversalForExpr (AttrExpr it) with
      | None =>
          Err (E (Some ErrInvalidDynamicIterator) (AtRange (AttrRange it))
                 (msg "dynamic iterator must be a single variable name") None)
      | Some iteratorTraversal =>
          match iteratorTraversal with
          | [rootName] => Ret rootName
          | _ =>
              Err (E (Some ErrInvalidDynamicIterator) (AtRange (AttrRange it))
                     (msg "dynamic iterator must be a single variable name") None)
          end
      end
  end.

(* The closure handed to foreach.ForEachElement: it writes to the
   captured target, evaluator and tmDynamicErr, and asks to stop on the
   first failed expansion. *)
Definition expandElement (iterator genBlockType : string)
    (attrs : dynBlockAttributes) (contentBlock : option Block)
    (key value : Value) (s : Result) : Result * bool :=
  let '(target, evaluator, _) := s in
  let evaluator :=
    SetNamespace iterator [("key", key); ("value", value)] evaluator in
  match appendDynamicBlockWith target evaluator genBlockType attrs contentBlock with
  | (target, evaluator, Ret _) => ((target, evaluator, nil_), false)
  | (target, evaluator, tmDynamicErr) => ((target, evaluator, tmDynamicErr), true)
  end.

Definition appendDynamicBlocksWith (target : WBody) (dynblock : Block)
    (evaluator : Context) : Result :=
  match BlockBody dynblock with
  | None => (target, evaluator, Panic "nil pointer dereference")
  | Some body =>
  match errors.AsError (dynamicBlockErrors dynblock body) with
  | Some err => (target, evaluator, Err err)
  | None =>
  let attrs := fst (getDynamicBlockAttrs body) in
  let contentBlock := fst (getContentBlock (BodyBlocks body)) in
  match BlockLabels dynblock with
  | [] => (target, evaluator, Panic "index out of range")
  | genBlockType :: _ =>
  match dynamicCondition evaluator attrs with
  | Err e => (target, evaluator, Err e)
  | Panic p => (target, evaluator, Panic p)
  | Ret false => (target, evaluator, nil_)
  | Ret true =>
  match foreachValue evaluator attrs with
  | Err e => (target, evaluator, Err e)
  | Panic p => (target, evaluator, Panic p)
  | Ret foreach =>
  if cty.IsNull foreach then
    match iterator attrs with
    | Some it =>
        (target, evaluator,
         Err (E (Some ErrInvalidDynamicIterator) (AtRange (AttrRange it))
                (msg "iterator should not be defined when for_each is omitted")
                None))
    | None =>
        appendDynamicBlockWith target evaluator genBlockType attrs contentBlock
    end
  else
    match iteratorName genBlockType attrs with
    | Err e => (target, evaluator, Err e)
    | Panic p => (target, evaluator, Panic p)
    | Ret iterator =>
        let '(target, evaluator, tmDynamicErr) :=
          ForEachElement (cty.ElementIterator foreach)
            (expandElement iterator genBlockType attrs contentBlock)
            (target, evaluator, nil_) in
        match tmDynamicErr with
        | Panic p => (target, evaluator, Panic p)
        | _ => (target, DeleteNamespace iterator evaluator, tmDynamicErr)
        end
    end
  end end end end end.

Definition appendBlockWith (target : WBody) (block : Block)
    (eval : Context) : Result :=
  if String.eqb (BlockType block) "tm_dynamic" then
    appendDynamicBlocksWith target block eval
  else
    (* targetBlock := target.AppendNewBlock(block.Type, block.Labels) *)
    match BlockBody block with
    | Some body =>
        let '(targetBody, eval', err) := copyBody [] body eval in
        (target ++ [WBlock (BlockType block) (BlockLabels block) targetBody],
         eval', err)
    | None =>
        (target ++ [WBlock (BlockType block) (BlockLabels block) []],
         eval, nil_)
    end.

(* the first loop of copyBody, over the sorted attributes *)
Fixpoint copyAttributes (dest : WBody) (eval : Context)
    (attrs : list Attribute) : WBody * status :=
  match attrs with
  | [] => (dest, nil_)
  | attr :: rest =>
      match PartialEval eval (AttrExpr attr) with
      | Err err =>
          (dest, Err (E None (AtRange (ExprRange (AttrExpr attr))) noMsg (Some err)))
      | Panic p => (dest, Panic p)
      | Ret (newexpr, _) =>
          copyAttributes
            (SetAttributeRaw (Name attr) (TokensForExpression newexpr) dest)
            eval rest
      end
  end.

(* the second loop of copyBody, over src.Blocks *)
Fixpoint appendBlocks (dest : WBody) (blocks : list Block) (eval : Context)
    : Result :=
  match blocks with
  | [] => (dest, eval, nil_)
  | block :: rest =>
      match appendBlockWith dest block eval with
      | (dest', eval', Ret _) => appendBlocks dest' rest eval'
      | failed => failed
      end
  end.

Definition copyBodyStep (dest : WBody) (src : Body) (eval : Context) : Result :=
  match copyAttributes dest eval (SortRawAttributes (BodyAttributes src)) with
  | (dest', Ret _) => appendBlocks dest' (BodyBlocks src) eval
  | (dest', err) => (dest', eval, err)
  end.

End Open.

(* copyBody recurses into the bodies of nested blocks only, so a call
   nests at most as deep as the tree it copies: [depthBody src] unfoldings
   of the body above reach its leaves. *)
Fixpoint copyBodyN (n : nat) : WBody -> Body -> Context -> Result :=
  match n with
  | 0 => fun dest _ eval => (dest, eval, Panic "copyBody: recursion below the leaves")
  | S n' => copyBodyStep (copyBodyN n')
  end.

Definition copyBody (dest : WBody) (src : Body) (eval : Context) : Result :=
  copyBodyN (depthBody src) dest src eval.

Definition appendBlock := appendBlockWith copyBody.
Definition appendDynamicBlocks := appendDynamicBlocksWith copyBody.
Definition appendDynamicBlock := appendDynamicBlockWith copyBody.

End Copier.

(** ** Load: the generate_hcl blocks of one stack *)

(* glob.Glob (github.com/gobwas/glob): an interface with one method. *)
Record Glob : Type := mkGlob { Match : string -> bool }.

Record StackFilter : Type := mkStackFilter {
  ProjectPaths : option (list Glob);      (* None: the nil slice *)
  RepositoryPaths : option (list Glob)
}.

(** Modelled from the spec: hcl.MatchAnyGlob is not among the sources; a
   glob-set matches a path when at least one of its globs does. *)
Definition MatchAnyGlob (globs : list Glob) (s : string) : bool :=
  existsb (fun g => Match g s) globs.

Record AssertConfig : Type := mkAssertConfig {
  AssertCfgRange : Range;
  AssertionExpr : Expr;
  WarningExpr : option Expr;
  MessageExpr : Expr
}.

Record Assert : Type := mkAssert {
  AssertRange : Range;
  Warning : bool;
  Assertion : bool;
  Message : string
}.

(* The zero config.Assert that make([]config.Assert, n) fills the slice with. *)
Definition zeroAssert : Assert := mkAssert (mkRange "" 0 0) false false "".

(* hcl.GenHCLBlock, the fields Load reads. *)
Record GenHCLBlock : Type := mkGenHCLBlock {
  Label : string;
  Dir : Path;
  BlockRange : Range;
  StackFilters : list StackFilter;
  Lets : gmap string Attribute;
  Condition : option Attribute;
  Inherit : option Attribute;
  Asserts : list AssertConfig;
  Content : Body;
  IsImplicitBlock : bool
}.

Inductive CommentStyle : Type := SlashComment | HashComment.
Definition DefaultComment : CommentStyle := SlashComment.

Record HCL : Type := mkHCL {
  magicCommentStyle : CommentStyle;
  label : string;
  origin : Range;
  body : string;
  condition_ : bool;
  asserts : list Assert
}.

(* The configuration of one directory: whether it is empty and the
   generate_hcl blocks it declares (cfg.Node.Generate.HCLs). *)
Record Tree : Type := mkTree {
  IsEmptyConfig : bool;
  HCLs : list GenHCLBlock
}.

Record Root : Type := mkRoot {
  Lookup : Path -> option Tree;
  RootDir : string;
  HCLMagicHeaderCommentStyle : option string
}.

Record Stack : Type := mkStack { StackDir : Path }.

(** Modelled from the spec: project.Path is not among the sources.  Dir is
   the parent directory, the root being its own parent; String joins the
   components below a leading slash. *)
Definition PathDir (p : Path) : Path := removelast p.

Definition PathString (p : Path) : string :=
  match p with
  | [] => "/"
  | _ => foldr (fun c s => "/" +:+ c +:+ s) "" p
  end.

Definition HeaderMagic : string := "TERRAMATE: GENERATED AUTOMATICALLY DO NOT EDIT".

Definition CommentStyleString (c : CommentStyle) : string :=
  match c with
  | SlashComment => "//"
  | HashComment => "#"
  end.

Definition newline : string := String (Ascii.ascii_of_nat 10) EmptyString.

Definition Header (comment : CommentStyle) : string :=
  CommentStyleString comment +:+ " " +:+ HeaderMagic +:+ newline +:+ newline.

Definition commentStyleFromString (str : string) : outcome CommentStyle :=
  if String.eqb str "//" then Ret SlashComment
  else if String.eqb str "#" then Ret HashComment
  else Panic "invalid comment style".

Definition CommentStyleFromConfig (root : Root) : outcome CommentStyle :=
  match HCLMagicHeaderCommentStyle root with
  | None => Ret DefaultComment
  | Some s => commentStyleFromString s
  end.

(* loadGenHCLBlocks: the blocks of cfgdir, then those of its ancestors.  The
   walk ends at the directory that is its own parent; a path of n components
   is n steps below it.  Every return of the Go function has a nil error. *)
Fixpoint loadGenHCLBlocksN (n : nat) (root : Root) (cfgdir : Path)
    : list GenHCLBlock :=
  let res :=
    match Lookup root cfgdir with
    | Some cfg => if negb (IsEmptyConfig cfg) then HCLs cfg else []
    | None => []
    end in
  let parentCfgDir := PathDir cfgdir in
  if bool_decide (parentCfgDir = cfgdir) then res
  else
    match n with
    | 0 => res
    | S n' => res ++ loadGenHCLBlocksN n' root parentCfgDir
    end.

Definition loadGenHCLBlocks (root : Root) (cfgdir : Path) : list GenHCLBlock :=
  loadGenHCLBlocksN (length cfgdir) root cfgdir.

(* The inner loop of Load over the two glob-sets of one filter (lines
   213-224).  Go visits the two map entries in either order; the result is
   the same. *)
Fixpoint globSetsMatch (sets : list (string * option (list Glob))) (dir : string)
    : bool :=
  match sets with
  | [] => true
  | (n, globs) :: rest =>
      match globs with
      | Some gs =>
          if negb (MatchAnyGlob gs dir) then false   (* matched = false; break *)
          else globSetsMatch rest dir
      | None => globSetsMatch rest dir
      end
  end.

Definition stackFilterMatched (cond : StackFilter) (dir : string) : bool :=
  globSetsMatch
    [("project path", ProjectPaths cond);
     ("repository path", RepositoryPaths cond)] dir.

(* matchedAnyStackFilter after the loop over hclBlock.StackFilters (lines
   211-227). *)
Definition matchedAnyStackFilter (filters : list StackFilter) (dir : string)
    : bool :=
  foldl (fun matchedAny cond => matchedAny || stackFilterMatched cond dir)
    (bool_decide (length filters = 0)) filters.

(* sort.SliceStable(hcls, less) with less comparing labels. *)
Fixpoint insertHCL (h : HCL) (l : list HCL) : list HCL :=
  match l with
  | [] => [h]
  | h' :: rest =>
      if String.ltb (label h') (label h) then h' :: insertHCL h rest
      else h :: l
  end.

Definition SliceStable (hcls : list HCL) : list HCL := foldr insertHCL [] hcls.

Definition dquote : string := String (Ascii.ascii_of_nat 34) EmptyString.

Section Load.

Context {evaluatorImpl : Evaluator}.
Variable ValueAsStringList : Value -> outcome (list string).
Variable ValidIdentifier : string -> bool.
Variable AbsTraversalForExpr : Expr -> option (list string).

(* Collaborators of other packages, at their interface: lets.Load (the
   context with the lets bound), config.EvalAssert, the target directory
   the vendor function resolves against, project.PrjAbsPath, the bytes of
   an hclwrite file and fmt.FormatMultiline. *)
Variable letsLoad : gmap string Attribute -> Context -> outcome Context.
Variable EvalAssert : Context -> AssertConfig -> outcome Assert.
Variable vendorTargetDir : Path -> string -> Path.
Variable PrjAbsPath : string -> string -> string.
Variable Bytes : WBody -> string.
Variable FormatMultiline : string -> string -> outcome string.

Definition evalErr (rootdir : string) (kind : Kind) (block : GenHCLBlock)
    (err : error) : error :=
  if IsImplicitBlock block then
    E (Some kind) NoRange
      (mkMsg ("tmgen file " +:+ dquote +:+ "%s" +:+ dquote)
             [ArgString (PrjAbsPath rootdir (Filename (BlockRange block)))])
      (Some err)
  else
    E (Some kind) NoRange (mkMsg "generate_hcl %q" [ArgString (Label block)])
      (Some err).

(* condition (lines 255-269) *)
Definition evalCondition (evalctx : Context) (cond : option Attribute)
    : outcome bool :=
  match cond with
  | None => Ret true
  | Some c =>
      value <- mapErr (fun err => E (Some ErrConditionEval) NoRange noMsg (Some err))
        (Eval evalctx (AttrExpr c)) ;;
      if negb (cty.IsBool (cty.Type_ value)) then
        Err (E (Some ErrInvalidConditionType) NoRange
               (mkMsg "condition has type %s but must be boolean"
                      [ArgType (cty.Type_ value)]) None)
      else
        match value with
        | BoolVal b => Ret b
        | _ => Panic "value is null"
        end
  end.

(* inherit (lines 281-297) *)
Definition evalInherit (evalctx : Context) (inh : option Attribute)
    : outcome bool :=
  match inh with
  | None => Ret true
  | Some i =>
      value <- mapErr (fun err => E (Some ErrInheritEval) NoRange noMsg (Some err))
        (Eval evalctx (AttrExpr i)) ;;
      if negb (cty.IsBool (cty.Type_ value)) then
        Err (E (Some ErrInvalidInheritType) NoRange
               (mkMsg (dquote +:+ "inherit" +:+ dquote
                       +:+ " has type %s but must be boolean")
                      [ArgType (cty.Type_ value)]) None)
      else
        match value with
        | BoolVal b => Ret b
        | _ => Panic "value is null"
        end
  end.

(* the loop over hclBlock.Asserts (lines 304-318): the slice of evaluated
   asserts, the collected errors and assertFailed *)
Fixpoint evalAsserts (evalctx : Context) (cfgs : list AssertConfig)
    (asserts : list Assert) (assertsErrs : list error) (assertFailed : bool)
    : outcome (list Assert * list error * bool) :=
  match cfgs with
  | [] => Ret (asserts, assertsErrs, assertFailed)
  | assertCfg :: rest =>
      match EvalAssert evalctx assertCfg with
      | Panic p => Panic p
      | Err err =>
          evalAsserts evalctx rest (asserts ++ [zeroAssert])
            (errors.Append assertsErrs (Some err)) assertFailed
      | Ret assert =>
          evalAsserts evalctx rest (asserts ++ [assert]) assertsErrs
            (assertFailed || (negb (Assertion assert) && negb (Warning assert)))
      end
  end.

Section Blocks.

Variable root : Root.
Variable st : Stack.
Variable evalctx : Context.
Variable vendorDir : Path.
Variable commentStyle : CommentStyle.

(* content (lines 335-359): the artifact of an applicable block *)
Definition generateContent (hclBlock : GenHCLBlock) (evalctx : Context)
    (condition : bool) (asserts : list Assert) : outcome HCL :=
  let evalctx := SetFunction "hcl_expression" HCLExpressionFunc evalctx in
  match copyBody ValueAsStringList ValidIdentifier AbsTraversalForExpr
          [] (Content hclBlock) evalctx with
  | (_, _, Err err) =>
      Err (evalErr (RootDir root) ErrContentEval hclBlock err)
  | (_, _, Panic p) => Panic p
  | (gen, _, Ret _) =>
      match FormatMultiline (Bytes gen) (Filename (BlockRange hclBlock)) with
      | Ret formatted =>
          Ret (mkHCL commentStyle (Label hclBlock) (BlockRange hclBlock)
                 formatted condition asserts)
      | Err _ => Panic "internal error: formatting generated code for generate_hcl"
      | Panic p => Panic p
      end
  end.

(* the loop of Load over hclBlocks (lines 208-360), appending to hcls *)
Fixpoint loadBlocks (hclBlocks : list GenHCLBlock) (hcls : list HCL)
    : outcome (list HCL) :=
  match hclBlocks with
  | [] => Ret hcls
  | hclBlock :: rest =>
      let name := Label hclBlock in
      if negb (matchedAnyStackFilter (StackFilters hclBlock)
                 (PathString (StackDir st))) then
        loadBlocks rest
          (hcls ++ [mkHCL commentStyle name (BlockRange hclBlock) "" false []])
      else
        let evalctx :=
          SetFunction "vendor"
            (VendorFunc (vendorTargetDir (StackDir st) name) vendorDir)
            (Copy evalctx) in
        evalctx <- letsLoad (Lets hclBlock) evalctx ;;
        condition <- evalCondition evalctx (Condition hclBlock) ;;
        if negb condition then
          loadBlocks rest
            (hcls ++ [mkHCL commentStyle name (BlockRange hclBlock) ""
                        condition []])
        else
          inherit <- evalInherit evalctx (Inherit hclBlock) ;;
          if negb inherit && negb (bool_decide (Dir hclBlock = StackDir st)) then
            (* ignore non-inheritable block *)
            loadBlocks rest hcls
          else
            '(asserts, assertsErrs, assertFailed) <-
              evalAsserts evalctx (Asserts hclBlock) [] errors.L false ;;
            match errors.AsError assertsErrs with
            | Some err => Err err
            | None =>
                if assertFailed then
                  loadBlocks rest
                    (hcls ++ [mkHCL commentStyle name (BlockRange hclBlock) ""
                                condition asserts])
                else
                  generated <- generateContent hclBlock evalctx condition asserts ;;
                  loadBlocks rest (hcls ++ [generated])
            end
  end.

End Blocks.

(* The vendor-request channel of the Go signature only carries requests
   out of the evaluation of the vendor function; it has no part here. *)
Definition Load (root : Root) (st : Stack) (evalctx : Context)
    (vendorDir : Path) : outcome (list HCL) :=
  let hclBlocks := loadGenHCLBlocks root (StackDir st) in
  commentStyle <- CommentStyleFromConfig root ;;
  hcls <- loadBlocks root st evalctx vendorDir commentStyle hclBlocks [] ;;
  Ret (SliceStable hcls).

End Load.

(** ** Vocabulary of the properties *)

(* A glob-set constrains the path only when it is not nil; it is then
   satisfied when one of its globs matches. *)
Definition globSetSatisfied (globs : option (list Glob)) (dir : string) : Prop :=
  forall gs, globs = Some gs -> exists g, In g gs /\ Match g dir = true.

Definition filterMatches (f : StackFilter) (dir : string) : Prop :=
  globSetSatisfied (ProjectPaths f) dir /\ globSetSatisfied (RepositoryPaths f) dir.

Definition withContent (b : GenHCLBlock) (content : Body) : GenHCLBlock :=
  mkGenHCLBlock (Label b) (Dir b) (BlockRange b) (StackFilters b) (Lets b)
    (Condition b) (Inherit b) (Asserts b) content (IsImplicitBlock b).

Definition withCondition (b : GenHCLBlock) (c : option Attribute) : GenHCLBlock :=
  mkGenHCLBlock (Label b) (Dir b) (BlockRange b) (StackFilters b) (Lets b)
    c (Inherit b) (Asserts b) (Content b) (IsImplicitBlock b).

Definition withInherit (b : GenHCLBlock) (i : option Attribute) : GenHCLBlock :=
  mkGenHCLBlock (Label b) (Dir b) (BlockRange b) (StackFilters b) (Lets b)
    (Condition b) i (Asserts b) (Content b) (IsImplicitBlock b).

(* The condition attribute is absent or evaluates to true. *)
Definition conditionHolds `{Evaluator} (ctx : Context) (cond : option Attribute) : Prop :=
  match cond with
  | None => True
  | Some c => Eval ctx (AttrExpr c) = Ret (BoolVal true)
  end.

(* The inherit attribute lets the block through for this stack: it is
   absent, or it evaluates to a boolean that is true unless the block is
   declared in the stack's own directory. *)
Definition inheritPasses `{Evaluator} (ctx : Context) (b : GenHCLBlock)
    (stackDir : Path) : Prop :=
  match Inherit b with
  | None => True
  | Some i =>
      exists inh, Eval ctx (AttrExpr i) = Ret (BoolVal inh)
                  /\ (inh = true \/ Dir b = stackDir)
  end.

(* The errors of the assertions that fail to evaluate, in declaration
   order. *)
Definition assertErrors (EvalAssert : Context -> AssertConfig -> outcome Assert)
    (ctx : Context) (cfgs : list AssertConfig) : list error :=
  flat_map (fun cfg =>
              match EvalAssert ctx cfg with
              | Err e => errors.elements e
              | _ => []
              end) cfgs.

Definition failedAssert (a : Assert) : bool := negb (Assertion a) && negb (Warning a).

(* The attribute names tm_dynamic accepts. *)
Definition supportedDynamicAttr (n : string) : Prop :=
  n = "attributes" \/ n = "for_each" \/ n = "labels" \/ n = "iterator"
  \/ n = "condition".

(* A tm_dynamic block that passes the structural checks; [ty] is its label,
   the type of the blocks it generates. *)
Definition wellFormedDynamic (dynblock : Block) (body : Body) (ty : string) : Prop :=
  BlockBody dynblock = Some body
  /\ BlockLabels dynblock = [ty]
  /\ dynamicBlockErrors dynblock body = [].

(* The guard of a tm_dynamic block is absent or evaluates to true. *)
Definition guardHolds `{Evaluator} (ev : Context) (body : Body) : Prop :=
  conditionHolds ev (BodyAttributes body !! "condition").

(* The loop variable: the iterator attribute when it is a single name, the
   generated block type when there is none. *)
Definition loopVariable (AbsTraversalForExpr : Expr -> option (list string))
    (body : Body) (ty it : string) : Prop :=
  match BodyAttributes body !! "iterator" with
  | None => it = ty
  | Some i => AbsTraversalForExpr (AttrExpr i) = Some [it]
  end.

(* The binding of the loop variable for one element of the collection. *)
Definition boundTo (it : string) (kv : Value * Value) (ev : Context) : Prop :=
  Variables ev !! it = Some (ObjectVal [("key", fst kv); ("value", snd kv)]).

(* The errors of the structural checks of a tm_dynamic block. *)
Definition labelCountError (dynblock : Block) : error :=
  E (Some ErrParsing) (AtRanges (BlockLabelRanges dynblock))
    (msg "tm_dynamic requires a single label") None.

Definition unsupportedAttrError (n : string) (a : Attribute) : error :=
  attrErr a (mkMsg "tm_dynamic unsupported attribute %q" [ArgString n]).

Definition unrecognizedBlockError (b : Block) : error :=
  E (Some ErrParsing) (AtRange (BlockTypeRange b))
    (mkMsg "unrecognized block %s" [ArgString (BlockType b)]) None.

Definition duplicateContentError (b : Block) : error :=
  E (Some ErrParsing) (AtRange (BlockTypeRange b))
    (msg "multiple definitions of the `content` block") None.

Definition missingContentError (body : Body) : error :=
  E (Some ErrParsing) (AtRange (BodyRange body))
    (msg "`content` block or `attributes` obj must be defined") None.

Definition supportedb (n : string) : bool :=
  String.eqb n "attributes" || String.eqb n "for_each" || String.eqb n "labels"
  || String.eqb n "iterator" || String.eqb n "condition".

Definition unsupportedErrors (entries : list (string * Attribute)) : list error :=
  flat_map (fun entry =>
              if supportedb (fst entry) then []
              else [unsupportedAttrError (fst entry) (snd entry)]) entries.

Definition isContent (b : Block) : Prop := BlockType b = "content".

(* An error made by one errors.E call, not a list. *)
Definition plainError (e : error) : Prop :=
  match e with
  | E _ _ _ _ => True
  | List_ _ => False
  end.

Definition pick {A : Type} (o d : option A) : option A :=
  match o with
  | Some x => Some x
  | None => d
  end.

(* One expansion of a tm_dynamic block for the element [kv]: a run of
   appendDynamicBlock in a context that binds the loop variable to that
   element, which adds the block [blk]. *)
Definition expansion `{Evaluator}
    (ValueAsStringList : Value -> outcome (list string))
    (ValidIdentifier : string -> bool)
    (AbsTraversalForExpr : Expr -> option (list string))
    (it ty : string) (attrs : dynBlockAttributes) (contentBlock : option Block)
    (kv : Value * Value) (blk : WItem) : Prop :=
  exists e_in e_out,
    boundTo it kv e_in
    /\ appendDynamicBlock ValueAsStringList ValidIdentifier AbsTraversalForExpr
         [] e_in ty attrs contentBlock
       = ([blk], e_out, Ret tt).

(* The expansion for the element [kv] ends in [st], an error or a panic,
   having added [partial] (nothing, or the block it was filling). *)
Definition failedExpansion `{Evaluator}
    (ValueAsStringList : Value -> outcome (list string))
    (ValidIdentifier : string -> bool)
    (AbsTraversalForExpr : Expr -> option (list string))
    (it ty : string) (attrs : dynBlockAttributes) (contentBlock : option Block)
    (kv : Value * Value) (partial : WBody) (st : status) : Prop :=
  st <> Ret tt
  /\ exists e_in e_out,
       boundTo it kv e_in
       /\ appendDynamicBlock ValueAsStringList ValidIdentifier AbsTraversalForExpr
            [] e_in ty attrs contentBlock
          = (partial, e_out, st).

(* What a loop over [elems] has done to the destination when it ends in
   [st]: either it succeeded and every element has had its expansion, each
   adding one block, in order; or the expansions stopped at the first
   element whose expansion did not succeed, and [st] is how that one ended. *)
Definition runsExpansions `{Evaluator}
    (ValueAsStringList : Value -> outcome (list string))
    (ValidIdentifier : string -> bool)
    (AbsTraversalForExpr : Expr -> option (list string))
    (it ty : string) (attrs : dynBlockAttributes) (contentBlock : option Block)
    (elems : list (Value * Value)) (target target' : WBody) (st : status) : Prop :=
  (st = Ret tt
   /\ exists blks,
        target' = target ++ blks
        /\ length blks = length elems
        /\ Forall2 (expansion ValueAsStringList ValidIdentifier AbsTraversalForExpr
                      it ty attrs contentBlock) elems blks)
  \/ (exists done kv rest blks partial,
        elems = done ++ kv :: rest
        /\ Forall2 (expansion ValueAsStringList ValidIdentifier AbsTraversalForExpr
                      it ty attrs contentBlock) done blks
        /\ failedExpansion ValueAsStringList ValidIdentifier AbsTraversalForExpr
             it ty attrs contentBlock kv partial st
        /\ target' = target ++ blks ++ partial).

(* Two copiers give the same result on every body that satisfies [P]. *)
Definition agree (P : Body -> Prop) (f g : WBody -> Body -> Context -> Result) : Prop :=
  forall b, P b -> forall d e, f d b e = g d b e.

(** ** Further vocabulary *)

(* The generate_hcl blocks declared in one directory: none when the
   directory has no configuration or an empty one. *)
Definition blocksAt (root : Root) (dir : Path) : list GenHCLBlock :=
  match Lookup root dir with
  | Some cfg => if negb (IsEmptyConfig cfg) then HCLs cfg else []
  | None => []
  end.

(* Labels in ascending order. *)
Definition labelLe (a b : HCL) : Prop := String.leb (label a) (label b) = true.

Definition hasLabel (l : string) (h : HCL) : bool := String.eqb (label h) l.

(* An artifact made for the block [b] under the comment style [style]. *)
Definition artifactOf (style : CommentStyle) (b : GenHCLBlock) (h : HCL) : Prop :=
  label h = Label b /\ origin h = BlockRange b /\ magicCommentStyle h = style.

(* An artifact that is not applicable carries neither a body nor
   assertions. *)
Definition inertWhenDisabled (h : HCL) : Prop :=
  condition_ h = false -> body h = "" /\ asserts h = [].

(* No tm_dynamic block at any depth. *)
Fixpoint staticBody (b : Body) : Prop :=
  match b with
  | mkBody _ blocks _ =>
      (fix all (bs : list Block) : Prop :=
         match bs with
         | [] => True
         | x :: rest => staticBlock x /\ all rest
         end) blocks
  end
with staticBlock (b : Block) : Prop :=
  match b with
  | mkBlock ty _ bd _ _ =>
      ty <> "tm_dynamic"
      /\ match bd with
         | Some bd' => staticBody bd'
         | None => True
         end
  end.

(* The evaluator a copier leaves behind binds nothing that was not bound
   before, with the same value, and has the same functions. *)
Definition noNewBindings (before after : Context) : Prop :=
  Variables after ⊆ Variables before /\ Functions after = Functions before.

(* A copier that leaves no binding behind whenever it does not panic. *)
Definition leavesNoBinding (f : WBody -> Body -> Context -> Result) : Prop :=
  forall d b e d' e' st,
    f d b e = (d', e', st) -> (forall p, st <> Panic p) -> noNewBindings e e'.

Definition isWAttribute (it : WItem) : Prop :=
  match it with
  | WAttribute _ _ => True
  | WBlock _ _ _ => False
  end.

(* The destination block made for a source block: same type, same labels. *)
Definition mirrors (b : Block) (it : WItem) : Prop :=
  exists wbody, it = WBlock (BlockType b) (BlockLabels b) wbody.

Definition isWBlock (it : WItem) : Prop :=
  match it with
  | WBlock _ _ _ => True
  | WAttribute _ _ => False
  end.

(* The attributes of a body as the parser builds them: each under its own
   name. *)
Definition keyedByName (b : Body) : Prop :=
  forall k a, BodyAttributes b !! k = Some a -> Name a = k.

Definition nameLt (a b : Attribute) : Prop := String.ltb (Name a) (Name b) = true.

(* The destination attribute written for a source attribute: the same name,
   with the tokens of the partly evaluated expression. *)
Definition copiedFrom `{Evaluator} (eval : Context) (a : Attribute) (it : WItem) : Prop :=
  exists newexpr known,
    PartialEval eval (AttrExpr a) = Ret (newexpr, known)
    /\ it = WAttribute (Name a) (TokensForExpression newexpr).

Section InheritGate.

Context `{Evaluator}.
Variable letsLoad : gmap string Attribute -> Context -> outcome Context.
Variable vendorTargetDir : Path -> string -> Path.
Variable st : Stack.
Variable evalctx : Context.
Variable vendorDir : Path.

(* The context in which Load evaluates the attributes of one block. *)
Definition blockContext (b : GenHCLBlock) : outcome Context :=
  letsLoad (Lets b)
    (SetFunction "vendor"
       (VendorFunc (vendorTargetDir (StackDir st) (Label b)) vendorDir)
       (Copy evalctx)).

(* The blocks the inherit gate leaves out: in scope of the stack, with a
   condition that is absent or true, an inherit that evaluates to false,
   and declared in another directory than the stack's. *)
Definition droppedByInherit (b : GenHCLBlock) : bool :=
  matchedAnyStackFilter (StackFilters b) (PathString (StackDir st))
  && match blockContext b with
     | Ret ctx =>
         match evalCondition ctx (Condition b), evalInherit ctx (Inherit b) with
         | Ret true, Ret false => negb (bool_decide (Dir b = StackDir st))
         | _, _ => false
         end
     | _ => false
     end.

(* The blocks for which Load makes an artifact, in their order. *)
Definition keptBlocks (blocks : list GenHCLBlock) : list GenHCLBlock :=
  List.filter (fun b => negb (droppedByInherit b)) blocks.

End InheritGate.

(** ** A small evaluator and concrete trees *)

Module Toy.

Definition r0 : Range := mkRange "stack.tm" 0 0.
Definition at_ (n : nat) : Range := mkRange "stack.tm" n (S n).

(* Literals evaluate to themselves, [ns.field] to the field of the object
   bound under [ns]; anything else fails. *)
Definition toyEval (c : Context) (e : Expr) : outcome Value :=
  match e with
  | LiteralValueExpr v _ => Ret v
  | ScopeTraversalExpr [ns; field] r =>
      match Variables c !! ns with
      | Some (ObjectVal fields) =>
          match List.find (fun kv => String.eqb (fst kv) field) fields with
          | Some kv => Ret (snd kv)
          | None => Err (E None (AtRange r) (msg "unsupported attribute") None)
          end
      | _ => Err (E None (AtRange r) (msg "unknown variable") None)
      end
  | _ => Err (E None (AtRange (ExprRange e)) (msg "cannot evaluate") None)
  end.

(* References into a bound namespace become literals; the rest is left
   as it is. *)
Definition toyPartialEval (c : Context) (e : Expr) : outcome (Expr * bool) :=
  match e with
  | ScopeTraversalExpr (ns :: _) r =>
      if HasNamespace ns c then
        v <- toyEval c e ;; Ret (LiteralValueExpr v r, false)
      else Ret (e, true)
  | _ => Ret (e, false)
  end.

#[local] Instance toyEvaluator : Evaluator :=
  {| Eval := toyEval; PartialEval := toyPartialEval |}.

Definition toyStringList (v : Value) : outcome (list string) :=
  match v with
  | TupleVal vs | ListVal _ vs =>
      foldr (fun x acc =>
               l <- acc ;;
               match x with
               | StringVal s => Ret (s :: l)
               | _ => Err (E None NoRange (msg "value must be a string") None)
               end) (Ret []) vs
  | _ => Err (E None NoRange (msg "value must be a list of strings") None)
  end.

Definition toyValidIdentifier (s : string) : bool :=
  negb (String.eqb s "") && negb (String.eqb s "not valid").

Definition toyTraversal (e : Expr) : option (list string) :=
  match e with
  | ScopeTraversalExpr t _ => Some t
  | _ => None
  end.

Definition emptyCtx : Context := mkContext ∅ ∅.

Definition lit (v : Value) : Expr := LiteralValueExpr v r0.
Definition attr (n : string) (e : Expr) (pos : nat) : Attribute :=
  mkAttribute n e (at_ pos).
Definition attrsOf (l : list Attribute) : gmap string Attribute :=
  list_to_map ((fun a => (Name a, a)) <$> l).

Definition dyn := appendDynamicBlocks toyStringList toyValidIdentifier toyTraversal.
Definition dyn1 := appendDynamicBlock toyStringList toyValidIdentifier toyTraversal.
Definition copy := copyBody toyStringList toyValidIdentifier toyTraversal.

(* content { value = b.value } *)
Definition contentValue : Block :=
  mkBlock "content" []
    (Some (mkBody (attrsOf [attr "value" (ScopeTraversalExpr ["b"; "value"] r0) 20])
             [] r0)) (at_ 10) [].

(* tm_dynamic "b" { for_each = {a = 1, b = 2}  content { value = b.value } } *)
Definition dynForEach (fe : Value) : Block :=
  mkBlock "tm_dynamic" ["b"]
    (Some (mkBody (attrsOf [attr "for_each" (lit fe) 1]) [contentValue] r0))
    r0 [r0].

Definition bodyOf (attrs : list Attribute) (blocks : list Block) : Body :=
  mkBody (attrsOf attrs) blocks r0.

Definition forEachBody (fe : Value) : Body :=
  bodyOf [attr "for_each" (lit fe) 1] [contentValue].

Definition numbers : Value :=
  MapVal TyNumber [("b", NumberIntVal 2); ("a", NumberIntVal 1)].

(* content { value = b.missing }: fails once b is bound *)
Definition contentMissing : Block :=
  mkBlock "content" []
    (Some (bodyOf [attr "value" (ScopeTraversalExpr ["b"; "missing"] (at_ 21)) 20] []))
    (at_ 10) [].

Definition failingBody : Body :=
  bodyOf [attr "for_each" (lit numbers) 1] [contentMissing].
Definition dynFailing : Block :=
  mkBlock "tm_dynamic" ["b"] (Some failingBody) r0 [r0].

(* tm_dynamic "b" { content { value = b.value } } *)
Definition plainBody : Body := bodyOf [] [contentValue].
Definition dynPlain : Block :=
  mkBlock "tm_dynamic" ["b"] (Some plainBody) r0 [r0].

Definition iteratorAttr : Attribute :=
  attr "iterator" (ScopeTraversalExpr ["x"] r0) 2.

(* tm_dynamic "b" { iterator = x  content { ... } } *)
Definition iteratorBody : Body := bodyOf [iteratorAttr] [contentValue].
Definition dynIterator : Block :=
  mkBlock "tm_dynamic" ["b"] (Some iteratorBody) r0 [r0].

(* tm_dynamic "b" { iterator = x  condition = false  content { ... } } *)
Definition guardedBody : Body :=
  bodyOf [iteratorAttr; attr "condition" (lit (BoolVal false)) 3] [contentValue].
Definition dynGuarded : Block :=
  mkBlock "tm_dynamic" ["b"] (Some guardedBody) r0 [r0].

(* for_each = null of type map, with and without an iterator *)
Definition nullMap : Value := NullVal (TyMap TyNumber).
Definition nullBody : Body := forEachBody nullMap.
Definition dynNull : Block := dynForEach nullMap.
Definition nullIteratorBody : Body :=
  bodyOf [attr "for_each" (lit nullMap) 1; iteratorAttr] [contentValue].
Definition dynNullIterator : Block :=
  mkBlock "tm_dynamic" ["b"] (Some nullIteratorBody) r0 [r0].

(* attributes = { value = 1 } next to content { value = 1 } *)
Definition attributesAttr : Attribute :=
  attr "attributes" (lit (ObjectVal [("value", NumberIntVal 1)])) 4.
Definition contentLiteralBody : Body :=
  bodyOf [attr "value" (lit (NumberIntVal 1)) 20] [].
Definition contentLiteral : Block :=
  mkBlock "content" [] (Some contentLiteralBody) (at_ 10) [].
Definition conflictAttrs : dynBlockAttributes :=
  mkDynBlockAttributes (Some attributesAttr) None None None None.

(* tm_dynamic "a" "b" { foo = 1  other {}  content {}  content {} } *)
Definition otherBlock : Block := mkBlock "other" [] (Some (bodyOf [] [])) (at_ 30) [].
Definition content1 : Block := mkBlock "content" [] (Some (bodyOf [] [])) (at_ 40) [].
Definition content2 : Block := mkBlock "content" [] (Some (bodyOf [] [])) (at_ 50) [].
Definition fooAttr : Attribute := attr "foo" (lit (NumberIntVal 1)) 5.
Definition brokenBody : Body := bodyOf [fooAttr] [otherBlock; content1; content2].
Definition dynBroken : Block :=
  mkBlock "tm_dynamic" ["a"; "b"] (Some brokenBody) r0 [at_ 11; at_ 12].

(** Load *)

Definition toyLets (_ : gmap string Attribute) (c : Context) : outcome Context :=
  Ret c.

Definition toyEvalAssert (c : Context) (cfg : AssertConfig) : outcome Assert :=
  a <- toyEval c (AssertionExpr cfg) ;;
  w <- match WarningExpr cfg with
       | None => Ret (BoolVal false)
       | Some e => toyEval c e
       end ;;
  m <- toyEval c (MessageExpr cfg) ;;
  match a, w, m with
  | BoolVal a, BoolVal w, StringVal m =>
      Ret (mkAssert (AssertCfgRange cfg) w a m)
  | _, _, _ => Err (E None (AtRange (AssertCfgRange cfg)) (msg "invalid assert") None)
  end.

Definition toyVendorTarget (dir : Path) (_ : string) : Path := dir.
Definition toyPrjAbsPath (_ hostpath : string) : string := hostpath.

Definition itemName (it : WItem) : string :=
  match it with
  | WAttribute n _ => n
  | WBlock t _ _ => t
  end.
Definition toyBytes (b : WBody) : string :=
  foldr (fun it s => itemName it +:+ newline +:+ s) "" b.
Definition toyFormat (s _ : string) : outcome string := Ret s.

Definition load :=
  Load toyStringList toyValidIdentifier toyTraversal toyLets toyEvalAssert
    toyVendorTarget toyPrjAbsPath toyBytes toyFormat.
Definition loop :=
  loadBlocks toyStringList toyValidIdentifier toyTraversal toyLets toyEvalAssert
    toyVendorTarget toyPrjAbsPath toyBytes toyFormat.

Definition parentDir : Path := ["stacks"].
Definition stackDir : Path := ["stacks"; "app"].
Definition stack : Stack := mkStack stackDir.

Definition falseAttr (n : string) (pos : nat) : Attribute :=
  attr n (lit (BoolVal false)) pos.

(* a content that cannot be generated: tm_dynamic without a label *)
Definition invalidContent : Body :=
  bodyOf [] [mkBlock "tm_dynamic" [] (Some (bodyOf [] [])) r0 []].

Definition genBlock (dir : Path) (filters : list StackFilter)
    (cond inh : option Attribute) (asserts : list AssertConfig)
    (content : Body) : GenHCLBlock :=
  mkGenHCLBlock "backend.tf" dir r0 filters ∅ cond inh asserts content false.

(* declared in the parent: condition = false, inherit = false *)
Definition disabledParentBlock : GenHCLBlock :=
  genBlock parentDir [] (Some (falseAttr "condition" 1))
    (Some (falseAttr "inherit" 2)) [] plainBody.

(* declared in the parent: inherit = false, no condition *)
Definition parentOnlyBlock : GenHCLBlock :=
  genBlock parentDir [] None (Some (falseAttr "inherit" 2)) [] plainBody.

Definition rootWith (b : GenHCLBlock) : Root :=
  mkRoot (fun p => if bool_decide (p = parentDir) then Some (mkTree false [b])
                   else None)
    "/" None.

Definition conditionFalseBlock : GenHCLBlock :=
  genBlock stackDir [] (Some (falseAttr "condition" 1)) None [] plainBody.

Definition failingAssert : AssertConfig :=
  mkAssertConfig (at_ 7) (lit (BoolVal false)) None (lit (StringVal "must hold")).
Definition warningAssert : AssertConfig :=
  mkAssertConfig (at_ 8) (lit (BoolVal false)) (Some (lit (BoolVal true)))
    (lit (StringVal "should hold")).

Definition assertingBlock : GenHCLBlock :=
  genBlock stackDir [] None None [warningAssert; failingAssert] plainBody.

Definition neverGlob : Glob := mkGlob (fun _ => false).
Definition filteredBlock : GenHCLBlock :=
  genBlock stackDir [mkStackFilter (Some [neverGlob]) None] None None [] plainBody.

End Toy.
(** ** Further concrete trees: failures and edge cases *)

Module Cases.

Definition dynOf (body : Body) : Block :=
  mkBlock "tm_dynamic" ["b"] (Some body) Toy.r0 [Toy.r0].

(* tm_dynamic "b" { condition = "yes"  content { value = b.value } } *)
Definition stringGuard : Attribute := Toy.attr "condition" (Toy.lit (StringVal "yes")) 3.
Definition stringGuardBody : Body := Toy.bodyOf [stringGuard] [Toy.contentValue].

(* tm_dynamic "b" { condition = missing.value  content { ... } } *)
Definition unboundExpr : Expr := ScopeTraversalExpr ["missing"; "value"] (Toy.at_ 9).
Definition unboundGuard : Attribute := Toy.attr "condition" unboundExpr 3.
Definition unboundGuardBody : Body := Toy.bodyOf [unboundGuard] [Toy.contentValue].

(* for_each = 1, and for_each = missing.value *)
Definition numberForEach : Attribute := Toy.attr "for_each" (Toy.lit (NumberIntVal 1)) 1.
Definition numberBody : Body := Toy.bodyOf [numberForEach] [Toy.contentValue].
Definition unboundForEach : Attribute := Toy.attr "for_each" unboundExpr 1.
Definition unboundForEachBody : Body := Toy.bodyOf [unboundForEach] [Toy.contentValue].

(* for_each = {a = 1, b = 2}  iterator = x.y *)
Definition numbersForEach : Attribute := Toy.attr "for_each" (Toy.lit Toy.numbers) 1.
Definition longIterator : Attribute :=
  Toy.attr "iterator" (ScopeTraversalExpr ["x"; "y"] Toy.r0) 2.
Definition longIteratorBody : Body :=
  Toy.bodyOf [numbersForEach; longIterator] [Toy.contentValue].

(* for_each = {}, in a context that already binds b *)
Definition emptyMap : Value := MapVal TyNumber [].
Definition emptyForEach : Attribute := Toy.attr "for_each" (Toy.lit emptyMap) 1.
Definition emptyBody : Body := Toy.bodyOf [emptyForEach] [Toy.contentValue].
Definition boundCtx : Context :=
  SetNamespace "b" [("value", StringVal "outer")] Toy.emptyCtx.

(* labels = 1, labels = missing.value, labels = ["x"] *)
Definition numberLabel : Attribute := Toy.attr "labels" (Toy.lit (NumberIntVal 1)) 6.
Definition unboundLabel : Attribute := Toy.attr "labels" unboundExpr 6.
Definition listLabel : Attribute :=
  Toy.attr "labels" (Toy.lit (TupleVal [StringVal "x"])) 6.
Definition labelled (l : Attribute) : dynBlockAttributes :=
  mkDynBlockAttributes None None None (Some l) None.

(* attributes = { b = 2, a = 1 } *)
Definition unordered : Value := ObjectVal [("b", NumberIntVal 2); ("a", NumberIntVal 1)].
Definition unorderedAttr : Attribute := Toy.attr "attributes" (Toy.lit unordered) 4.

(* attributes = { ahead = 1, (not valid) = 2 } next to content { ahead = 1 } *)
Definition aheadKeys : Value :=
  ObjectVal [("ahead", NumberIntVal 1); ("not valid", NumberIntVal 2)].
Definition aheadAttr : Attribute := Toy.attr "attributes" (Toy.lit aheadKeys) 4.
Definition aheadAttrs : dynBlockAttributes :=
  mkDynBlockAttributes (Some aheadAttr) None None None None.
Definition aheadContentBody : Body :=
  Toy.bodyOf [Toy.attr "ahead" (Toy.lit (NumberIntVal 1)) 20] [].
Definition aheadContent : Block :=
  mkBlock "content" [] (Some aheadContentBody) (Toy.at_ 10) [].

(* attributes = { a = 1, (not valid) = 2, c = 3 } as the expander sets them *)
Definition tmA : tmAttribute := mkTmAttribute "a" (TokensForValue (NumberIntVal 1)) Toy.r0.
Definition tmBad : tmAttribute :=
  mkTmAttribute "not valid" (TokensForValue (NumberIntVal 2)) (Toy.at_ 2).
Definition tmC : tmAttribute := mkTmAttribute "c" (TokensForValue (NumberIntVal 3)) Toy.r0.

(* the items of { a = missing.value } *)
Definition items : list (Expr * Expr) := [(Toy.lit (StringVal "a"), unboundExpr)].

(* foo = 1  other {}  content {} *)
Definition ordinaryBody : Body :=
  Toy.bodyOf [Toy.fooAttr] [Toy.otherBlock; Toy.content1].

(* a body with a tm_dynamic block below an ordinary block *)
Definition nestedBody : Body :=
  Toy.bodyOf [] [mkBlock "resource" ["r"]
                   (Some (Toy.bodyOf [] [Toy.dynForEach Toy.numbers])) Toy.r0 [Toy.r0]].

(* zeta = 1  alpha = missing.value  tm_dynamic "b" { for_each = {..} ... } *)
Definition zeta : Attribute := Toy.attr "zeta" (Toy.lit (NumberIntVal 1)) 31.
Definition alpha : Attribute := Toy.attr "alpha" unboundExpr 32.
Definition mixedBody : Body :=
  Toy.bodyOf [zeta; alpha] [Toy.dynForEach Toy.numbers].

(** Load: two blocks declared in the stack, one in its parent *)

Definition named (l : string) (dir : Path) (cond : option Attribute)
    (content : Body) : GenHCLBlock :=
  mkGenHCLBlock l dir Toy.r0 [] ∅ cond None [] content false.

Definition blockB : GenHCLBlock := named "b.tf" Toy.stackDir None ordinaryBody.
Definition blockA : GenHCLBlock := named "a.tf" Toy.stackDir None ordinaryBody.
Definition blockParent : GenHCLBlock :=
  named "a.tf" Toy.parentDir (Some (Toy.falseAttr "condition" 1)) ordinaryBody.
Definition blockBroken : GenHCLBlock :=
  named "c.tf" Toy.stackDir (Some stringGuard) ordinaryBody.

Definition root : Root :=
  mkRoot (fun p => if bool_decide (p = Toy.stackDir) then
                     Some (mkTree false [blockB; blockA])
                   else if bool_decide (p = Toy.parentDir) then
                     Some (mkTree false [blockParent])
                   else None)
    "/" None.

Definition generated (l : string) : HCL :=
  mkHCL SlashComment l Toy.r0
    ("foo" +:+ newline +:+ "other" +:+ newline +:+ "content" +:+ newline)
    true [].

End Cases.

(** * Properties *)

(** ** The copier is the fixed point of its body *)

Lemma depthBody_eq (attrs : gmap string Attribute) (blocks : list Block) (r : Range) :
  depthBody (mkBody attrs blocks r) = S (depthBlocks blocks).
Proof.
  reflexivity.
Qed.

Lemma depthBody_pos (b : Body) : 0 < depthBody b.
Proof. destruct b. rewrite depthBody_eq. lia. Qed.

Lemma depthBlocks_In (b : Block) (bs : list Block) :
  In b bs -> depthBlock b <= depthBlocks bs.
Proof.
  induction bs as [|x bs IH]; simpl; [tauto|].
  intros [->|Hin]; [lia|]. specialize (IH Hin). lia.
Qed.

Lemma contentBlockStep_In (blocks : list Block) :
  forall (acc : option Block * list error) (cb : Block),
    fst (foldl contentBlockStep acc blocks) = Some cb ->
    fst acc = Some cb \/ In cb blocks.
Proof.
  induction blocks as [|b bs IH]; simpl; intros acc cb H; [now left|].
  destruct (IH _ _ H) as [Hacc|Hin]; [|now right; right].
  destruct acc as [c errs]. unfold contentBlockStep in Hacc.
  destruct (negb (String.eqb (BlockType b) "content")); simpl in Hacc; [now left|].
  destruct c; simpl in Hacc; [now left|].
  right; left. congruence.
Qed.

Lemma getContentBlock_In (blocks : list Block) (cb : Block) :
  fst (getContentBlock blocks) = Some cb -> In cb blocks.
Proof.
  unfold getContentBlock.
  destruct (foldl contentBlockStep (None, errors.L) blocks) as [c errs] eqn:Hf.
  destruct (errors.AsError errs); simpl; [discriminate|].
  intros ->.
  destruct (contentBlockStep_In blocks (None, errors.L) cb) as [H|H];
    [now rewrite Hf|discriminate|exact H].
Qed.

(* Case analysis on the scrutinee at the head of the left-hand side. *)
Ltac head_case :=
  match goal with
  | |- (match ForEachElement _ _ _ with _ => _ end) = _ => fail 1
  | |- (match ?G with _ => _ end) = _ => destruct G eqn:?
  end.

Section CopierFacts.

Context {evaluatorImpl : Evaluator}.
Variable ValueAsStringList : Value -> outcome (list string).
Variable ValidIdentifier : string -> bool.
Variable AbsTraversalForExpr : Expr -> option (list string).

Lemma fillDynamicBlock_ext f g evaluator attrs contentBlock :
  (forall cb cbody, contentBlock = Some cb -> BlockBody cb = Some cbody ->
     forall d e, f d cbody e = g d cbody e) ->
  fillDynamicBlock ValidIdentifier f evaluator attrs contentBlock
  = fillDynamicBlock ValidIdentifier g evaluator attrs contentBlock.
Proof.
  intros H. unfold fillDynamicBlock.
  repeat case_match; try reflexivity; eapply H; eauto.
Qed.

Lemma appendDynamicBlockWith_ext f g destination evaluator ty attrs contentBlock :
  (forall cb cbody, contentBlock = Some cb -> BlockBody cb = Some cbody ->
     forall d e, f d cbody e = g d cbody e) ->
  appendDynamicBlockWith ValueAsStringList ValidIdentifier f
    destination evaluator ty attrs contentBlock
  = appendDynamicBlockWith ValueAsStringList ValidIdentifier g
    destination evaluator ty attrs contentBlock.
Proof.
  intros H. unfold appendDynamicBlockWith.
  now rewrite (fillDynamicBlock_ext f g _ _ _ H).
Qed.

Lemma ForEachElement_ext {S : Type} (elems : list (Value * Value))
    (c1 c2 : Value -> Value -> S -> S * bool) :
  (forall k v s, c1 k v s = c2 k v s) ->
  forall s, ForEachElement elems c1 s = ForEachElement elems c2 s.
Proof.
  intros H. induction elems as [|[k v] rest IH]; intros s; simpl; [reflexivity|].
  rewrite H. destruct (c2 k v s) as [s' stop]. destruct stop; [reflexivity|apply IH].
Qed.

Lemma depthBlock_body (b : Block) (bd : Body) :
  BlockBody b = Some bd -> depthBlock b = depthBody bd.
Proof. destruct b as [? ? [?|] ? ?]; simpl; congruence. Qed.

Lemma appendDynamicBlocksWith_ext f g target dynblock evaluator :
  agree (fun b => depthBody b < depthBlock dynblock) f g ->
  appendDynamicBlocksWith ValueAsStringList ValidIdentifier AbsTraversalForExpr f
    target dynblock evaluator
  = appendDynamicBlocksWith ValueAsStringList ValidIdentifier AbsTraversalForExpr g
    target dynblock evaluator.
Proof.
  intros H. unfold appendDynamicBlocksWith.
  destruct (BlockBody dynblock) as [body|] eqn:Hb; [|reflexivity].
  assert (Hc : forall cb cbody,
             fst (getContentBlock (BodyBlocks body)) = Some cb ->
             BlockBody cb = Some cbody ->
             forall d e, f d cbody e = g d cbody e).
  { intros cb cbody Hcb Hbody d e. apply H.
    rewrite (depthBlock_body _ _ Hb).
    apply getContentBlock_In, depthBlocks_In in Hcb.
    rewrite (depthBlock_body _ _ Hbody) in Hcb.
    destruct body as [a bs r]. rewrite depthBody_eq. simpl in Hcb. lia. }
  repeat (head_case; try reflexivity; cbv zeta).
  - now apply appendDynamicBlockWith_ext.
  - erewrite (ForEachElement_ext _ _
                (expandElement ValueAsStringList ValidIdentifier g _ _ _ _));
      [reflexivity|].
    intros k v [[t e] st]. unfold expandElement.
    now rewrite (appendDynamicBlockWith_ext f g _ _ _ _ _ Hc).
Qed.

Lemma appendBlockWith_ext f g target block eval :
  agree (fun b => depthBody b <= depthBlock block) f g ->
  appendBlockWith ValueAsStringList ValidIdentifier AbsTraversalForExpr f
    target block eval
  = appendBlockWith ValueAsStringList ValidIdentifier AbsTraversalForExpr g
    target block eval.
Proof.
  intros H. unfold appendBlockWith. case_match.
  - apply appendDynamicBlocksWith_ext. intros b Hlt. apply H. lia.
  - destruct (BlockBody block) as [bd|] eqn:Hb; [|reflexivity].
    rewrite (H bd); [reflexivity|]. rewrite (depthBlock_body _ _ Hb). lia.
Qed.

Lemma appendBlocks_ext f g blocks :
  agree (fun b => depthBody b <= depthBlocks blocks) f g ->
  forall dest eval,
    appendBlocks ValueAsStringList ValidIdentifier AbsTraversalForExpr f
      dest blocks eval
    = appendBlocks ValueAsStringList ValidIdentifier AbsTraversalForExpr g
      dest blocks eval.
Proof.
  induction blocks as [|b bs IH]; intros H dest eval; simpl; [reflexivity|].
  rewrite (appendBlockWith_ext f g).
  - destruct (appendBlockWith _ _ _ g dest b eval) as [[d e] [[]|err|p]];
      try reflexivity.
    apply IH. intros x Hx. apply H. simpl. lia.
  - intros x Hx. apply H. simpl. lia.
Qed.

Lemma copyBodyStep_ext f g dest src eval :
  agree (fun b => depthBody b < depthBody src) f g ->
  copyBodyStep ValueAsStringList ValidIdentifier AbsTraversalForExpr f dest src eval
  = copyBodyStep ValueAsStringList ValidIdentifier AbsTraversalForExpr g dest src eval.
Proof.
  intros H. unfold copyBodyStep.
  destruct (copyAttributes dest eval _) as [d [[]|err|p]]; try reflexivity.
  apply appendBlocks_ext. intros b Hb. apply H.
  destruct src as [a bs r]. rewrite depthBody_eq. simpl in Hb. lia.
Qed.

Lemma copyBodyN_stable (n : nat) :
  forall m src, depthBody src <= n -> depthBody src <= m ->
  forall dest eval,
    copyBodyN ValueAsStringList ValidIdentifier AbsTraversalForExpr n dest src eval
    = copyBodyN ValueAsStringList ValidIdentifier AbsTraversalForExpr m dest src eval.
Proof.
  induction n as [|n IH]; intros m src Hn Hm dest eval.
  - pose proof (depthBody_pos src). lia.
  - destruct m as [|m]; [pose proof (depthBody_pos src); lia|].
    simpl. apply copyBodyStep_ext. intros b Hb d e. apply IH; lia.
Qed.

(* copyBody satisfies the recursive equation of the Go function. *)
Lemma copyBody_unfold dest src eval :
  copyBody ValueAsStringList ValidIdentifier AbsTraversalForExpr dest src eval
  = copyBodyStep ValueAsStringList ValidIdentifier AbsTraversalForExpr
      (copyBody ValueAsStringList ValidIdentifier AbsTraversalForExpr)
      dest src eval.
Proof.
  unfold copyBody at 1.
  destruct (depthBody src) as [|k] eqn:Hk; [pose proof (depthBody_pos src); lia|].
  simpl. apply copyBodyStep_ext. intros b Hb d e.
  unfold copyBody. apply copyBodyN_stable; lia.
Qed.

End CopierFacts.

(** ** The structural checks of tm_dynamic *)

Lemma supportedb_spec (n : string) : supportedb n = true <-> supportedDynamicAttr n.
Proof.
  unfold supportedb, supportedDynamicAttr.
  rewrite !orb_true_iff, !String.eqb_eq. tauto.
Qed.

Lemma elements_plain (l : list error) :
  Forall plainError l -> errors.elements (List_ l) = l.
Proof.
  induction 1 as [|e l He _ IH]; [reflexivity|].
  simpl in *. rewrite IH. destruct e; [reflexivity|destruct He].
Qed.

Lemma Append_AsError (errs l : list error) :
  Forall plainError l -> errors.Append errs (errors.AsError l) = errs ++ l.
Proof.
  intros Hl. destruct l as [|e l]; simpl; [now rewrite app_nil_r|].
  f_equal. now apply (elements_plain (e :: l)).
Qed.

Lemma dynAttrStep_errs (l : list (string * Attribute)) :
  forall acc, snd (foldl dynAttrStep acc l) = snd acc ++ unsupportedErrors l.
Proof.
  induction l as [|[n a] l IH]; intros [d errs]; simpl; [now rewrite app_nil_r|].
  rewrite IH. unfold supportedb.
  repeat (destruct (String.eqb n _); simpl; [reflexivity|]).
  now rewrite <- app_assoc.
Qed.

(* The entry at hand sets one field: its key is fresh in the rest of the
   list and differs from the four other names. *)
Ltac field_case Hnone :=
  simpl; rewrite ?lookup_insert_eq, ?Hnone;
  rewrite ?lookup_insert_ne by (intros [=]); reflexivity.

Lemma dynAttrStep_fields (l : list (string * Attribute)) :
  NoDup l.*1 ->
  forall acc,
    fst (foldl dynAttrStep acc l)
    = let m : gmap string Attribute := list_to_map l in
      mkDynBlockAttributes
        (pick (m !! "attributes") (attributes (fst acc)))
        (pick (m !! "iterator") (iterator (fst acc)))
        (pick (m !! "for_each") (foreach (fst acc)))
        (pick (m !! "labels") (labels (fst acc)))
        (pick (m !! "condition") (condition (fst acc))).
Proof.
  induction l as [|[n a] l IH]; intros Hnd [d errs]; simpl.
  - rewrite !lookup_empty. now destruct d.
  - inversion Hnd as [|? ? Hnotin Hnd']; subst.
    rewrite (IH Hnd'). cbv zeta.
    assert (Hnone : (list_to_map l : gmap string Attribute) !! n = None)
      by now apply not_elem_of_list_to_map_1.
    destruct (String.eqb_spec n "attributes") as [->|?]; [field_case Hnone|].
    destruct (String.eqb_spec n "for_each") as [->|?]; [field_case Hnone|].
    destruct (String.eqb_spec n "labels") as [->|?]; [field_case Hnone|].
    destruct (String.eqb_spec n "iterator") as [->|?]; [field_case Hnone|].
    destruct (String.eqb_spec n "condition") as [->|?]; [field_case Hnone|].
    simpl. now rewrite !lookup_insert_ne by assumption.
Qed.

Lemma getDynamicBlockAttrs_fields (body : Body) :
  fst (getDynamicBlockAttrs body)
  = mkDynBlockAttributes
      (BodyAttributes body !! "attributes") (BodyAttributes body !! "iterator")
      (BodyAttributes body !! "for_each") (BodyAttributes body !! "labels")
      (BodyAttributes body !! "condition").
Proof.
  unfold getDynamicBlockAttrs.
  pose proof (dynAttrStep_fields (map_to_list (BodyAttributes body))
                (NoDup_fst_map_to_list _)
                (mkDynBlockAttributes None None None None None, errors.L)) as H.
  destruct (foldl dynAttrStep _ _) as [d errs]. simpl in *. rewrite H.
  rewrite list_to_map_to_list.
  f_equal; match goal with |- pick ?o _ = _ => now destruct o end.
Qed.

Lemma unsupportedErrors_plain (l : list (string * Attribute)) :
  Forall plainError (unsupportedErrors l).
Proof.
  induction l as [|[n a] l IH]; simpl; [constructor|].
  destruct (supportedb n); simpl; [exact IH|]. constructor; [exact I|exact IH].
Qed.

Lemma getDynamicBlockAttrs_errs (body : Body) :
  snd (getDynamicBlockAttrs body)
  = errors.AsError (unsupportedErrors (map_to_list (BodyAttributes body))).
Proof.
  unfold getDynamicBlockAttrs.
  pose proof (dynAttrStep_errs (map_to_list (BodyAttributes body))
                (mkDynBlockAttributes None None None None None, errors.L)) as H.
  destruct (foldl dynAttrStep _ _) as [d errs]. simpl in *. now rewrite H.
Qed.

Lemma unsupportedErrors_In (m : gmap string Attribute) (n : string) (a : Attribute) :
  m !! n = Some a -> ~ supportedDynamicAttr n ->
  In (unsupportedAttrError n a) (unsupportedErrors (map_to_list m)).
Proof.
  intros Hl Hns. unfold unsupportedErrors. apply in_flat_map.
  exists (n, a). split.
  - apply list_elem_of_In. now apply elem_of_map_to_list.
  - simpl. destruct (supportedb n) eqn:Hs; [|now left].
    now apply supportedb_spec in Hs.
Qed.

(* The errors the loop of getContentBlock collects. *)
Lemma contentBlockStep_plain (l : list Block) :
  forall acc, Forall plainError (snd acc) ->
              Forall plainError (snd (foldl contentBlockStep acc l)).
Proof.
  induction l as [|b l IH]; intros [c errs] H; simpl; [exact H|].
  apply IH. simpl in *.
  destruct (negb (String.eqb (BlockType b) "content")); simpl.
  - apply Forall_app. split; [exact H|]. repeat constructor.
  - destruct c; simpl; [|exact H].
    apply Forall_app. split; [exact H|]. repeat constructor.
Qed.

Lemma contentBlockStep_keeps (l : list Block) :
  forall acc e, In e (snd acc) -> In e (snd (foldl contentBlockStep acc l)).
Proof.
  induction l as [|b l IH]; intros [c errs] e H; simpl; [exact H|].
  apply IH. simpl in *.
  destruct (negb (String.eqb (BlockType b) "content")); simpl.
  - apply in_or_app. now left.
  - destruct c; simpl; [apply in_or_app; now left|exact H].
Qed.

Lemma contentBlockStep_unrecognized (l : list Block) :
  forall acc b, In b l -> ~ isContent b ->
                In (unrecognizedBlockError b) (snd (foldl contentBlockStep acc l)).
Proof.
  induction l as [|x l IH]; intros [c errs] b Hin Hty; [destruct Hin|].
  destruct Hin as [->|Hin]; [|now apply IH].
  simpl. apply contentBlockStep_keeps.
  destruct (String.eqb_spec (BlockType b) "content") as [Heq|_]; [contradiction|].
  simpl. apply in_or_app. right. now left.
Qed.

Lemma contentBlockStep_found (l : list Block) :
  forall acc, is_Some (fst acc) \/ (exists b, In b l /\ isContent b) ->
              is_Some (fst (foldl contentBlockStep acc l)).
Proof.
  induction l as [|x l IH]; intros [c errs] H; simpl.
  - destruct H as [H|[b [[] _]]]. exact H.
  - apply IH. simpl in *.
    destruct (String.eqb_spec (BlockType x) "content") as [Heq|Hne]; simpl.
    + left. destruct c; simpl; eauto.
    + destruct H as [H|[b [[->|Hin] Hb]]]; [now left|contradiction|].
      right. eauto.
Qed.

Lemma contentBlockStep_duplicate (l1 l2 : list Block) (b : Block) :
  forall acc, isContent b ->
              is_Some (fst acc) \/ (exists b1, In b1 l1 /\ isContent b1) ->
              In (duplicateContentError b)
                 (snd (foldl contentBlockStep acc (l1 ++ b :: l2))).
Proof.
  intros acc Hb Hfound. rewrite foldl_app. simpl.
  apply contentBlockStep_keeps.
  pose proof (contentBlockStep_found l1 acc Hfound) as [c Hc].
  destruct (foldl contentBlockStep acc l1) as [c' errs]. simpl in *. subst c'.
  unfold isContent in Hb. rewrite Hb. simpl.
  apply in_or_app. right. now left.
Qed.

Lemma contentBlockStep_none (l : list Block) :
  (forall b, In b l -> ~ isContent b) ->
  forall errs, fst (foldl contentBlockStep (None, errs) l) = None.
Proof.
  induction l as [|x l IH]; intros H errs; simpl; [reflexivity|].
  destruct (String.eqb_spec (BlockType x) "content") as [Heq|Hne]; simpl.
  - exfalso. apply (H x); [now left|exact Heq].
  - apply IH. intros b Hin. apply H. now right.
Qed.

Lemma getContentBlock_none (blocks : list Block) :
  (forall b, In b blocks -> ~ isContent b) -> fst (getContentBlock blocks) = None.
Proof.
  intros H. unfold getContentBlock.
  pose proof (contentBlockStep_none blocks H errors.L) as Hn.
  destruct (foldl contentBlockStep _ _) as [c errs]. simpl in Hn. subst c.
  now destruct (errors.AsError errs).
Qed.

Lemma getContentBlock_errs (blocks : list Block) :
  snd (getContentBlock blocks)
  = errors.AsError (snd (foldl contentBlockStep (None, errors.L) blocks)).
Proof.
  unfold getContentBlock.
  destruct (foldl contentBlockStep _ _) as [c errs]. simpl.
  destruct errs; reflexivity.
Qed.

(* The checks in the order their errors are collected. *)
Lemma dynamicBlockErrors_eq (dynblock : Block) (body : Body) :
  dynamicBlockErrors dynblock body
  = (if bool_decide (length (BlockLabels dynblock) ≠ 1)
     then [labelCountError dynblock] else [])
    ++ unsupportedErrors (map_to_list (BodyAttributes body))
    ++ snd (foldl contentBlockStep (None, errors.L) (BodyBlocks body))
    ++ (if bool_decide (fst (getContentBlock (BodyBlocks body)) = None
                        /\ BodyAttributes body !! "attributes" = None)
        then [missingContentError body] else []).
Proof.
  unfold dynamicBlockErrors.
  pose proof (getDynamicBlockAttrs_fields body) as Hf.
  pose proof (getDynamicBlockAttrs_errs body) as He.
  pose proof (getContentBlock_errs (BodyBlocks body)) as Hc.
  destruct (getDynamicBlockAttrs body) as [attrs err].
  destruct (getContentBlock (BodyBlocks body)) as [cb cerr].
  simpl in Hf, He, Hc. subst attrs err cerr. cbn [attributes fst].
  rewrite !Append_AsError
    by first [apply unsupportedErrors_plain
             |apply contentBlockStep_plain; constructor].
  destruct (bool_decide (length (BlockLabels dynblock) ≠ 1));
    destruct (bool_decide _); simpl;
    rewrite <- ?app_assoc, ?app_nil_r; reflexivity.
Qed.

(** ** Scope filters *)

Lemma globSetsMatch_spec (sets : list (string * option (list Glob))) (dir : string) :
  globSetsMatch sets dir = true
  <-> forall n globs, In (n, globs) sets -> globSetSatisfied globs dir.
Proof.
  induction sets as [|[n globs] rest IH]; simpl.
  - split; [intros _ ? ? []|reflexivity].
  - assert (Hsat : forall gs, MatchAnyGlob gs dir = true
                              <-> globSetSatisfied (Some gs) dir).
    { intros gs. unfold MatchAnyGlob, globSetSatisfied. rewrite existsb_exists.
      split.
      - intros Hex gs' [= <-]. exact Hex.
      - intros Hs. now apply Hs. }
    destruct globs as [gs|].
    + destruct (MatchAnyGlob gs dir) eqn:Hm; simpl.
      * rewrite IH. split.
        -- intros Hrest n' g' [[= <- <-]|Hin]; [now apply Hsat|eauto].
        -- intros Hall n' g' Hin. eapply Hall. right. exact Hin.
      * split; [discriminate|]. intros Hall.
        rewrite <- Hm. apply Hsat. eapply Hall. left. reflexivity.
    + rewrite IH. split.
      * intros Hrest n' g' [[= <- <-]|Hin]; [intros gs [=]|eauto].
      * intros Hall n' g' Hin. eapply Hall. right. exact Hin.
Qed.

Lemma stackFilterMatched_spec (f : StackFilter) (dir : string) :
  stackFilterMatched f dir = true <-> filterMatches f dir.
Proof.
  unfold stackFilterMatched, filterMatches. rewrite globSetsMatch_spec. split.
  - intros H. split; eapply H; simpl; eauto.
  - intros [Hp Hr] n globs [[= <- <-]|[[= <- <-]|[]]]; assumption.
Qed.

Lemma matchedAny_fold (filters : list StackFilter) (dir : string) (init : bool) :
  foldl (fun matchedAny cond => matchedAny || stackFilterMatched cond dir) init filters
  = init || existsb (fun cond => stackFilterMatched cond dir) filters.
Proof.
  revert init. induction filters as [|f fs IH]; intros init; simpl.
  - now rewrite orb_false_r.
  - rewrite IH. now rewrite orb_assoc.
Qed.

Section LoadFacts.

Context {evaluatorImpl : Evaluator}.
Variable ValueAsStringList : Value -> outcome (list string).
Variable ValidIdentifier : string -> bool.
Variable AbsTraversalForExpr : Expr -> option (list string).
Variable letsLoad : gmap string Attribute -> Context -> outcome Context.
Variable EvalAssert : Context -> AssertConfig -> outcome Assert.
Variable vendorTargetDir : Path -> string -> Path.
Variable PrjAbsPath : string -> string -> string.
Variable Bytes : WBody -> string.
Variable FormatMultiline : string -> string -> outcome string.
Variable root : Root.
Variable st : Stack.
Variable evalctx : Context.
Variable vendorDir : Path.
Variable commentStyle : CommentStyle.

Abbreviation loop :=
  (loadBlocks ValueAsStringList ValidIdentifier AbsTraversalForExpr letsLoad
     EvalAssert vendorTargetDir PrjAbsPath Bytes FormatMultiline
     root st evalctx vendorDir commentStyle).

Abbreviation generate :=
  (generateContent ValueAsStringList ValidIdentifier AbsTraversalForExpr
     PrjAbsPath Bytes FormatMultiline root commentStyle).

(* The context a block is evaluated in before its lets are loaded: a copy
   of the stack's context with the vendor function registered. *)
Abbreviation blockCtx b :=
  (SetFunction "vendor"
     (VendorFunc (vendorTargetDir (StackDir st) (Label b)) vendorDir)
     (Copy evalctx)).

Abbreviation matched b :=
  (matchedAnyStackFilter (StackFilters b) (PathString (StackDir st))).

Abbreviation evalAssertsFrom ctx b :=
  (evalAsserts EvalAssert ctx (Asserts b) [] errors.L false).

(* One turn of the loop for a block that matches the stack and whose lets
   load: what remains are the four gates in the order of the code. *)
Lemma loop_matched (b : GenHCLBlock) (rest : list GenHCLBlock)
    (hcls : list HCL) (ctx : Context) :
  matched b = true ->
  letsLoad (Lets b) (blockCtx b) = Ret ctx ->
  loop (b :: rest) hcls
  = (condition <- evalCondition ctx (Condition b) ;;
     if negb condition then
       loop rest (hcls ++ [mkHCL commentStyle (Label b) (BlockRange b) ""
                             condition []])
     else
       inherit <- evalInherit ctx (Inherit b) ;;
       if negb inherit && negb (bool_decide (Dir b = StackDir st)) then
         loop rest hcls
       else
         '(asserts, assertsErrs, assertFailed) <- evalAssertsFrom ctx b ;;
         match errors.AsError assertsErrs with
         | Some err => Err err
         | None =>
             if assertFailed then
               loop rest (hcls ++ [mkHCL commentStyle (Label b) (BlockRange b)
                                     "" condition asserts])
             else
               generated <- generate b ctx condition asserts ;;
               loop rest (hcls ++ [generated])
         end).
Proof.
  intros Hm Hlets. cbn [loadBlocks]. rewrite Hm, Hlets. reflexivity.
Qed.

(** C9.  A block without scope filters matches every stack path; a block
    with filters matches exactly when one of its filters has all its
    non-nil glob-sets matched by some glob; and a block that does not match
    is no error: the loop records a non-applicable artifact (condition
    false, empty body) and goes on with the next block. *)
Theorem C9_scope_filter_match (filters : list StackFilter) (dir : string) :
  (matchedAnyStackFilter filters dir = true
   <-> filters = [] \/ exists f, In f filters /\ filterMatches f dir)
  /\ (forall b rest hcls,
        StackFilters b = filters -> dir = PathString (StackDir st) ->
        matchedAnyStackFilter filters dir = false ->
        loop (b :: rest) hcls
        = loop rest (hcls ++ [mkHCL commentStyle (Label b) (BlockRange b)
                                "" false []])).
Proof.
  split.
  - unfold matchedAnyStackFilter. rewrite matchedAny_fold.
    rewrite orb_true_iff, existsb_exists. split.
    + intros [Hnil|[f [Hin Hm]]].
      * left. apply bool_decide_eq_true in Hnil. now destruct filters.
      * right. exists f. split; [exact Hin|]. now apply stackFilterMatched_spec.
    + intros [->|[f [Hin Hm]]]; [now left|].
      right. exists f. split; [exact Hin|]. now apply stackFilterMatched_spec.
  - intros b rest hcls <- -> Hno. simpl. now rewrite Hno.
Qed.

(** ** Condition *)

Lemma evalCondition_bool (ctx : Context) (c : Attribute) (bv : bool) :
  Eval ctx (AttrExpr c) = Ret (BoolVal bv) ->
  evalCondition ctx (Some c) = Ret bv.
Proof. intros H. unfold evalCondition. now rewrite H. Qed.

Lemma evalCondition_holds (ctx : Context) (cond : option Attribute) :
  conditionHolds ctx cond -> evalCondition ctx cond = Ret true.
Proof. destruct cond as [c|]; simpl; [apply evalCondition_bool|reflexivity]. Qed.

Lemma IsBool_false (ty : ctyType) : ty <> TyBool -> cty.IsBool ty = false.
Proof. destruct ty; simpl; congruence. Qed.

(** C2.  Once the lets of a matching block are loaded: a condition that
    evaluates to false makes the loop record an artifact with condition
    false and an empty body and go on with the next block, whatever the
    content of the block is (the content is not looked at, so an invalid
    one cannot fail); a condition that evaluates to true is the same as no
    condition attribute; a value of another type ends the run with an
    error of kind "invalid condition type". *)
Theorem C2_condition_gate (b : GenHCLBlock) (rest : list GenHCLBlock)
    (hcls : list HCL) (ctx : Context) (c : Attribute) :
  matched b = true ->
  letsLoad (Lets b) (blockCtx b) = Ret ctx ->
  Condition b = Some c ->
  (Eval ctx (AttrExpr c) = Ret (BoolVal false) ->
   forall content,
     loop (withContent b content :: rest) hcls
     = loop rest (hcls ++ [mkHCL commentStyle (Label b) (BlockRange b)
                             "" false []]))
  /\ (Eval ctx (AttrExpr c) = Ret (BoolVal true) ->
      loop (b :: rest) hcls = loop (withCondition b None :: rest) hcls)
  /\ (forall v, Eval ctx (AttrExpr c) = Ret v -> cty.Type_ v <> TyBool ->
      loop (b :: rest) hcls
      = Err (E (Some ErrInvalidConditionType) NoRange
               (mkMsg "condition has type %s but must be boolean"
                      [ArgType (cty.Type_ v)]) None)).
Proof.
  intros Hm Hlets Hc. repeat split.
  - intros Hev content.
    rewrite (loop_matched (withContent b content) rest hcls ctx Hm Hlets).
    cbn [withContent Condition Label BlockRange]. rewrite Hc.
    now rewrite (evalCondition_bool _ _ _ Hev).
  - intros Hev.
    rewrite (loop_matched b rest hcls ctx Hm Hlets).
    rewrite (loop_matched (withCondition b None) rest hcls ctx Hm Hlets).
    rewrite Hc. now rewrite (evalCondition_bool _ _ _ Hev).
  - intros v Hev Hty. rewrite (loop_matched b rest hcls ctx Hm Hlets), Hc.
    unfold evalCondition. rewrite Hev. cbn [mapErr bind].
    now rewrite (IsBool_false _ Hty).
Qed.

(** ** Inherit *)

Lemma evalInherit_bool (ctx : Context) (i : Attribute) (bv : bool) :
  Eval ctx (AttrExpr i) = Ret (BoolVal bv) ->
  evalInherit ctx (Some i) = Ret bv.
Proof. intros H. unfold evalInherit. now rewrite H. Qed.

(** C3, as amended.  For a matching block whose lets load and whose
    condition is absent or true: an inherit attribute that evaluates to
    false drops the block without an artifact when it is declared in
    another directory than the stack's; for a block declared in the
    stack's own directory a boolean inherit is as good as none; a value of
    another type ends the run with an error of kind "invalid inherit
    type". *)
Theorem C3_inherit_gate (b : GenHCLBlock) (rest : list GenHCLBlock)
    (hcls : list HCL) (ctx : Context) (i : Attribute) :
  matched b = true ->
  letsLoad (Lets b) (blockCtx b) = Ret ctx ->
  conditionHolds ctx (Condition b) ->
  Inherit b = Some i ->
  (Eval ctx (AttrExpr i) = Ret (BoolVal false) -> Dir b <> StackDir st ->
   loop (b :: rest) hcls = loop rest hcls)
  /\ (forall inh, Eval ctx (AttrExpr i) = Ret (BoolVal inh) ->
      Dir b = StackDir st ->
      loop (b :: rest) hcls = loop (withInherit b None :: rest) hcls)
  /\ (forall v, Eval ctx (AttrExpr i) = Ret v -> cty.Type_ v <> TyBool ->
      loop (b :: rest) hcls
      = Err (E (Some ErrInvalidInheritType) NoRange
               (mkMsg (dquote +:+ "inherit" +:+ dquote
                       +:+ " has type %s but must be boolean")
                      [ArgType (cty.Type_ v)]) None)).
Proof.
  intros Hm Hlets Hcond Hi.
  apply evalCondition_holds in Hcond. repeat split.
  - intros Hev Hdir. rewrite (loop_matched b rest hcls ctx Hm Hlets).
    rewrite Hcond, Hi. cbn [bind negb].
    rewrite (evalInherit_bool _ _ _ Hev). cbn [bind negb andb].
    now rewrite bool_decide_eq_false_2.
  - intros inh Hev Hdir.
    rewrite (loop_matched b rest hcls ctx Hm Hlets).
    rewrite (loop_matched (withInherit b None) rest hcls ctx Hm Hlets).
    cbn [withInherit Condition Inherit Label BlockRange Dir Asserts].
    rewrite Hcond, Hi. cbn [bind negb].
    rewrite (evalInherit_bool _ _ _ Hev). cbn [bind evalInherit negb andb].
    rewrite (bool_decide_eq_true_2 _ Hdir). cbn [negb]. rewrite andb_false_r.
    reflexivity.
  - intros v Hev Hty. rewrite (loop_matched b rest hcls ctx Hm Hlets).
    rewrite Hcond, Hi. cbn [bind negb].
    unfold evalInherit. rewrite Hev. cbn [mapErr bind].
    now rewrite (IsBool_false _ Hty).
Qed.

(** ** Assertions *)

Lemma evalInherit_passes (ctx : Context) (b : GenHCLBlock) :
  inheritPasses ctx b (StackDir st) ->
  exists inh, evalInherit ctx (Inherit b) = Ret inh
              /\ negb inh && negb (bool_decide (Dir b = StackDir st)) = false.
Proof.
  unfold inheritPasses. destruct (Inherit b) as [i|].
  - intros [inh [Hev Hor]]. exists inh. split; [now apply evalInherit_bool|].
    destruct Hor as [->|Hdir]; [reflexivity|].
    rewrite (bool_decide_eq_true_2 _ Hdir). apply andb_false_r.
  - intros _. exists true. split; reflexivity.
Qed.

(* What the assertion loop computes when no evaluation panics: every
   assertion is evaluated, the failures leave their errors and a zero
   entry, the successes their value. *)
Lemma evalAsserts_spec (ctx : Context) (cfgs : list AssertConfig) :
  (forall cfg p, In cfg cfgs -> EvalAssert ctx cfg <> Panic p) ->
  forall asserts errs failed,
    evalAsserts EvalAssert ctx cfgs asserts errs failed
    = Ret (asserts ++ map (fun cfg => match EvalAssert ctx cfg with
                                      | Ret a => a
                                      | _ => zeroAssert
                                      end) cfgs,
           errs ++ assertErrors EvalAssert ctx cfgs,
           failed || existsb (fun cfg => match EvalAssert ctx cfg with
                                         | Ret a => failedAssert a
                                         | _ => false
                                         end) cfgs).
Proof.
  induction cfgs as [|cfg rest IH]; intros Hnp asserts errs failed; simpl.
  - now rewrite !app_nil_r, orb_false_r.
  - assert (Hrest : forall c p, In c rest -> EvalAssert ctx c <> Panic p)
      by (intros c p Hin; apply Hnp; now right).
    destruct (EvalAssert ctx cfg) as [a|e|p] eqn:Hev.
    + rewrite (IH Hrest). unfold failedAssert.
      now rewrite <- !app_assoc, orb_assoc.
    + rewrite (IH Hrest). unfold errors.Append.
      now rewrite <- !app_assoc.
    + exfalso. apply (Hnp cfg p); [now left|exact Hev].
Qed.

Lemma evalAsserts_all_ok (ctx : Context) (cfgs : list AssertConfig)
    (asserts : list Assert) :
  Forall2 (fun cfg a => EvalAssert ctx cfg = Ret a) cfgs asserts ->
  evalAsserts EvalAssert ctx cfgs [] errors.L false
  = Ret (asserts, [], existsb failedAssert asserts).
Proof.
  intros H. rewrite evalAsserts_spec.
  - induction H as [|cfg a cfgs asserts Hev _ IH]; [reflexivity|].
    simpl in *. rewrite Hev. injection IH as IH1 IH2 IH3.
    unfold errors.L in *. simpl. now rewrite IH1, IH2, IH3.
  - intros cfg p Hin Hp.
    induction H as [|c a cs asserts' Hev _ IH]; [destruct Hin|].
    destruct Hin as [->|Hin]; [congruence|now apply IH].
Qed.

(** C5.  For an applicable block (it matches, its lets load, its
    condition holds and the inherit gate lets it through): every declared
    assertion is evaluated, and the run fails with exactly the errors of
    all the assertions that do not evaluate when there is one; when all
    evaluate and one of them is neither passing nor a warning, the loop
    records an artifact with condition true, the evaluated assertions and
    an empty body, whatever the content is; otherwise (failed assertions
    are all warnings) the content is generated. *)
Theorem C5_assertions (b : GenHCLBlock) (rest : list GenHCLBlock)
    (hcls : list HCL) (ctx : Context) :
  matched b = true ->
  letsLoad (Lets b) (blockCtx b) = Ret ctx ->
  conditionHolds ctx (Condition b) ->
  inheritPasses ctx b (StackDir st) ->
  ((forall cfg p, In cfg (Asserts b) -> EvalAssert ctx cfg <> Panic p) ->
   assertErrors EvalAssert ctx (Asserts b) <> [] ->
   loop (b :: rest) hcls
   = Err (List_ (assertErrors EvalAssert ctx (Asserts b))))
  /\ (forall asserts,
        Forall2 (fun cfg a => EvalAssert ctx cfg = Ret a) (Asserts b) asserts ->
        (existsb failedAssert asserts = true ->
         forall content,
           loop (withContent b content :: rest) hcls
           = loop rest (hcls ++ [mkHCL commentStyle (Label b) (BlockRange b)
                                   "" true asserts]))
        /\ (existsb failedAssert asserts = false ->
            loop (b :: rest) hcls
            = (generated <- generate b ctx true asserts ;;
               loop rest (hcls ++ [generated])))).
Proof.
  intros Hm Hlets Hcond Hinh.
  apply evalCondition_holds in Hcond.
  destruct (evalInherit_passes _ _ Hinh) as [inh [Hev Hgate]].
  split.
  - intros Hnp Herrs. rewrite (loop_matched b rest hcls ctx Hm Hlets).
    rewrite Hcond. cbn [bind negb]. rewrite Hev. cbn [bind]. rewrite Hgate.
    rewrite (evalAsserts_spec _ _ Hnp). cbn [bind].
    unfold errors.L. cbn [app].
    destruct (assertErrors EvalAssert ctx (Asserts b)); [congruence|reflexivity].
  - intros asserts Hall. split.
    + intros Hfail content.
      rewrite (loop_matched (withContent b content) rest hcls ctx Hm Hlets).
      cbn [withContent Condition Inherit Label BlockRange Dir Asserts].
      rewrite Hcond. cbn [bind negb]. rewrite Hev. cbn [bind]. rewrite Hgate.
      rewrite (evalAsserts_all_ok _ _ _ Hall). cbn [bind errors.AsError].
      now rewrite Hfail.
    + intros Hpass. rewrite (loop_matched b rest hcls ctx Hm Hlets).
      rewrite Hcond. cbn [bind negb]. rewrite Hev. cbn [bind]. rewrite Hgate.
      rewrite (evalAsserts_all_ok _ _ _ Hall). cbn [bind errors.AsError].
      now rewrite Hpass.
Qed.

End LoadFacts.

(** ** The tm_dynamic expander *)

Section DynamicFacts.

Context {evaluatorImpl : Evaluator}.
Variable ValueAsStringList : Value -> outcome (list string).
Variable ValidIdentifier : string -> bool.
Variable AbsTraversalForExpr : Expr -> option (list string).

Abbreviation dynBlocks :=
  (appendDynamicBlocks ValueAsStringList ValidIdentifier AbsTraversalForExpr).
Abbreviation dynBlock :=
  (appendDynamicBlock ValueAsStringList ValidIdentifier AbsTraversalForExpr).
Abbreviation copier :=
  (copyBody ValueAsStringList ValidIdentifier AbsTraversalForExpr).
Abbreviation attrsOf body := (fst (getDynamicBlockAttrs body)).
Abbreviation contentOf body := (fst (getContentBlock (BodyBlocks body))).

(** C8.  The structural checks of a tm_dynamic block do not stop at the
    first violation: when there is any, the expander returns the list of
    all collected errors and leaves destination and evaluator untouched;
    the list holds the error of a label count other than one, one error
    for every unsupported attribute, one for every nested block that is
    not [content], one for every [content] block after the first, and the
    error of a block with neither [attributes] nor [content]. *)
Theorem C8_structural_errors_accumulate (target : WBody) (dynblock : Block)
    (evaluator : Context) (body : Body) :
  BlockBody dynblock = Some body ->
  let errs := dynamicBlockErrors dynblock body in
  (errs <> [] -> dynBlocks target dynblock evaluator
                 = (target, evaluator, Err (List_ errs)))
  /\ (length (BlockLabels dynblock) <> 1 -> In (labelCountError dynblock) errs)
  /\ (forall n a, BodyAttributes body !! n = Some a -> ~ supportedDynamicAttr n ->
                  In (unsupportedAttrError n a) errs)
  /\ (forall b, In b (BodyBlocks body) -> ~ isContent b ->
                In (unrecognizedBlockError b) errs)
  /\ (forall l1 b1 l2 b2 l3,
        BodyBlocks body = l1 ++ b1 :: l2 ++ b2 :: l3 ->
        isContent b1 -> isContent b2 -> In (duplicateContentError b2) errs)
  /\ (BodyAttributes body !! "attributes" = None ->
      (forall b, In b (BodyBlocks body) -> ~ isContent b) ->
      In (missingContentError body) errs).
Proof.
  intros Hbody errs. subst errs. repeat split.
  - intros Hne. unfold appendDynamicBlocks, appendDynamicBlocksWith.
    rewrite Hbody. destruct (dynamicBlockErrors dynblock body); [congruence|].
    reflexivity.
  - intros Hlen. rewrite dynamicBlockErrors_eq.
    rewrite (bool_decide_eq_true_2 _ Hlen). now left.
  - intros n a Hl Hns. rewrite dynamicBlockErrors_eq.
    apply in_or_app. right. apply in_or_app. left.
    now apply unsupportedErrors_In.
  - intros b Hin Hb. rewrite dynamicBlockErrors_eq.
    apply in_or_app. right. apply in_or_app. right. apply in_or_app. left.
    now apply contentBlockStep_unrecognized.
  - intros l1 b1 l2 b2 l3 Hsplit Hb1 Hb2. rewrite dynamicBlockErrors_eq.
    apply in_or_app. right. apply in_or_app. right. apply in_or_app. left.
    rewrite Hsplit.
    replace (l1 ++ b1 :: l2 ++ b2 :: l3) with ((l1 ++ b1 :: l2) ++ b2 :: l3)
      by now rewrite <- app_assoc.
    apply contentBlockStep_duplicate; [exact Hb2|].
    right. exists b1. split; [apply in_or_app; right; now left|exact Hb1].
  - intros Hattrs Hnone. rewrite dynamicBlockErrors_eq.
    rewrite (getContentBlock_none _ Hnone).
    rewrite (bool_decide_eq_true_2
               (None = None /\ BodyAttributes body !! "attributes" = None))
      by (split; [reflexivity|exact Hattrs]).
    apply in_or_app. right. apply in_or_app. right. apply in_or_app. right.
    now left.
Qed.

(** ** One expansion *)

Lemma setBodyAttributes_valid (tmAttrs : list tmAttribute) :
  Forall (fun t => ValidIdentifier (name t) = true) tmAttrs ->
  forall body, snd (setBodyAttributes ValidIdentifier body tmAttrs) = Ret tt.
Proof.
  induction 1 as [|t l Ht _ IH]; intros body; simpl; [reflexivity|].
  rewrite Ht. simpl. apply IH.
Qed.

Lemma conflictingAttribute_found (names : gset string)
    (contentAttrs : gmap string Attribute) :
  (exists k c, contentAttrs !! k = Some c /\ Name c ∈ names) ->
  exists k c, contentAttrs !! k = Some c /\ Name c ∈ names
              /\ conflictingAttribute names contentAttrs = Some c.
Proof.
  intros [k [c [Hl Hin]]]. unfold conflictingAttribute.
  destruct (List.find _ _) as [c'|] eqn:Hf.
  - apply find_some in Hf as [Hin' Hp].
    apply list_elem_of_In, list_elem_of_fmap in Hin' as [[k' c''] [-> Hin']].
    apply elem_of_map_to_list in Hin'. apply bool_decide_eq_true in Hp.
    exists k', c''. auto.
  - exfalso. assert (Hc : In c (map_to_list contentAttrs).*2).
    { apply list_elem_of_In, list_elem_of_fmap. exists (k, c).
      split; [reflexivity|]. now apply elem_of_map_to_list. }
    pose proof (find_none _ _ Hf c Hc) as Hfalse. simpl in Hfalse.
    rewrite (bool_decide_eq_true_2 _ Hin) in Hfalse. discriminate.
Qed.

Lemma setBodyAttributes_invalid (pre post : list tmAttribute) (bad : tmAttribute) :
  Forall (fun t => ValidIdentifier (name t) = true) pre ->
  ValidIdentifier (name bad) = false ->
  forall wbody,
    setBodyAttributes ValidIdentifier wbody (pre ++ bad :: post)
    = (fst (setBodyAttributes ValidIdentifier wbody pre),
       Err (E (Some ErrParsing) (AtRange (info bad))
              (mkMsg "tm_dynamic.attributes key %q is not a valid HCL identifier"
                     [ArgString (name bad)]) None)).
Proof.
  intros Hpre Hbad. induction Hpre as [|t pre Ht _ IH]; intros wbody.
  - simpl. now rewrite Hbad.
  - cbn [app setBodyAttributes]. rewrite Ht. cbn [negb]. apply IH.
Qed.

(** C4.  In an expansion with both [attributes] and a [content] block,
    once the labels and the attributes have been evaluated: when every
    key of [attributes] is a valid identifier, so that all of them are
    set, and an attribute of the content block has a name that
    [attributes] has set, the expansion fails with the conflict error at
    the range of such a content attribute (of the first one Go's map
    iteration reaches), and the content is not copied; nothing here
    depends on the values of the two attributes.  When a key is not a
    valid identifier the expansion fails at the first such key with a
    parsing error instead, with the keys before it set, whether or not a
    name collides. *)
Theorem C4_attributes_content_conflict (destination : WBody)
    (evaluator : Context) (genBlockType : string)
    (attrs : dynBlockAttributes) (contentBlock : Block) (cbody : Body)
    (a : Attribute) (lbls : list string) (tmAttrs : list tmAttribute) :
  attributes attrs = Some a ->
  BlockBody contentBlock = Some cbody ->
  dynamicLabels ValueAsStringList evaluator attrs = Ret lbls ->
  tmAttributes evaluator a = Ret tmAttrs ->
  (Forall (fun t => ValidIdentifier (name t) = true) tmAttrs ->
   (exists k c, BodyAttributes cbody !! k = Some c
                /\ In (Name c) (name <$> tmAttrs)) ->
   exists k c,
     BodyAttributes cbody !! k = Some c
     /\ In (Name c) (name <$> tmAttrs)
     /\ dynBlock destination evaluator genBlockType attrs (Some contentBlock)
        = (destination
             ++ [WBlock genBlockType lbls
                   (fst (setBodyAttributes ValidIdentifier [] tmAttrs))],
           evaluator,
           Err (E (Some ErrDynamicAttrsConflict) (AtRange (AttrRange c))
                  (mkMsg "attribute %s already set by tm_dynamic.attributes"
                         [ArgString (Name c)]) None)))
  /\ (forall pre bad post,
        tmAttrs = pre ++ bad :: post ->
        Forall (fun t => ValidIdentifier (name t) = true) pre ->
        ValidIdentifier (name bad) = false ->
        dynBlock destination evaluator genBlockType attrs (Some contentBlock)
        = (destination
             ++ [WBlock genBlockType lbls
                   (fst (setBodyAttributes ValidIdentifier [] pre))],
           evaluator,
           Err (E (Some ErrParsing) (AtRange (info bad))
                  (mkMsg "tm_dynamic.attributes key %q is not a valid HCL identifier"
                         [ArgString (name bad)]) None))).
Proof.
  intros Ha Hcb Hlabels Htm. split.
  - intros Hvalid [k [c [Hl Hin]]].
    destruct (conflictingAttribute_found (list_to_set (name <$> tmAttrs))
                (BodyAttributes cbody)) as [k' [c' [Hl' [Hin' Hfind]]]].
    { exists k, c. split; [exact Hl|].
      apply elem_of_list_to_set. now apply list_elem_of_In. }
    exists k', c'. split; [exact Hl'|]. split.
    { apply list_elem_of_In. now apply elem_of_list_to_set in Hin'. }
    unfold appendDynamicBlock, appendDynamicBlockWith. rewrite Hlabels.
    unfold fillDynamicBlock. rewrite Ha, Htm.
    pose proof (setBodyAttributes_valid tmAttrs Hvalid []) as Hset.
    destruct (setBodyAttributes ValidIdentifier [] tmAttrs) as [nb s].
    simpl in Hset. subst s. cbn [fst]. rewrite Hcb, Hfind. reflexivity.
  - intros pre bad post -> Hpre Hbad.
    unfold appendDynamicBlock, appendDynamicBlockWith. rewrite Hlabels.
    unfold fillDynamicBlock. rewrite Ha, Htm.
    rewrite (setBodyAttributes_invalid pre post bad Hpre Hbad []).
    reflexivity.
Qed.

(** ** After the structural checks *)

Lemma dynamicCondition_holds (evaluator : Context) (body : Body) :
  guardHolds evaluator body ->
  dynamicCondition evaluator (attrsOf body) = Ret true.
Proof.
  unfold guardHolds, dynamicCondition. rewrite getDynamicBlockAttrs_fields.
  cbn [condition]. destruct (BodyAttributes body !! "condition") as [c|];
    simpl; [|reflexivity].
  intros ->. reflexivity.
Qed.

Lemma iteratorName_loopVariable (body : Body) (ty it : string) :
  loopVariable AbsTraversalForExpr body ty it ->
  iteratorName AbsTraversalForExpr ty (attrsOf body) = Ret it.
Proof.
  unfold loopVariable, iteratorName. rewrite getDynamicBlockAttrs_fields.
  cbn [iterator]. destruct (BodyAttributes body !! "iterator") as [i|].
  - intros ->. reflexivity.
  - intros ->. reflexivity.
Qed.

(* A well-formed block whose guard holds: what is left of
   appendDynamicBlocks is the evaluation of for_each and the expansion. *)
Lemma dynBlocks_guarded (target : WBody) (dynblock : Block)
    (evaluator : Context) (body : Body) (ty : string) :
  wellFormedDynamic dynblock body ty ->
  guardHolds evaluator body ->
  dynBlocks target dynblock evaluator
  = match foreachValue evaluator (attrsOf body) with
    | Err e => (target, evaluator, Err e)
    | Panic p => (target, evaluator, Panic p)
    | Ret foreach =>
        if cty.IsNull foreach then
          match BodyAttributes body !! "iterator" with
          | Some it =>
              (target, evaluator,
               Err (E (Some ErrInvalidDynamicIterator) (AtRange (AttrRange it))
                      (msg "iterator should not be defined when for_each is omitted")
                      None))
          | None => dynBlock target evaluator ty (attrsOf body) (contentOf body)
          end
        else
          match iteratorName AbsTraversalForExpr ty (attrsOf body) with
          | Err e => (target, evaluator, Err e)
          | Panic p => (target, evaluator, Panic p)
          | Ret iterator =>
              let '(target, evaluator, tmDynamicErr) :=
                ForEachElement (cty.ElementIterator foreach)
                  (expandElement ValueAsStringList ValidIdentifier copier
                     iterator ty (attrsOf body) (contentOf body))
                  (target, evaluator, nil_) in
              match tmDynamicErr with
              | Panic p => (target, evaluator, Panic p)
              | _ => (target, DeleteNamespace iterator evaluator, tmDynamicErr)
              end
          end
    end.
Proof.
  intros [Hbody [Hlabels Herrs]] Hguard.
  unfold appendDynamicBlocks, appendDynamicBlocksWith.
  rewrite Hbody, Herrs, Hlabels. cbn [errors.AsError].
  rewrite (dynamicCondition_holds _ _ Hguard).
  replace (iterator (attrsOf body)) with (BodyAttributes body !! "iterator")
    by now rewrite getDynamicBlockAttrs_fields.
  reflexivity.
Qed.

Lemma foreachValue_absent (evaluator : Context) (body : Body) :
  BodyAttributes body !! "for_each" = None ->
  foreachValue evaluator (attrsOf body) = Ret NilVal.
Proof.
  intros H. unfold foreachValue. rewrite getDynamicBlockAttrs_fields.
  cbn [foreach]. now rewrite H.
Qed.

Lemma foreachValue_iterable (evaluator : Context) (body : Body)
    (fe : Attribute) (v : Value) :
  BodyAttributes body !! "for_each" = Some fe ->
  Eval evaluator (AttrExpr fe) = Ret v ->
  cty.CanIterateElements v = true ->
  foreachValue evaluator (attrsOf body) = Ret v.
Proof.
  intros H Hev Hit. unfold foreachValue. rewrite getDynamicBlockAttrs_fields.
  cbn [foreach]. rewrite H, Hev. cbn [mapErr bind]. now rewrite Hit.
Qed.

(** C7, as amended.  For a well-formed tm_dynamic block without for_each
    whose guard is absent or true: an iterator attribute is the error of
    kind "invalid tm_dynamic.iterator"; without one the expander is one
    call of appendDynamicBlock on the destination with the evaluator as it
    stands, no namespace having been set. *)
Theorem C7_without_for_each (target : WBody) (dynblock : Block)
    (evaluator : Context) (body : Body) (ty : string) :
  wellFormedDynamic dynblock body ty ->
  guardHolds evaluator body ->
  BodyAttributes body !! "for_each" = None ->
  (forall it, BodyAttributes body !! "iterator" = Some it ->
     dynBlocks target dynblock evaluator
     = (target, evaluator,
        Err (E (Some ErrInvalidDynamicIterator) (AtRange (AttrRange it))
               (msg "iterator should not be defined when for_each is omitted")
               None)))
  /\ (BodyAttributes body !! "iterator" = None ->
      dynBlocks target dynblock evaluator
      = dynBlock target evaluator ty (attrsOf body) (contentOf body)).
Proof.
  intros Hwf Hguard Hfe.
  rewrite (dynBlocks_guarded _ _ _ _ _ Hwf Hguard).
  rewrite (foreachValue_absent _ _ Hfe). cbn [cty.IsNull].
  split; [intros it ->|intros ->]; reflexivity.
Qed.

(** C10.  A for_each that is present and evaluates to a null value of a
    collection type passes the iterability check, which looks at the type
    only, and is then treated as an omitted for_each: with an iterator
    attribute the error is "iterator should not be defined when for_each
    is omitted", without one there is a single expansion in the evaluator
    as it stands. *)
Theorem C10_null_for_each (target : WBody) (dynblock : Block)
    (evaluator : Context) (body : Body) (ty : string)
    (fe : Attribute) (v : Value) :
  wellFormedDynamic dynblock body ty ->
  guardHolds evaluator body ->
  BodyAttributes body !! "for_each" = Some fe ->
  Eval evaluator (AttrExpr fe) = Ret v ->
  cty.IsNull v = true ->
  cty.CanIterateElements v = true ->
  (forall it, BodyAttributes body !! "iterator" = Some it ->
     dynBlocks target dynblock evaluator
     = (target, evaluator,
        Err (E (Some ErrInvalidDynamicIterator) (AtRange (AttrRange it))
               (msg "iterator should not be defined when for_each is omitted")
               None)))
  /\ (BodyAttributes body !! "iterator" = None ->
      dynBlocks target dynblock evaluator
      = dynBlock target evaluator ty (attrsOf body) (contentOf body)).
Proof.
  intros Hwf Hguard Hfe Hev Hnull Hit.
  rewrite (dynBlocks_guarded _ _ _ _ _ Hwf Hguard).
  rewrite (foreachValue_iterable _ _ _ _ Hfe Hev Hit). rewrite Hnull.
  split; [intros it ->|intros ->]; reflexivity.
Qed.

(** ** The loop *)

Lemma dynBlocks_iterating (target : WBody) (dynblock : Block)
    (evaluator : Context) (body : Body) (ty it : string)
    (fe : Attribute) (v : Value) :
  wellFormedDynamic dynblock body ty ->
  guardHolds evaluator body ->
  BodyAttributes body !! "for_each" = Some fe ->
  Eval evaluator (AttrExpr fe) = Ret v ->
  cty.CanIterateElements v = true ->
  cty.IsNull v = false ->
  loopVariable AbsTraversalForExpr body ty it ->
  dynBlocks target dynblock evaluator
  = let '(target, evaluator, tmDynamicErr) :=
      ForEachElement (cty.ElementIterator v)
        (expandElement ValueAsStringList ValidIdentifier copier
           it ty (attrsOf body) (contentOf body))
        (target, evaluator, nil_) in
    match tmDynamicErr with
    | Panic p => (target, evaluator, Panic p)
    | _ => (target, DeleteNamespace it evaluator, tmDynamicErr)
    end.
Proof.
  intros Hwf Hguard Hfe Hev Hit Hnull Hvar.
  rewrite (dynBlocks_guarded _ _ _ _ _ Hwf Hguard).
  rewrite (foreachValue_iterable _ _ _ _ Hfe Hev Hit). rewrite Hnull.
  now rewrite (iteratorName_loopVariable _ _ _ Hvar).
Qed.

(** C6.  When a tm_dynamic block iterates, the context it leaves behind
    has no binding under the loop-variable name, whether every expansion
    succeeded or one of them returned an error: what is evaluated next
    finds no iterator namespace. *)
Theorem C6_loop_namespace_removed (target : WBody) (dynblock : Block)
    (evaluator : Context) (body : Body) (ty it : string)
    (fe : Attribute) (v : Value) :
  wellFormedDynamic dynblock body ty ->
  guardHolds evaluator body ->
  BodyAttributes body !! "for_each" = Some fe ->
  Eval evaluator (AttrExpr fe) = Ret v ->
  cty.CanIterateElements v = true ->
  cty.IsNull v = false ->
  loopVariable AbsTraversalForExpr body ty it ->
  forall target' evaluator' st,
    dynBlocks target dynblock evaluator = (target', evaluator', st) ->
    (st = Ret tt \/ exists e, st = Err e) ->
    Variables evaluator' !! it = None /\ HasNamespace it evaluator' = false.
Proof.
  intros Hwf Hguard Hfe Hev Hit Hnull Hvar target' evaluator' st Hrun Hst.
  rewrite (dynBlocks_iterating _ _ _ _ _ _ _ _ Hwf Hguard Hfe Hev Hit Hnull Hvar)
    in Hrun.
  destruct (ForEachElement _ _ _) as [[t e] s].
  assert (Hdel : evaluator' = DeleteNamespace it e).
  { destruct s as [u|err|p]; [congruence|congruence|].
    injection Hrun as _ _ Hp. destruct Hst as [Hst|[err Hst]]; congruence. }
  subst evaluator'. unfold HasNamespace, DeleteNamespace. cbn [Variables].
  rewrite lookup_delete_eq. split; [reflexivity|].
  apply bool_decide_eq_false_2. intros [x Hx]. discriminate.
Qed.

(* appendDynamicBlock only adds to the end of the destination. *)
Lemma dynBlock_frame (destination : WBody) (evaluator : Context)
    (ty : string) (attrs : dynBlockAttributes) (contentBlock : option Block) :
  dynBlock destination evaluator ty attrs contentBlock
  = let '(added, evaluator', st) := dynBlock [] evaluator ty attrs contentBlock in
    (destination ++ added, evaluator', st).
Proof.
  unfold appendDynamicBlock, appendDynamicBlockWith.
  destruct (dynamicLabels _ _ _); try now rewrite app_nil_r.
  now destruct (fillDynamicBlock _ _ _ _ _) as [[nb e] st].
Qed.

Lemma dynBlock_one (evaluator : Context) (ty : string)
    (attrs : dynBlockAttributes) (contentBlock : option Block)
    (added : WBody) (evaluator' : Context) :
  dynBlock [] evaluator ty attrs contentBlock = (added, evaluator', Ret tt) ->
  exists blk, added = [blk].
Proof.
  unfold appendDynamicBlock, appendDynamicBlockWith.
  destruct (dynamicLabels _ _ _); try discriminate.
  destruct (fillDynamicBlock _ _ _ _ _) as [[nb e] st].
  intros [= <- _ _]. eauto.
Qed.

Abbreviation expansionOf it ty body :=
  (expansion ValueAsStringList ValidIdentifier AbsTraversalForExpr
     it ty (attrsOf body) (contentOf body)).
Abbreviation failedExpansionOf it ty body :=
  (failedExpansion ValueAsStringList ValidIdentifier AbsTraversalForExpr
     it ty (attrsOf body) (contentOf body)).

(* The loop, element by element: either every element has had its
   expansion, each adding one block, or the expansions stopped at the
   first one that did not succeed. *)
Lemma ForEachElement_trace (it ty : string) (body : Body)
    (elems : list (Value * Value)) :
  forall target evaluator target' evaluator' st,
    ForEachElement elems
      (expandElement ValueAsStringList ValidIdentifier copier
         it ty (attrsOf body) (contentOf body))
      (target, evaluator, nil_) = (target', evaluator', st) ->
    (st = Ret tt
     /\ exists blks, target' = target ++ blks
                     /\ Forall2 (expansionOf it ty body) elems blks)
    \/ (exists done kv rest blks partial,
          elems = done ++ kv :: rest
          /\ Forall2 (expansionOf it ty body) done blks
          /\ failedExpansionOf it ty body kv partial st
          /\ target' = target ++ blks ++ partial).
Proof.
  induction elems as [|[k v] rest IH];
    intros target evaluator target' evaluator' st Hrun.
  - simpl in Hrun. injection Hrun as <- <- <-. left. split; [reflexivity|].
    exists []. split; [now rewrite app_nil_r|constructor].
  - cbn [ForEachElement] in Hrun. unfold expandElement at 1 in Hrun.
    set (ev1 := SetNamespace it [("key", k); ("value", v)] evaluator) in *.
    assert (Hbound : boundTo it (k, v) ev1).
    { unfold boundTo, ev1, SetNamespace. cbn [Variables fst snd].
      apply lookup_insert_eq. }
    fold (dynBlock target ev1 ty (attrsOf body) (contentOf body)) in Hrun.
    rewrite dynBlock_frame in Hrun.
    destruct (dynBlock [] ev1 ty (attrsOf body) (contentOf body))
      as [[added e1] s1] eqn:Hone.
    destruct s1 as [[]|err|p].
    + destruct (dynBlock_one _ _ _ _ _ _ Hone) as [blk ->].
      destruct (IH _ _ _ _ _ Hrun) as [[-> [blks [-> Hall]]]|Hfail].
      * left. split; [reflexivity|]. exists (blk :: blks).
        split; [now rewrite <- List.app_assoc|].
        constructor; [|exact Hall]. exists ev1, e1. split; assumption.
      * right.
        destruct Hfail as [done [kv [rest' [blks [partial [-> [Hall [Hf ->]]]]]]]].
        exists ((k, v) :: done), kv, rest', (blk :: blks), partial.
        split; [reflexivity|]. split; [|split; [exact Hf|]].
        -- constructor; [|exact Hall]. exists ev1, e1. split; assumption.
        -- now rewrite <- !List.app_assoc.
    + injection Hrun as <- <- <-. right.
      exists [], (k, v), rest, [], added.
      split; [reflexivity|]. split; [constructor|]. split; [|reflexivity].
      split; [discriminate|]. exists ev1, e1. split; assumption.
    + injection Hrun as <- <- <-. right.
      exists [], (k, v), rest, [], added.
      split; [reflexivity|]. split; [constructor|]. split; [|reflexivity].
      split; [discriminate|]. exists ev1, e1. split; assumption.
Qed.

(** C1.  A tm_dynamic block that passes the structural checks, whose
    guard is absent or true, whose for_each evaluates to a collection (not
    null) and whose iterator is absent or a single variable name, runs one
    expansion per key/value pair of the collection, in iteration order,
    each in a context binding the loop variable to the object {key,
    value}.  If all succeed, exactly as many blocks as the collection has
    elements are added to the destination, the i-th by the expansion of
    the i-th pair, and no error is returned.  Otherwise the expansions
    stop at the first one that fails, its error is returned, and nothing
    is added for the pairs after it ([runsExpansions]).  If the guard
    evaluates to false, nothing is added and no error is returned.  If the
    iterator is not a single variable name, no expansion is run whatever
    the size of the collection: nothing is added and the error of kind
    "invalid tm_dynamic.iterator" is returned. *)
Theorem C1_for_each_expansion (target : WBody) (dynblock : Block)
    (evaluator : Context) (body : Body) (ty : string) :
  wellFormedDynamic dynblock body ty ->
  (forall fe v it,
     guardHolds evaluator body ->
     BodyAttributes body !! "for_each" = Some fe ->
     Eval evaluator (AttrExpr fe) = Ret v ->
     cty.CanIterateElements v = true ->
     cty.IsNull v = false ->
     loopVariable AbsTraversalForExpr body ty it ->
     exists target' evaluator' st,
       dynBlocks target dynblock evaluator = (target', evaluator', st)
       /\ runsExpansions ValueAsStringList ValidIdentifier AbsTraversalForExpr
            it ty (attrsOf body) (contentOf body)
            (cty.ElementIterator v) target target' st)
  /\ (forall c,
        BodyAttributes body !! "condition" = Some c ->
        Eval evaluator (AttrExpr c) = Ret (BoolVal false) ->
        dynBlocks target dynblock evaluator = (target, evaluator, Ret tt))
  /\ (forall fe v i,
        guardHolds evaluator body ->
        BodyAttributes body !! "for_each" = Some fe ->
        Eval evaluator (AttrExpr fe) = Ret v ->
        cty.CanIterateElements v = true ->
        cty.IsNull v = false ->
        BodyAttributes body !! "iterator" = Some i ->
        (forall steps, AbsTraversalForExpr (AttrExpr i) = Some steps ->
                       length steps <> 1) ->
        dynBlocks target dynblock evaluator
        = (target, evaluator,
           Err (E (Some ErrInvalidDynamicIterator) (AtRange (AttrRange i))
                  (msg "dynamic iterator must be a single variable name")
                  None))).
Proof.
  intros Hwf. split; [|split].
  - intros fe v it Hguard Hfe Hev Hit Hnull Hvar.
    rewrite (dynBlocks_iterating _ _ _ _ _ _ _ _ Hwf Hguard Hfe Hev Hit Hnull Hvar).
    destruct (ForEachElement _ _ _) as [[t e] s] eqn:Hrun.
    destruct (ForEachElement_trace _ _ _ _ _ _ _ _ _ Hrun)
      as [[-> [blks [-> Hall]]]|Hfail].
    + exists (target ++ blks), (DeleteNamespace it e), (Ret tt).
      split; [reflexivity|]. left. split; [reflexivity|].
      exists blks. repeat split; [|exact Hall].
      symmetry. exact (Forall2_length _ _ _ Hall).
    + destruct s as [u|err|p].
      * destruct Hfail as [? [? [? [? [? [_ [_ [[Hne _] _]]]]]]]].
        destruct u. congruence.
      * exists t, (DeleteNamespace it e), (Err err).
        split; [reflexivity|]. right. exact Hfail.
      * exists t, e, (Panic p). split; [reflexivity|]. right. exact Hfail.
  - intros c Hc Hev. destruct Hwf as [Hbody [Hlabels Herrs]].
    unfold appendDynamicBlocks, appendDynamicBlocksWith.
    rewrite Hbody, Herrs, Hlabels. cbn [errors.AsError].
    unfold dynamicCondition. rewrite getDynamicBlockAttrs_fields.
    cbn [condition]. rewrite Hc, Hev. reflexivity.
  - intros fe v i Hguard Hfe Hev Hit Hnull Hi Hbad.
    rewrite (dynBlocks_guarded _ _ _ _ _ Hwf Hguard).
    rewrite (foreachValue_iterable _ _ _ _ Hfe Hev Hit). rewrite Hnull.
    unfold iteratorName. rewrite getDynamicBlockAttrs_fields. cbn [iterator].
    rewrite Hi.
    destruct (AbsTraversalForExpr (AttrExpr i)) as [steps|] eqn:Ht;
      [|reflexivity].
    specialize (Hbad steps eq_refl).
    destruct steps as [|x [|x' rest]]; try reflexivity. now elim Hbad.
Qed.

End DynamicFacts.

(** ** The properties on concrete trees *)

(* for_each over {a = 1, b = 2} with content { value = b.value }: two blocks,
   one per key in key order, and no binding of b left behind. *)
Example for_each_over_map :
  Toy.dyn [] (Toy.dynForEach Toy.numbers) Toy.emptyCtx
  = ([WBlock "b" []
        [WAttribute "value"
           (TokensForExpression (LiteralValueExpr (NumberIntVal 1) Toy.r0))];
      WBlock "b" []
        [WAttribute "value"
           (TokensForExpression (LiteralValueExpr (NumberIntVal 2) Toy.r0))]],
     Toy.emptyCtx, Ret tt).
Proof. vm_compute. reflexivity. Qed.

(* A reference into a namespace that is not bound is copied as it is. *)
Example unknown_namespace_preserved :
  Toy.copy [] Toy.contentLiteralBody Toy.emptyCtx
  = ([WAttribute "value" (TokensForExpression (Toy.lit (NumberIntVal 1)))],
     Toy.emptyCtx, Ret tt)
  /\ Toy.copy [] (Toy.bodyOf [] [Toy.dynPlain]) Toy.emptyCtx
     = ([WBlock "b" []
           [WAttribute "value"
              (TokensForExpression (ScopeTraversalExpr ["b"; "value"] Toy.r0))]],
        Toy.emptyCtx, Ret tt).
Proof. split; vm_compute; reflexivity. Qed.

(* The first expansion fails: its block stays in the destination, the error
   is returned and the loop variable is gone. *)
Example failing_expansion_stops :
  exists err,
    Toy.dyn [] Toy.dynFailing Toy.emptyCtx
    = ([WBlock "b" [] []], Toy.emptyCtx, Err err).
Proof. vm_compute. eauto. Qed.

(* for_each = {a = 1, b = 2}, no guard, iterator = x.y: the collection has
   two elements and the guard is absent, and no block is appended. *)
Lemma C1_counterexample :
  BodyAttributes Cases.longIteratorBody !! "condition" = None
  /\ BodyAttributes Cases.longIteratorBody !! "for_each" = Some Cases.numbersForEach
  /\ Eval (Evaluator := Toy.toyEvaluator) Toy.emptyCtx
       (AttrExpr Cases.numbersForEach) = Ret Toy.numbers
  /\ cty.CanIterateElements Toy.numbers = true
  /\ cty.LengthInt Toy.numbers = 2
  /\ Toy.dyn [] (Cases.dynOf Cases.longIteratorBody) Toy.emptyCtx
     = ([], Toy.emptyCtx,
        Err (E (Some ErrInvalidDynamicIterator) (AtRange (Toy.at_ 2))
               (msg "dynamic iterator must be a single variable name") None)).
Proof. repeat split; vm_compute; reflexivity. Qed.

Lemma C1_for_each_expansion_witness :
  wellFormedDynamic (Toy.dynForEach Toy.numbers) (Toy.forEachBody Toy.numbers) "b"
  /\ (exists target' evaluator' st,
        Toy.dyn [] (Toy.dynForEach Toy.numbers) Toy.emptyCtx
        = (target', evaluator', st)
        /\ runsExpansions (H := Toy.toyEvaluator)
             Toy.toyStringList Toy.toyValidIdentifier Toy.toyTraversal "b" "b"
             (fst (getDynamicBlockAttrs (Toy.forEachBody Toy.numbers)))
             (fst (getContentBlock (BodyBlocks (Toy.forEachBody Toy.numbers))))
             (cty.ElementIterator Toy.numbers) [] target' st)
  /\ Toy.dyn [] Toy.dynGuarded Toy.emptyCtx = ([], Toy.emptyCtx, Ret tt)
  /\ Toy.dyn [] (Cases.dynOf Cases.longIteratorBody) Toy.emptyCtx
     = ([], Toy.emptyCtx,
        Err (E (Some ErrInvalidDynamicIterator) (AtRange (Toy.at_ 2))
               (msg "dynamic iterator must be a single variable name") None)).
Proof.
  assert (Hwf : wellFormedDynamic (Toy.dynForEach Toy.numbers)
                  (Toy.forEachBody Toy.numbers) "b")
    by (split; [reflexivity|split; [reflexivity|vm_compute; reflexivity]]).
  split; [exact Hwf|]. split; [|split].
  - apply (proj1 (C1_for_each_expansion (evaluatorImpl := Toy.toyEvaluator)
                    Toy.toyStringList Toy.toyValidIdentifier Toy.toyTraversal
                    [] (Toy.dynForEach Toy.numbers) Toy.emptyCtx
                    (Toy.forEachBody Toy.numbers) "b" Hwf)
             (Toy.attr "for_each" (Toy.lit Toy.numbers) 1) Toy.numbers "b").
    + vm_compute. exact I.
    + vm_compute. reflexivity.
    + reflexivity.
    + reflexivity.
    + reflexivity.
    + vm_compute. reflexivity.
  - apply (proj1 (proj2 (C1_for_each_expansion (evaluatorImpl := Toy.toyEvaluator)
                    Toy.toyStringList Toy.toyValidIdentifier Toy.toyTraversal
                    [] Toy.dynGuarded Toy.emptyCtx Toy.guardedBody "b"
                    ltac:(split; [reflexivity|split; [reflexivity|vm_compute; reflexivity]])))
             (Toy.falseAttr "condition" 3)).
    + vm_compute. reflexivity.
    + reflexivity.
  - apply (proj2 (proj2 (C1_for_each_expansion (evaluatorImpl := Toy.toyEvaluator)
                    Toy.toyStringList Toy.toyValidIdentifier Toy.toyTraversal
                    [] (Cases.dynOf Cases.longIteratorBody) Toy.emptyCtx
                    Cases.longIteratorBody "b"
                    ltac:(split; [reflexivity|split; [reflexivity|vm_compute; reflexivity]])))
             Cases.numbersForEach Toy.numbers Cases.longIterator).
    + vm_compute. exact I.
    + vm_compute. reflexivity.
    + reflexivity.
    + reflexivity.
    + reflexivity.
    + vm_compute. reflexivity.
    + intros steps Hs. vm_compute in Hs. injection Hs as <-. simpl. lia.
Defined.

Lemma C2_condition_gate_witness :
  Condition Toy.conditionFalseBlock = Some (Toy.falseAttr "condition" 1)
  /\ (exists t e err, Toy.copy [] Toy.invalidContent Toy.emptyCtx = (t, e, Err err))
  /\ Toy.loop (Toy.rootWith Toy.conditionFalseBlock) Toy.stack Toy.emptyCtx []
       SlashComment [withContent Toy.conditionFalseBlock Toy.invalidContent] []
     = Ret [mkHCL SlashComment "backend.tf" Toy.r0 "" false []].
Proof.
  split; [reflexivity|]. split.
  - vm_compute. eauto.
  - exact (proj1 (C2_condition_gate (evaluatorImpl := Toy.toyEvaluator)
                    Toy.toyStringList Toy.toyValidIdentifier Toy.toyTraversal
                    Toy.toyLets Toy.toyEvalAssert Toy.toyVendorTarget
                    Toy.toyPrjAbsPath Toy.toyBytes Toy.toyFormat
                    (Toy.rootWith Toy.conditionFalseBlock) Toy.stack Toy.emptyCtx []
                    SlashComment Toy.conditionFalseBlock [] [] _
                    (Toy.falseAttr "condition" 1)
                    eq_refl eq_refl eq_refl)
             eq_refl Toy.invalidContent).
Defined.

(* A block declared in the parent directory with condition = false and
   inherit = false: generating for the child stack yields an artifact. *)
Lemma C3_counterexample :
  Eval (Evaluator := Toy.toyEvaluator) Toy.emptyCtx
    (AttrExpr (Toy.falseAttr "inherit" 2)) = Ret (BoolVal false)
  /\ Inherit Toy.disabledParentBlock = Some (Toy.falseAttr "inherit" 2)
  /\ Dir Toy.disabledParentBlock <> StackDir Toy.stack
  /\ Toy.load (Toy.rootWith Toy.disabledParentBlock) Toy.stack Toy.emptyCtx []
     = Ret [mkHCL SlashComment (Label Toy.disabledParentBlock) Toy.r0 "" false []].
Proof.
  split; [reflexivity|]. split; [reflexivity|]. split; [discriminate|].
  vm_compute. reflexivity.
Qed.

Lemma C3_inherit_gate_witness :
  Inherit Toy.parentOnlyBlock = Some (Toy.falseAttr "inherit" 2)
  /\ Dir Toy.parentOnlyBlock <> StackDir Toy.stack
  /\ Toy.loop (Toy.rootWith Toy.parentOnlyBlock) Toy.stack Toy.emptyCtx []
       SlashComment [Toy.parentOnlyBlock] []
     = Ret [].
Proof.
  split; [reflexivity|]. split; [discriminate|].
  exact (proj1 (C3_inherit_gate (evaluatorImpl := Toy.toyEvaluator)
                  Toy.toyStringList Toy.toyValidIdentifier Toy.toyTraversal
                  Toy.toyLets Toy.toyEvalAssert Toy.toyVendorTarget
                  Toy.toyPrjAbsPath Toy.toyBytes Toy.toyFormat
                  (Toy.rootWith Toy.parentOnlyBlock) Toy.stack Toy.emptyCtx []
                  SlashComment Toy.parentOnlyBlock [] [] _
                  (Toy.falseAttr "inherit" 2)
                  eq_refl eq_refl I eq_refl)
           eq_refl ltac:(discriminate)).
Defined.

(* attributes = { ahead = 1, (not valid) = 2 } with content { ahead = 1 }:
   both are present and the name ahead is set from attributes and is an
   attribute of the content block, and the error is not the conflict. *)
Lemma C4_counterexample :
  attributes Cases.aheadAttrs = Some Cases.aheadAttr
  /\ BlockBody Cases.aheadContent = Some Cases.aheadContentBody
  /\ (exists c, BodyAttributes Cases.aheadContentBody !! "ahead" = Some c
                /\ Name c = "ahead")
  /\ Toy.dyn1 [] Toy.emptyCtx "b" Cases.aheadAttrs (Some Cases.aheadContent)
     = ([WBlock "b" [] [WAttribute "ahead" (TokensForValue (NumberIntVal 1))]],
        Toy.emptyCtx,
        Err (E (Some ErrParsing) (AtRange Toy.r0)
               (mkMsg "tm_dynamic.attributes key %q is not a valid HCL identifier"
                      [ArgString "not valid"]) None)).
Proof.
  split; [reflexivity|]. split; [reflexivity|]. split.
  - eexists. split; vm_compute; reflexivity.
  - vm_compute. reflexivity.
Qed.

Lemma C4_attributes_content_conflict_witness :
  (exists k c,
     BodyAttributes Toy.contentLiteralBody !! k = Some c
     /\ In (Name c) ["value"]
     /\ Toy.dyn1 [] Toy.emptyCtx "b" Toy.conflictAttrs (Some Toy.contentLiteral)
        = ([WBlock "b" [] [WAttribute "value" (TokensForValue (NumberIntVal 1))]],
           Toy.emptyCtx,
           Err (E (Some ErrDynamicAttrsConflict) (AtRange (AttrRange c))
                  (mkMsg "attribute %s already set by tm_dynamic.attributes"
                         [ArgString (Name c)]) None)))
  /\ Toy.dyn1 [] Toy.emptyCtx "b" Cases.aheadAttrs (Some Cases.aheadContent)
     = ([] ++ [WBlock "b" []
                 (fst (setBodyAttributes Toy.toyValidIdentifier []
                         [mkTmAttribute "ahead" (TokensForValue (NumberIntVal 1))
                            Toy.r0]))],
        Toy.emptyCtx,
        Err (E (Some ErrParsing) (AtRange Toy.r0)
               (mkMsg "tm_dynamic.attributes key %q is not a valid HCL identifier"
                      [ArgString "not valid"]) None)).
Proof.
  split.
  - apply (proj1 (C4_attributes_content_conflict (evaluatorImpl := Toy.toyEvaluator)
             Toy.toyStringList Toy.toyValidIdentifier Toy.toyTraversal
             [] Toy.emptyCtx "b" Toy.conflictAttrs Toy.contentLiteral
             Toy.contentLiteralBody Toy.attributesAttr []
             [mkTmAttribute "value" (TokensForValue (NumberIntVal 1)) Toy.r0]
             eq_refl eq_refl eq_refl eq_refl)).
    + repeat constructor.
    + exists "value", (Toy.attr "value" (Toy.lit (NumberIntVal 1)) 20).
      split; [vm_compute; reflexivity|]. left. reflexivity.
  - apply (proj2 (C4_attributes_content_conflict (evaluatorImpl := Toy.toyEvaluator)
             Toy.toyStringList Toy.toyValidIdentifier Toy.toyTraversal
             [] Toy.emptyCtx "b" Cases.aheadAttrs Cases.aheadContent
             Cases.aheadContentBody Cases.aheadAttr []
             [mkTmAttribute "ahead" (TokensForValue (NumberIntVal 1)) Toy.r0;
              mkTmAttribute "not valid" (TokensForValue (NumberIntVal 2)) Toy.r0]
             eq_refl eq_refl eq_refl eq_refl)
            [mkTmAttribute "ahead" (TokensForValue (NumberIntVal 1)) Toy.r0]
            (mkTmAttribute "not valid" (TokensForValue (NumberIntVal 2)) Toy.r0)
            []).
    + reflexivity.
    + repeat constructor.
    + reflexivity.
Defined.

Lemma C5_assertions_witness :
  Asserts Toy.assertingBlock = [Toy.warningAssert; Toy.failingAssert]
  /\ Toy.loop (Toy.rootWith Toy.assertingBlock) Toy.stack Toy.emptyCtx []
       SlashComment [withContent Toy.assertingBlock Toy.invalidContent] []
     = Ret [mkHCL SlashComment "backend.tf" Toy.r0 "" true
              [mkAssert (Toy.at_ 8) true false "should hold";
               mkAssert (Toy.at_ 7) false false "must hold"]].
Proof.
  split; [reflexivity|].
  refine (proj1 (proj2 (C5_assertions (evaluatorImpl := Toy.toyEvaluator)
                    Toy.toyStringList Toy.toyValidIdentifier Toy.toyTraversal
                    Toy.toyLets Toy.toyEvalAssert Toy.toyVendorTarget
                    Toy.toyPrjAbsPath Toy.toyBytes Toy.toyFormat
                    (Toy.rootWith Toy.assertingBlock) Toy.stack Toy.emptyCtx []
                    SlashComment Toy.assertingBlock [] [] _
                    eq_refl eq_refl I I)
                  [mkAssert (Toy.at_ 8) true false "should hold";
                   mkAssert (Toy.at_ 7) false false "must hold"] _)
            eq_refl Toy.invalidContent).
  repeat constructor.
Defined.

Lemma C6_loop_namespace_removed_witness :
  HasNamespace "b"
    (snd (fst (Toy.dyn [] (Toy.dynForEach Toy.numbers) Toy.emptyCtx))) = false
  /\ (exists err, snd (Toy.dyn [] Toy.dynFailing Toy.emptyCtx) = Err err)
  /\ HasNamespace "b" (snd (fst (Toy.dyn [] Toy.dynFailing Toy.emptyCtx))) = false.
Proof.
  split; [|split].
  - destruct (Toy.dyn [] (Toy.dynForEach Toy.numbers) Toy.emptyCtx)
      as [[t e] s] eqn:Hrun.
    refine (proj2 (C6_loop_namespace_removed (evaluatorImpl := Toy.toyEvaluator)
                     Toy.toyStringList Toy.toyValidIdentifier Toy.toyTraversal
                     [] (Toy.dynForEach Toy.numbers) Toy.emptyCtx
                     (Toy.forEachBody Toy.numbers) "b" "b"
                     (Toy.attr "for_each" (Toy.lit Toy.numbers) 1) Toy.numbers
                     _ _ _ eq_refl eq_refl eq_refl _ t e s Hrun _)).
    + split; [reflexivity|split; [reflexivity|vm_compute; reflexivity]].
    + vm_compute. exact I.
    + vm_compute. reflexivity.
    + vm_compute. reflexivity.
    + vm_compute in Hrun. injection Hrun as _ _ <-. left. reflexivity.
  - vm_compute. eauto.
  - destruct (Toy.dyn [] Toy.dynFailing Toy.emptyCtx) as [[t e] s] eqn:Hrun.
    refine (proj2 (C6_loop_namespace_removed (evaluatorImpl := Toy.toyEvaluator)
                     Toy.toyStringList Toy.toyValidIdentifier Toy.toyTraversal
                     [] Toy.dynFailing Toy.emptyCtx Toy.failingBody "b" "b"
                     (Toy.attr "for_each" (Toy.lit Toy.numbers) 1) Toy.numbers
                     _ _ _ eq_refl eq_refl eq_refl _ t e s Hrun _)).
    + split; [reflexivity|split; [reflexivity|vm_compute; reflexivity]].
    + vm_compute. exact I.
    + vm_compute. reflexivity.
    + vm_compute. reflexivity.
    + vm_compute in Hrun. injection Hrun as _ _ <-. right. eauto.
Defined.

(* tm_dynamic "b" { iterator = x  condition = false  content {...} }: no
   for_each, an iterator, and no error. *)
Lemma C7_counterexample :
  BodyAttributes Toy.guardedBody !! "for_each" = None
  /\ BodyAttributes Toy.guardedBody !! "iterator" = Some Toy.iteratorAttr
  /\ Toy.dyn [] Toy.dynGuarded Toy.emptyCtx = ([], Toy.emptyCtx, Ret tt).
Proof.
  split; [vm_compute; reflexivity|]. split; vm_compute; reflexivity.
Qed.

Lemma C7_without_for_each_witness :
  wellFormedDynamic Toy.dynIterator Toy.iteratorBody "b"
  /\ Toy.dyn [] Toy.dynIterator Toy.emptyCtx
     = ([], Toy.emptyCtx,
        Err (E (Some ErrInvalidDynamicIterator) (AtRange (Toy.at_ 2))
               (msg "iterator should not be defined when for_each is omitted")
               None))
  /\ Toy.dyn [] Toy.dynPlain Toy.emptyCtx
     = Toy.dyn1 [] Toy.emptyCtx "b" (fst (getDynamicBlockAttrs Toy.plainBody))
         (Some Toy.contentValue).
Proof.
  assert (Hwf : wellFormedDynamic Toy.dynIterator Toy.iteratorBody "b")
    by (split; [reflexivity|split; [reflexivity|vm_compute; reflexivity]]).
  split; [exact Hwf|]. split.
  - refine (proj1 (C7_without_for_each (evaluatorImpl := Toy.toyEvaluator)
                     Toy.toyStringList Toy.toyValidIdentifier Toy.toyTraversal
                     [] Toy.dynIterator Toy.emptyCtx Toy.iteratorBody "b"
                     Hwf _ _) Toy.iteratorAttr _).
    + vm_compute. exact I.
    + vm_compute. reflexivity.
    + vm_compute. reflexivity.
  - refine (proj2 (C7_without_for_each (evaluatorImpl := Toy.toyEvaluator)
                     Toy.toyStringList Toy.toyValidIdentifier Toy.toyTraversal
                     [] Toy.dynPlain Toy.emptyCtx Toy.plainBody "b"
                     _ _ _) _).
    + split; [reflexivity|split; [reflexivity|vm_compute; reflexivity]].
    + vm_compute. exact I.
    + vm_compute. reflexivity.
    + vm_compute. reflexivity.
Defined.

Lemma C8_structural_errors_accumulate_witness :
  Toy.dyn [] Toy.dynBroken Toy.emptyCtx
  = ([], Toy.emptyCtx,
     Err (List_ [labelCountError Toy.dynBroken;
                 unsupportedAttrError "foo" Toy.fooAttr;
                 unrecognizedBlockError Toy.otherBlock;
                 duplicateContentError Toy.content2;
                 missingContentError Toy.brokenBody]))
  /\ In (unsupportedAttrError "foo" Toy.fooAttr)
        (dynamicBlockErrors Toy.dynBroken Toy.brokenBody)
  /\ In (duplicateContentError Toy.content2)
        (dynamicBlockErrors Toy.dynBroken Toy.brokenBody).
Proof.
  pose proof (C8_structural_errors_accumulate (evaluatorImpl := Toy.toyEvaluator)
                Toy.toyStringList Toy.toyValidIdentifier Toy.toyTraversal
                [] Toy.dynBroken Toy.emptyCtx Toy.brokenBody eq_refl)
    as [Hres [_ [Hattr [_ [Hdup _]]]]].
  split; [|split].
  - unfold Toy.dyn. rewrite Hres; [vm_compute; reflexivity|vm_compute; discriminate].
  - apply Hattr; [vm_compute; reflexivity|].
    unfold supportedDynamicAttr. intros [H|[H|[H|[H|H]]]]; discriminate.
  - apply (Hdup [Toy.otherBlock] Toy.content1 [] Toy.content2 []); reflexivity.
Defined.

Lemma C9_scope_filter_match_witness :
  matchedAnyStackFilter (StackFilters Toy.filteredBlock)
    (PathString (StackDir Toy.stack)) = false
  /\ matchedAnyStackFilter [] (PathString (StackDir Toy.stack)) = true
  /\ Toy.loop (Toy.rootWith Toy.filteredBlock) Toy.stack Toy.emptyCtx []
       SlashComment [Toy.filteredBlock] []
     = Ret [mkHCL SlashComment "backend.tf" Toy.r0 "" false []].
Proof.
  split; [reflexivity|]. split.
  - apply (proj1 (C9_scope_filter_match (evaluatorImpl := Toy.toyEvaluator)
                    Toy.toyStringList Toy.toyValidIdentifier Toy.toyTraversal
                    Toy.toyLets Toy.toyEvalAssert Toy.toyVendorTarget
                    Toy.toyPrjAbsPath Toy.toyBytes Toy.toyFormat
                    (Toy.rootWith Toy.filteredBlock) Toy.stack Toy.emptyCtx []
                    SlashComment [] (PathString (StackDir Toy.stack)))).
    left. reflexivity.
  - exact (proj2 (C9_scope_filter_match (evaluatorImpl := Toy.toyEvaluator)
                    Toy.toyStringList Toy.toyValidIdentifier Toy.toyTraversal
                    Toy.toyLets Toy.toyEvalAssert Toy.toyVendorTarget
                    Toy.toyPrjAbsPath Toy.toyBytes Toy.toyFormat
                    (Toy.rootWith Toy.filteredBlock) Toy.stack Toy.emptyCtx []
                    SlashComment (StackFilters Toy.filteredBlock)
                    (PathString (StackDir Toy.stack)))
             Toy.filteredBlock [] [] eq_refl eq_refl eq_refl).
Defined.

Lemma C10_null_for_each_witness :
  cty.IsNull Toy.nullMap = true
  /\ cty.CanIterateElements Toy.nullMap = true
  /\ Toy.dyn [] Toy.dynNullIterator Toy.emptyCtx
     = ([], Toy.emptyCtx,
        Err (E (Some ErrInvalidDynamicIterator) (AtRange (Toy.at_ 2))
               (msg "iterator should not be defined when for_each is omitted")
               None))
  /\ Toy.dyn [] Toy.dynNull Toy.emptyCtx
     = Toy.dyn1 [] Toy.emptyCtx "b" (fst (getDynamicBlockAttrs Toy.nullBody))
         (Some Toy.contentValue)
  /\ Toy.dyn [] Toy.dynNull Toy.emptyCtx
     = ([WBlock "b" []
           [WAttribute "value"
              (TokensForExpression (ScopeTraversalExpr ["b"; "value"] Toy.r0))]],
        Toy.emptyCtx, Ret tt).
Proof.
  split; [reflexivity|]. split; [reflexivity|]. split; [|split].
  - refine (proj1 (C10_null_for_each (evaluatorImpl := Toy.toyEvaluator)
                     Toy.toyStringList Toy.toyValidIdentifier Toy.toyTraversal
                     [] Toy.dynNullIterator Toy.emptyCtx Toy.nullIteratorBody "b"
                     (Toy.attr "for_each" (Toy.lit Toy.nullMap) 1) Toy.nullMap
                     _ _ _ eq_refl eq_refl eq_refl) Toy.iteratorAttr _).
    + split; [reflexivity|split; [reflexivity|vm_compute; reflexivity]].
    + vm_compute. exact I.
    + vm_compute. reflexivity.
    + vm_compute. reflexivity.
  - refine (proj2 (C10_null_for_each (evaluatorImpl := Toy.toyEvaluator)
                     Toy.toyStringList Toy.toyValidIdentifier Toy.toyTraversal
                     [] Toy.dynNull Toy.emptyCtx Toy.nullBody "b"
                     (Toy.attr "for_each" (Toy.lit Toy.nullMap) 1) Toy.nullMap
                     _ _ _ eq_refl eq_refl eq_refl) _).
    + split; [reflexivity|split; [reflexivity|vm_compute; reflexivity]].
    + vm_compute. exact I.
    + vm_compute. reflexivity.
    + vm_compute. reflexivity.
  - vm_compute. reflexivity.
Defined.

(** * Further properties of the generator *)

(** ** The order of the result *)

Lemma leb_of_ltb (a b : string) : String.ltb a b = true -> String.leb a b = true.
Proof. unfold String.ltb, String.leb. now destruct (String.compare a b). Qed.

Lemma leb_of_not_ltb (a b : string) : String.ltb a b = false -> String.leb b a = true.
Proof.
  unfold String.ltb, String.leb. rewrite (String.compare_antisym b a).
  now destruct (String.compare a b).
Qed.

Lemma ltb_irrefl_eq (a b : string) : String.ltb a b = true -> a <> b.
Proof.
  unfold String.ltb. intros H ->.
  assert (Hc : String.compare b b = Eq).
  { pose proof (String.compare_antisym b b) as Ha.
    destruct (String.compare b b); simpl in Ha; congruence. }
  now rewrite Hc in H.
Qed.

Lemma leb_trans (a b c : string) :
  String.leb a b = true -> String.leb b c = true -> String.leb a c = true.
Proof.
  assert (Hle : forall x y, String.leb x y = true <-> x = y \/ String_as_OT.lt x y).
  { intros x y. unfold String.leb. split.
    - destruct (String.compare x y) eqn:Hc; try discriminate; intros _.
      + left. now apply String.compare_eq_iff.
      + right. now apply String_as_OT.cmp_lt.
    - intros [->|Hlt].
      + assert (Hc : String.compare y y = Eq).
        { pose proof (String.compare_antisym y y) as Ha.
          destruct (String.compare y y); simpl in Ha; congruence. }
        now rewrite Hc.
      + apply String_as_OT.cmp_lt in Hlt. unfold String_as_OT.cmp in Hlt.
        now rewrite Hlt. }
  rewrite !Hle. intros [->|H1] [->|H2]; auto.
  right. eapply String_as_OT.lt_trans; eauto.
Qed.

Lemma insertHCL_perm (h : HCL) (l : list HCL) : Permutation (h :: l) (insertHCL h l).
Proof.
  induction l as [|x l IH]; simpl; [reflexivity|].
  destruct (String.ltb (label x) (label h)); [|reflexivity].
  rewrite perm_swap. now constructor.
Qed.

Lemma insertHCL_sorted (h : HCL) (l : list HCL) :
  StronglySorted labelLe l -> StronglySorted labelLe (insertHCL h l).
Proof.
  induction 1 as [|x l Hs IH Hall]; simpl; [repeat constructor|].
  destruct (String.ltb (label x) (label h)) eqn:Hlt.
  - constructor; [exact IH|].
    rewrite <- (insertHCL_perm h l).
    constructor; [now apply leb_of_ltb|exact Hall].
  - assert (Hhx : labelLe h x) by now apply leb_of_not_ltb.
    constructor; [now constructor|].
    constructor; [exact Hhx|].
    eapply Forall_impl; [exact Hall|]. intros y Hxy. eapply leb_trans; eauto.
Qed.

Lemma insertHCL_stable (l0 : string) (h : HCL) (l : list HCL) :
  List.filter (hasLabel l0) (insertHCL h l) = List.filter (hasLabel l0) (h :: l).
Proof.
  induction l as [|x l IH]; [reflexivity|].
  cbn [insertHCL]. destruct (String.ltb (label x) (label h)) eqn:Hlt; [|reflexivity].
  cbn [List.filter] in *. rewrite IH.
  destruct (hasLabel l0 h) eqn:Hh; [|reflexivity].
  destruct (hasLabel l0 x) eqn:Hx; [|reflexivity].
  unfold hasLabel in Hh, Hx. apply String.eqb_eq in Hh, Hx.
  apply ltb_irrefl_eq in Hlt. congruence.
Qed.

Lemma SliceStable_spec (hcls : list HCL) :
  StronglySorted labelLe (SliceStable hcls)
  /\ Permutation hcls (SliceStable hcls)
  /\ forall l, List.filter (hasLabel l) (SliceStable hcls) = List.filter (hasLabel l) hcls.
Proof.
  induction hcls as [|h hcls [Hs [Hp Hst]]]; simpl.
  - repeat split; constructor.
  - split; [now apply insertHCL_sorted|]. split.
    + rewrite <- insertHCL_perm. now constructor.
    + intros l. change (foldr insertHCL [] hcls) with (SliceStable hcls).
      rewrite insertHCL_stable. cbn [List.filter]. now rewrite Hst.
Qed.

(** ** The walk up the directories *)

Lemma loadGenHCLBlocks_root (root : Root) :
  loadGenHCLBlocks root [] = blocksAt root [].
Proof. reflexivity. Qed.

Lemma loadGenHCLBlocks_child (root : Root) (dir : Path) (c : string) :
  loadGenHCLBlocks root (dir ++ [c])
  = blocksAt root (dir ++ [c]) ++ loadGenHCLBlocks root dir.
Proof.
  unfold loadGenHCLBlocks. rewrite length_app. cbn [length].
  replace (length dir + 1) with (S (length dir)) by lia.
  cbn [loadGenHCLBlocksN]. unfold PathDir. rewrite removelast_last.
  rewrite bool_decide_eq_false_2; [reflexivity|].
  intros H. apply (f_equal (@length string)) in H.
  rewrite length_app in H. simpl in H. lia.
Qed.

Lemma loadGenHCLBlocks_In (root : Root) (dir : Path) (b : GenHCLBlock) :
  In b (loadGenHCLBlocks root dir)
  <-> exists d, d `prefix_of` dir /\ In b (blocksAt root d).
Proof.
  revert b. induction dir as [|c dir IH] using rev_ind; intros b.
  - rewrite loadGenHCLBlocks_root. split.
    + intros H. exists []. split; [reflexivity|exact H].
    + intros [d [Hd H]]. apply prefix_nil_inv in Hd. now subst d.
  - rewrite loadGenHCLBlocks_child, in_app_iff, IH. split.
    + intros [H|[d [Hd H]]].
      * exists (dir ++ [c]). split; [reflexivity|exact H].
      * exists d. split; [|exact H]. now apply prefix_app_r.
    + intros [d [Hd H]].
      destruct (decide (d = dir ++ [c])) as [->|Hne]; [now left|].
      right. exists d. split; [|exact H].
      destruct Hd as [k Hk].
      destruct k as [|x k _] using rev_ind.
      * rewrite app_nil_r in Hk. congruence.
      * rewrite app_assoc in Hk. apply app_inj_tail in Hk as [-> _].
        now exists k.
Qed.

(** X1.  loadGenHCLBlocks returns the blocks of the directory it starts
    from before those of its parent, and so on up to the root, where the
    walk ends; a block is returned exactly when it is declared in a
    non-empty configuration of the start directory or of one of its
    ancestors. *)
Theorem loadGenHCLBlocks_ancestors (root : Root) (dir : Path) :
  loadGenHCLBlocks root [] = blocksAt root []
  /\ (forall c, loadGenHCLBlocks root (dir ++ [c])
                = blocksAt root (dir ++ [c]) ++ loadGenHCLBlocks root dir)
  /\ (forall b, In b (loadGenHCLBlocks root dir)
                <-> exists d, d `prefix_of` dir /\ In b (blocksAt root d)).
Proof.
  split; [reflexivity|]. split; [intros c; apply loadGenHCLBlocks_child|].
  intros b. apply loadGenHCLBlocks_In.
Qed.

(** ** Comment styles *)

(** X2.  The two comment styles and their strings correspond one to one:
    reading back the string of a style gives the style, a string that is
    read as a style is the string of that style, and any other string makes
    commentStyleFromString panic. *)
Theorem commentStyle_round_trip (c : CommentStyle) (s : string) :
  commentStyleFromString (CommentStyleString c) = Ret c
  /\ (commentStyleFromString s = Ret c <-> s = CommentStyleString c)
  /\ (s <> "//" -> s <> "#" -> commentStyleFromString s = Panic "invalid comment style").
Proof.
  split; [now destruct c|]. split.
  - unfold commentStyleFromString. split.
    + destruct (String.eqb_spec s "//") as [->|_]; [intros [= <-]; reflexivity|].
      destruct (String.eqb_spec s "#") as [->|_]; [intros [= <-]; reflexivity|].
      discriminate.
    + intros ->. now destruct c.
  - intros H1 H2. unfold commentStyleFromString.
    destruct (String.eqb_spec s "//"); [contradiction|].
    destruct (String.eqb_spec s "#"); [contradiction|reflexivity].
Qed.

(** ** Scope filters, in either order of the glob-sets *)

(** X3.  Go visits the two glob-sets of a filter (project paths, repository
    paths) in an order of its choosing and leaves the loop at the first one
    that does not match; the verdict is the same in both orders. *)
Theorem stackFilterMatched_order (cond : StackFilter) (dir : string) :
  stackFilterMatched cond dir
  = globSetsMatch [("repository path", RepositoryPaths cond);
                   ("project path", ProjectPaths cond)] dir.
Proof.
  unfold stackFilterMatched. simpl.
  destruct (ProjectPaths cond) as [p|], (RepositoryPaths cond) as [r|]; simpl;
    try reflexivity.
  now destruct (MatchAnyGlob p dir), (MatchAnyGlob r dir).
Qed.

Section LoadMore.

Context {evaluatorImpl : Evaluator}.
Variable ValueAsStringList : Value -> outcome (list string).
Variable ValidIdentifier : string -> bool.
Variable AbsTraversalForExpr : Expr -> option (list string).
Variable letsLoad : gmap string Attribute -> Context -> outcome Context.
Variable EvalAssert : Context -> AssertConfig -> outcome Assert.
Variable vendorTargetDir : Path -> string -> Path.
Variable PrjAbsPath : string -> string -> string.
Variable Bytes : WBody -> string.
Variable FormatMultiline : string -> string -> outcome string.
Variable root : Root.
Variable st : Stack.
Variable evalctx : Context.
Variable vendorDir : Path.
Variable commentStyle : CommentStyle.

Abbreviation loopOf :=
  (loadBlocks ValueAsStringList ValidIdentifier AbsTraversalForExpr letsLoad
     EvalAssert vendorTargetDir PrjAbsPath Bytes FormatMultiline
     root st evalctx vendorDir commentStyle).

Abbreviation LoadOf :=
  (Load ValueAsStringList ValidIdentifier AbsTraversalForExpr letsLoad
     EvalAssert vendorTargetDir PrjAbsPath Bytes FormatMultiline).

(* Case analysis on the scrutinee at the head of either side. *)
Ltac step_case :=
  match goal with
  | |- (match ?G with _ => _ end) = _ => destruct G eqn:?
  | |- bind ?G _ = _ => destruct G eqn:?; cbn [bind]
  | |- bind (match ?G with _ => _ end) _ = _ => destruct G eqn:?
  | |- bind (bind ?G _) _ = _ => destruct G eqn:?; cbn [bind]
  end.

(** X4.  The loop of Load handles the blocks one after the other: a list
    of blocks cut in two is processed by processing the first part and then
    the second with the artifacts collected so far.  So a block that fails
    ends the run with its error, whatever was collected before it and
    whatever follows it. *)
Theorem loadBlocks_app (pre post : list GenHCLBlock) (hcls : list HCL) :
  loopOf (pre ++ post) hcls = (hcls' <- loopOf pre hcls ;; loopOf post hcls')
  /\ (forall b hcls1 e,
        loopOf pre hcls = Ret hcls1 ->
        loopOf [b] hcls1 = Err e ->
        loopOf (pre ++ b :: post) hcls = Err e).
Proof.
  assert (Happ : forall pre post hcls,
             loopOf (pre ++ post) hcls
             = (hcls' <- loopOf pre hcls ;; loopOf post hcls')).
  { clear pre post hcls.
    induction pre as [|b pre IH]; intros post hcls; [reflexivity|].
    cbn [app loadBlocks].
    repeat (first [rewrite IH; reflexivity | reflexivity | step_case]). }
  split; [apply Happ|].
  intros b hcls1 e Hpre Hb.
  rewrite Happ, Hpre. cbn [bind].
  change (b :: post) with ([b] ++ post). rewrite Happ, Hb. reflexivity.
Qed.

Lemma generateContent_artifact (b : GenHCLBlock) (ctx : Context)
    (cond : bool) (asserts : list Assert) (g : HCL) :
  generateContent ValueAsStringList ValidIdentifier AbsTraversalForExpr
    PrjAbsPath Bytes FormatMultiline root commentStyle b ctx cond asserts = Ret g ->
  artifactOf commentStyle b g /\ condition_ g = cond.
Proof.
  unfold generateContent.
  destruct (copyBody _ _ _ _ _ _) as [[gen e] [[]|err|p]]; try discriminate.
  destruct (FormatMultiline _ _); try discriminate.
  intros [= <-]. repeat split.
Qed.

Abbreviation kept :=
  (keptBlocks letsLoad vendorTargetDir st evalctx vendorDir).
Abbreviation dropped :=
  (droppedByInherit letsLoad vendorTargetDir st evalctx vendorDir).

Lemma loadBlocks_kept (blocks : list GenHCLBlock) :
  forall hcls out,
    loopOf blocks hcls = Ret out ->
    exists new,
      out = hcls ++ new
      /\ Forall2 (fun b h => artifactOf commentStyle b h /\ inertWhenDisabled h)
           (kept blocks) new.
Proof.
  induction blocks as [|b rest IH]; intros hcls out H.
  - injection H as <-. exists []. rewrite app_nil_r. split; constructor.
  - assert (Hadd : forall h,
               dropped b = false ->
               artifactOf commentStyle b h -> inertWhenDisabled h ->
               loopOf rest (hcls ++ [h]) = Ret out ->
               exists new,
                 out = hcls ++ new
                 /\ Forall2 (fun b h => artifactOf commentStyle b h
                                        /\ inertWhenDisabled h)
                      (kept (b :: rest)) new).
    { intros h Hk Ha Hi Hrun. destruct (IH _ _ Hrun) as [new [-> Hall]].
      exists (h :: new). split; [now rewrite <- List.app_assoc|].
      unfold keptBlocks. cbn [List.filter]. rewrite Hk. cbn [negb].
      constructor; [now split|exact Hall]. }
    cbn [loadBlocks] in H. unfold droppedByInherit, blockContext in Hadd.
    destruct (matchedAnyStackFilter _ _) eqn:Hm; cbn [negb andb] in H, Hadd.
    2:{ apply Hadd in H; [exact H|reflexivity|repeat split|
                          intros _; split; reflexivity]. }
    destruct (letsLoad _ _) as [ctx|e|p] eqn:Hlets; cbn [bind] in H;
      try discriminate.
    destruct (evalCondition ctx (Condition b)) as [cond|e|p] eqn:Hcond;
      cbn [bind] in H; try discriminate.
    destruct cond; cbn [negb] in H.
    2:{ apply Hadd in H; [exact H|reflexivity|repeat split|
                          intros _; split; reflexivity]. }
    destruct (evalInherit ctx (Inherit b)) as [inh|e|p] eqn:Hinh;
      cbn [bind] in H; try discriminate.
    destruct inh; cbn [negb andb] in H.
    + destruct (evalAsserts _ _ _ _ _ _) as [[[asserts errs] failed]|e|p];
        cbn [bind] in H; try discriminate.
      destruct (errors.AsError errs); try discriminate.
      destruct failed.
      { apply Hadd in H; [exact H|reflexivity|repeat split|intros [=]]. }
      destruct (generateContent _ _ _ _ _ _ _ _ _ _ _ _) as [g|e|p] eqn:Hg;
        cbn [bind] in H; try discriminate.
      apply generateContent_artifact in Hg as [Hart Hc].
      apply Hadd in H; [exact H|reflexivity|exact Hart|intros Hf; congruence].
    + destruct (bool_decide (Dir b = StackDir st)) eqn:Hdir; cbn [negb] in H, Hadd.
      * destruct (evalAsserts _ _ _ _ _ _) as [[[asserts errs] failed]|e|p];
          cbn [bind] in H; try discriminate.
        destruct (errors.AsError errs); try discriminate.
        destruct failed.
        { apply Hadd in H; [exact H|reflexivity|repeat split|intros [=]]. }
        destruct (generateContent _ _ _ _ _ _ _ _ _ _ _ _) as [g|e|p] eqn:Hg;
          cbn [bind] in H; try discriminate.
        apply generateContent_artifact in Hg as [Hart Hc].
        apply Hadd in H; [exact H|reflexivity|exact Hart|intros Hf; congruence].
      * destruct (IH _ _ H) as [new [-> Hall]].
        exists new. split; [reflexivity|].
        unfold keptBlocks, droppedByInherit, blockContext. cbn [List.filter].
        rewrite Hm, Hlets, Hcond, Hinh, Hdir. cbn [negb andb]. exact Hall.
Qed.

(** X5.  When the loop of Load succeeds, what it has added to the
    artifacts collected before is exactly one artifact for each block that
    the inherit gate does not drop, in the order of the blocks; the blocks
    dropped are those in scope of the stack whose condition is absent or
    true, whose inherit is false and which are declared in another
    directory.  Each artifact carries the label and the range of its block
    and the comment style of the run, and an artifact whose condition is
    false has an empty body and no assertions. *)
Theorem loadBlocks_artifacts (blocks : list GenHCLBlock) :
  forall hcls out,
    loopOf blocks hcls = Ret out ->
    exists new,
      out = hcls ++ new
      /\ Forall2 (fun b h => artifactOf commentStyle b h /\ inertWhenDisabled h)
           (kept blocks) new.
Proof. exact (loadBlocks_kept blocks). Qed.

(** X6.  The artifacts Load returns are those its loop has collected,
    ordered by label: labels ascend along the list, nothing is lost or
    added, and artifacts with the same label stay in the order in which the
    loop produced them. *)
Theorem Load_sorted_by_label (out : list HCL) :
  LoadOf root st evalctx vendorDir = Ret out ->
  exists style collected,
    CommentStyleFromConfig root = Ret style
    /\ loadBlocks ValueAsStringList ValidIdentifier AbsTraversalForExpr letsLoad
         EvalAssert vendorTargetDir PrjAbsPath Bytes FormatMultiline
         root st evalctx vendorDir style
         (loadGenHCLBlocks root (StackDir st)) [] = Ret collected
    /\ StronglySorted labelLe out
    /\ Permutation collected out
    /\ forall l, List.filter (hasLabel l) out = List.filter (hasLabel l) collected.
Proof.
  unfold Load. intros H.
  destruct (CommentStyleFromConfig root) as [style|e|p]; try discriminate.
  cbn [bind] in H.
  destruct (loadBlocks _ _ _ _ _ _ _ _ _ _ _ _ _ style _ _) as [collected|e|p] eqn:Hrun;
    try discriminate.
  injection H as <-. exists style, collected.
  destruct (SliceStable_spec collected) as [Hs [Hp Hst]]. auto.
Qed.

End LoadMore.

Section LoadOrigin.

Context {evaluatorImpl : Evaluator}.
Variable ValueAsStringList : Value -> outcome (list string).
Variable ValidIdentifier : string -> bool.
Variable AbsTraversalForExpr : Expr -> option (list string).
Variable letsLoad : gmap string Attribute -> Context -> outcome Context.
Variable EvalAssert : Context -> AssertConfig -> outcome Assert.
Variable vendorTargetDir : Path -> string -> Path.
Variable PrjAbsPath : string -> string -> string.
Variable Bytes : WBody -> string.
Variable FormatMultiline : string -> string -> outcome string.

(** X21.  A successful Load returns exactly one artifact for each
    generate_hcl block, declared in the directory of the stack or in one of
    its ancestors, that the inherit gate does not drop, and nothing else:
    its result is a rearrangement of a list that pairs these blocks, in the
    order loadGenHCLBlocks returns them, with one artifact each.  The
    artifact carries the label and the range of its block and the comment
    style of the root configuration, and when its condition is false its
    body is empty and it has no assertions. *)
Theorem Load_artifacts_origin (root : Root) (st : Stack) (evalctx : Context)
    (vendorDir : Path) (out : list HCL) :
  Load ValueAsStringList ValidIdentifier AbsTraversalForExpr letsLoad EvalAssert
    vendorTargetDir PrjAbsPath Bytes FormatMultiline root st evalctx vendorDir
  = Ret out ->
  exists style collected,
    CommentStyleFromConfig root = Ret style
    /\ collected ≡ₚ out
    /\ Forall2 (fun b h =>
                  (exists d, d `prefix_of` StackDir st /\ In b (blocksAt root d))
                  /\ artifactOf style b h
                  /\ inertWhenDisabled h)
         (keptBlocks letsLoad vendorTargetDir st evalctx vendorDir
            (loadGenHCLBlocks root (StackDir st)))
         collected.
Proof.
  unfold Load. intros H.
  destruct (CommentStyleFromConfig root) as [style|e|p]; try discriminate.
  cbn [bind] in H.
  destruct (loadBlocks _ _ _ _ _ _ _ _ _ _ _ _ _ style _ _) as [collected|e|p] eqn:Hrun;
    try discriminate.
  injection H as <-. exists style, collected. split; [reflexivity|].
  destruct (SliceStable_spec collected) as [_ [Hp _]]. split; [exact Hp|].
  destruct (loadBlocks_kept _ _ _ _ _ _ _ _ _ _ _ _ _ _ _ _ _ Hrun)
    as [new [Hout Hall]].
  cbn [app] in Hout. subst collected.
  assert (Hin : forall b,
             In b (keptBlocks letsLoad vendorTargetDir st evalctx vendorDir
                     (loadGenHCLBlocks root (StackDir st))) ->
             In b (loadGenHCLBlocks root (StackDir st))).
  { intros b Hb. unfold keptBlocks in Hb. now apply filter_In in Hb as [Hb _]. }
  revert Hin. clear Hp Hrun.
  induction Hall as [|b h ks new [Ha Hi] _ IH]; intros Hin; [constructor|].
  constructor.
  - split; [|now split].
    apply (loadGenHCLBlocks_In root (StackDir st) b). apply Hin. now left.
  - apply IH. intros b' Hb'. apply Hin. now right.
Qed.

End LoadOrigin.

(** ** The shape of a tm_dynamic block *)

Lemma contentBlockStep_errs_nil (l : list Block) :
  forall acc, snd (foldl contentBlockStep acc l) = [] -> snd acc = [].
Proof.
  intros acc H. destruct (snd acc) as [|e errs] eqn:Hacc; [reflexivity|].
  pose proof (contentBlockStep_keeps l acc e) as Hk.
  rewrite Hacc, H in Hk. destruct Hk. now left.
Qed.

Lemma contentBlockStep_clean (l : list Block) :
  forall c, snd (foldl contentBlockStep (c, []) l) = [] ->
            Forall isContent l
            /\ match c with
               | Some _ => l = []
               | None => length l <= 1
               end.
Proof.
  induction l as [|b l IH]; intros c H.
  - split; [constructor|]. destruct c; simpl; [reflexivity|lia].
  - cbn [foldl] in H. pose proof (contentBlockStep_errs_nil _ _ H) as Hstep.
    unfold contentBlockStep in Hstep, H.
    destruct (String.eqb_spec (BlockType b) "content") as [Hb|Hb];
      cbn [negb] in Hstep, H; [|discriminate].
    destruct c as [c|]; [discriminate|].
    destruct (IH _ H) as [Hall Hl]. subst l. split; [now constructor|simpl; lia].
Qed.

Lemma getContentBlock_shape (blocks : list Block) :
  (forall cb, getContentBlock blocks = (Some cb, None)
              <-> blocks = [cb] /\ isContent cb)
  /\ (getContentBlock blocks = (None, None) <-> blocks = [])
  /\ (forall e, snd (getContentBlock blocks) = Some e ->
                fst (getContentBlock blocks) = None).
Proof.
  assert (Hclean : forall c, getContentBlock blocks = (c, None) ->
                             Forall isContent blocks /\ length blocks <= 1
                             /\ fst (foldl contentBlockStep (None, []) blocks) = c).
  { intros c. unfold getContentBlock, errors.L.
    destruct (foldl contentBlockStep (None, []) blocks) as [c' errs] eqn:Hf.
    destruct errs as [|e errs]; cbn [errors.AsError]; [|discriminate].
    intros [= <-].
    destruct (contentBlockStep_clean blocks None) as [Hall Hlen];
      [now rewrite Hf|]. auto. }
  assert (Hone : forall cb, isContent cb -> getContentBlock [cb] = (Some cb, None)).
  { intros cb Hcb. unfold getContentBlock, contentBlockStep. cbn [foldl].
    unfold isContent in Hcb. rewrite Hcb. reflexivity. }
  split; [|split].
  - intros cb. split.
    + intros H. destruct (Hclean _ H) as [Hall [Hlen Hfst]].
      destruct blocks as [|b [|b' rest]]; simpl in Hlen; try lia.
      * discriminate.
      * inversion Hall as [|? ? Hb _]; subst.
        rewrite (Hone b Hb) in H. injection H as <-. auto.
    + intros [-> Hcb]. now apply Hone.
  - split.
    + intros H. destruct (Hclean _ H) as [Hall [Hlen Hfst]].
      destruct blocks as [|b [|b' rest]]; simpl in Hlen; try lia; [reflexivity|].
      inversion Hall as [|? ? Hb _]; subst.
      rewrite (Hone b Hb) in H. discriminate.
    + intros ->. reflexivity.
  - intros e. unfold getContentBlock.
    destruct (foldl contentBlockStep _ _) as [c errs].
    now destruct (errors.AsError errs).
Qed.

(** X7.  getContentBlock returns a block without an error exactly when
    the nested blocks are a single [content] block, which it returns;
    nothing without an error exactly when there are no nested blocks; and in
    every other case (a block of another type, a second [content] block) no
    block together with an error. *)
Theorem getContentBlock_cases (blocks : list Block) :
  (forall cb, getContentBlock blocks = (Some cb, None)
              <-> blocks = [cb] /\ isContent cb)
  /\ (getContentBlock blocks = (None, None) <-> blocks = [])
  /\ (forall e, snd (getContentBlock blocks) = Some e ->
                fst (getContentBlock blocks) = None).
Proof. exact (getContentBlock_shape blocks). Qed.

Lemma unsupportedErrors_nil (l : list (string * Attribute)) :
  unsupportedErrors l = [] <-> forall n a, In (n, a) l -> supportedDynamicAttr n.
Proof.
  induction l as [|[n a] l IH]; simpl.
  - split; [intros _ ? ? []|reflexivity].
  - destruct (supportedb n) eqn:Hs; simpl.
    + rewrite IH. apply supportedb_spec in Hs. split.
      * intros H n' a' [[= <- <-]|Hin]; eauto.
      * intros H n' a' Hin. eapply H. right. exact Hin.
    + split; [discriminate|]. intros H.
      assert (Hn : supportedDynamicAttr n) by (eapply H; left; reflexivity).
      apply supportedb_spec in Hn. congruence.
Qed.

Lemma getDynamicBlockAttrs_shape (body : Body) :
  fst (getDynamicBlockAttrs body)
  = mkDynBlockAttributes
      (BodyAttributes body !! "attributes") (BodyAttributes body !! "iterator")
      (BodyAttributes body !! "for_each") (BodyAttributes body !! "labels")
      (BodyAttributes body !! "condition")
  /\ (snd (getDynamicBlockAttrs body) = None
      <-> forall n a, BodyAttributes body !! n = Some a -> supportedDynamicAttr n).
Proof.
  split; [apply getDynamicBlockAttrs_fields|].
  rewrite getDynamicBlockAttrs_errs.
  transitivity (unsupportedErrors (map_to_list (BodyAttributes body)) = []).
  - destruct (unsupportedErrors _); simpl; split; congruence.
  - rewrite unsupportedErrors_nil. split.
    + intros H n a Hl. apply (H n a).
      apply list_elem_of_In. now apply elem_of_map_to_list.
    + intros H n a Hin. apply (H n a).
      apply elem_of_map_to_list. now apply list_elem_of_In.
Qed.

(** X8.  getDynamicBlockAttrs returns the attributes it recognises
    whether or not it also returns an error: each field is the attribute of
    that name when the block has one; and it returns no error exactly when
    every attribute of the block has one of the five supported names. *)
Theorem getDynamicBlockAttrs_cases (body : Body) :
  fst (getDynamicBlockAttrs body)
  = mkDynBlockAttributes
      (BodyAttributes body !! "attributes") (BodyAttributes body !! "iterator")
      (BodyAttributes body !! "for_each") (BodyAttributes body !! "labels")
      (BodyAttributes body !! "condition")
  /\ (snd (getDynamicBlockAttrs body) = None
      <-> forall n a, BodyAttributes body !! n = Some a -> supportedDynamicAttr n).
Proof. exact (getDynamicBlockAttrs_shape body). Qed.

(** X9.  A tm_dynamic block passes the structural checks of
    appendDynamicBlocks exactly when it has one label, every attribute has a
    supported name, and its nested blocks are either a single [content]
    block, or none at all with an [attributes] attribute present. *)
Theorem dynamicBlockErrors_none (dynblock : Block) (body : Body) :
  dynamicBlockErrors dynblock body = []
  <-> length (BlockLabels dynblock) = 1
      /\ (forall n a, BodyAttributes body !! n = Some a -> supportedDynamicAttr n)
      /\ ((exists cb, BodyBlocks body = [cb] /\ isContent cb)
          \/ (BodyBlocks body = [] /\ is_Some (BodyAttributes body !! "attributes"))).
Proof.
  pose proof (getContentBlock_shape (BodyBlocks body)) as [Hsome [Hnone Herr]].
  pose proof (getDynamicBlockAttrs_shape body) as [_ Hattrs].
  rewrite getDynamicBlockAttrs_errs in Hattrs.
  pose proof (getContentBlock_errs (BodyBlocks body)) as Hcerrs.
  rewrite dynamicBlockErrors_eq. split.
  - intros H.
    apply app_eq_nil in H as [Hl H]. apply app_eq_nil in H as [Ha H].
    apply app_eq_nil in H as [Hc Hm].
    split; [|split].
    + destruct (decide (length (BlockLabels dynblock) = 1)) as [Hlen|Hlen];
        [exact Hlen|].
      rewrite (bool_decide_eq_true_2 _ Hlen) in Hl. discriminate.
    + apply Hattrs. now rewrite Ha.
    + rewrite Hc in Hcerrs. cbn [errors.AsError] in Hcerrs.
      destruct (getContentBlock (BodyBlocks body)) as [[cb|] e] eqn:Hg;
        cbn [snd] in Hcerrs; subst e.
      * left. exists cb. now apply Hsome.
      * right. split; [now apply Hnone|].
        cbn [fst] in Hm.
        destruct (BodyAttributes body !! "attributes") as [a|]; [eauto|].
        rewrite bool_decide_eq_true_2 in Hm by (split; reflexivity).
        discriminate.
  - intros [Hlen [Hsup Hblocks]].
    rewrite (bool_decide_eq_false_2 (length (BlockLabels dynblock) ≠ 1))
      by (intros Hne; contradiction).
    assert (Ha : unsupportedErrors (map_to_list (BodyAttributes body)) = []).
    { apply Hattrs in Hsup. now destruct (unsupportedErrors _). }
    rewrite Ha. cbn [app].
    destruct Hblocks as [[cb [Hb Hcb]]|[Hb Hsome']].
    + assert (Hg : getContentBlock (BodyBlocks body) = (Some cb, None))
        by now apply Hsome.
      rewrite Hg in Hcerrs. cbn [snd] in Hcerrs.
      destruct (snd (foldl contentBlockStep _ _)); [|discriminate].
      rewrite Hg. cbn [fst app].
      rewrite bool_decide_eq_false_2; [reflexivity|]. intros [[=] _].
    + rewrite Hb. cbn [foldl snd app errors.L].
      rewrite bool_decide_eq_false_2; [reflexivity|].
      intros [_ Hn]. rewrite Hn in Hsome'. now destruct Hsome'.
Qed.

(** ** What the copier does to the evaluator *)

Lemma noNewBindings_refl (e : Context) : noNewBindings e e.
Proof. split; reflexivity. Qed.

Lemma noNewBindings_trans (a b c : Context) :
  noNewBindings a b -> noNewBindings b c -> noNewBindings a c.
Proof. intros [H1 H2] [H3 H4]. split; [now transitivity (Variables b)|congruence]. Qed.

Lemma staticBody_blocks (b : Body) :
  staticBody b <-> Forall staticBlock (BodyBlocks b).
Proof.
  destruct b as [a bs r]. cbn [staticBody BodyBlocks].
  induction bs as [|x bs IH]; [split; [constructor|exact (fun _ => I)]|].
  rewrite Forall_cons, IH. reflexivity.
Qed.

Lemma staticBlock_inv (b : Block) :
  staticBlock b ->
  String.eqb (BlockType b) "tm_dynamic" = false
  /\ forall bd, BlockBody b = Some bd -> staticBody bd.
Proof.
  destruct b as [ty l [bd|] tr lr]; cbn [staticBlock BlockType BlockBody];
    intros [Hty Hb]; (split; [now apply String.eqb_neq|]).
  - now intros ? [= <-].
  - discriminate.
Qed.

Section CopierFrame.

Context {evaluatorImpl : Evaluator}.
Variable ValueAsStringList : Value -> outcome (list string).
Variable ValidIdentifier : string -> bool.
Variable AbsTraversalForExpr : Expr -> option (list string).

Abbreviation copyOf :=
  (copyBody ValueAsStringList ValidIdentifier AbsTraversalForExpr).

Lemma fillDynamicBlock_frame f evaluator attrs contentBlock nb e' st :
  leavesNoBinding f ->
  fillDynamicBlock ValidIdentifier f evaluator attrs contentBlock = (nb, e', st) ->
  (forall p, st <> Panic p) -> noNewBindings evaluator e'.
Proof.
  intros Hf. unfold fillDynamicBlock.
  repeat case_match; intros Hrun Hnp;
    first [ solve [eapply Hf; [exact Hrun|exact Hnp]]
          | injection Hrun as <- <- <-;
            first [apply noNewBindings_refl | exfalso; eapply Hnp; reflexivity] ].
Qed.

Lemma appendDynamicBlockWith_frame f destination evaluator ty attrs contentBlock
    d' e' st :
  leavesNoBinding f ->
  appendDynamicBlockWith ValueAsStringList ValidIdentifier f
    destination evaluator ty attrs contentBlock = (d', e', st) ->
  (forall p, st <> Panic p) -> noNewBindings evaluator e'.
Proof.
  intros Hf. unfold appendDynamicBlockWith.
  destruct (dynamicLabels _ _ _).
  - destruct (fillDynamicBlock _ _ _ _ _) as [[nb e1] s1] eqn:Hfill.
    intros [= <- <- <-]. now apply (fillDynamicBlock_frame _ _ _ _ _ _ _ Hf Hfill).
  - intros [= <- <- <-] _. apply noNewBindings_refl.
  - intros [= <- <- <-] _. apply noNewBindings_refl.
Qed.

(* Along the loop the bindings other than the loop variable only shrink. *)
Lemma ForEachElement_frame f it ty attrs contentBlock (elems : list (Value * Value)) :
  leavesNoBinding f ->
  forall target evaluator target' e' st,
    ForEachElement elems
      (expandElement ValueAsStringList ValidIdentifier f it ty attrs contentBlock)
      (target, evaluator, nil_) = (target', e', st) ->
    (forall p, st <> Panic p) ->
    delete it (Variables e') ⊆ delete it (Variables evaluator)
    /\ Functions e' = Functions evaluator.
Proof.
  intros Hf. induction elems as [|[k v] rest IH];
    intros target evaluator target' e' st Hrun Hnp.
  - injection Hrun as <- <- <-. split; reflexivity.
  - cbn [ForEachElement] in Hrun. unfold expandElement at 1 in Hrun.
    set (ev1 := SetNamespace it [("key", k); ("value", v)] evaluator) in *.
    assert (Hset : delete it (Variables ev1) = delete it (Variables evaluator)
                   /\ Functions ev1 = Functions evaluator).
    { unfold ev1, SetNamespace. cbn [Variables Functions].
      split; [apply delete_insert_eq|reflexivity]. }
    destruct Hset as [Hdel Hfun].
    destruct (appendDynamicBlockWith _ _ _ target ev1 ty attrs contentBlock)
      as [[t1 e1] s1] eqn:Hone.
    destruct s1 as [[]|err|p].
    + destruct (appendDynamicBlockWith_frame _ _ _ _ _ _ _ _ _ Hf Hone) as [Hv Hfn];
        [discriminate|].
      destruct (IH _ _ _ _ _ Hrun Hnp) as [Hv' Hfn'].
      split; [|congruence].
      etransitivity; [exact Hv'|]. rewrite <- Hdel. now apply delete_mono.
    + injection Hrun as <- <- <-.
      destruct (appendDynamicBlockWith_frame _ _ _ _ _ _ _ _ _ Hf Hone) as [Hv Hfn];
        [discriminate|].
      split; [|congruence]. rewrite <- Hdel. now apply delete_mono.
    + injection Hrun as <- <- <-. exfalso. now apply (Hnp p).
Qed.

Lemma appendDynamicBlocksWith_frame f target dynblock evaluator d' e' st :
  leavesNoBinding f ->
  appendDynamicBlocksWith ValueAsStringList ValidIdentifier AbsTraversalForExpr f
    target dynblock evaluator = (d', e', st) ->
  (forall p, st <> Panic p) -> noNewBindings evaluator e'.
Proof.
  intros Hf. unfold appendDynamicBlocksWith.
  destruct (BlockBody dynblock) as [body|];
    [|intros [= <- <- <-] _; apply noNewBindings_refl].
  destruct (errors.AsError _); [intros [= <- <- <-] _; apply noNewBindings_refl|].
  destruct (BlockLabels dynblock) as [|ty ?];
    [intros [= <- <- <-] _; apply noNewBindings_refl|].
  destruct (dynamicCondition _ _) as [[|]|?|?];
    try (intros [= <- <- <-] _; apply noNewBindings_refl).
  destruct (foreachValue _ _) as [fv|?|?];
    try (intros [= <- <- <-] _; apply noNewBindings_refl).
  destruct (cty.IsNull fv).
  - destruct (iterator _); [intros [= <- <- <-] _; apply noNewBindings_refl|].
    intros Hrun. now apply (appendDynamicBlockWith_frame _ _ _ _ _ _ _ _ _ Hf Hrun).
  - destruct (iteratorName _ _ _) as [it|?|?];
      try (intros [= <- <- <-] _; apply noNewBindings_refl).
    destruct (ForEachElement _ _ _) as [[t e] s] eqn:Hloop.
    intros Hrun Hnp.
    assert (Hs : forall p, s <> Panic p).
    { intros p ->. injection Hrun as _ _ <-. now apply (Hnp p). }
    destruct (ForEachElement_frame _ _ _ _ _ _ Hf _ _ _ _ _ Hloop Hs) as [Hv Hfn].
    assert (He : e' = DeleteNamespace it e).
    { destruct s; [congruence|congruence|]. exfalso. now apply (Hs reason). }
    subst e'. unfold DeleteNamespace. split; cbn [Variables Functions]; [|exact Hfn].
    etransitivity; [exact Hv|]. apply delete_subseteq.
Qed.

Lemma appendBlockWith_frame f target block eval d' e' st :
  leavesNoBinding f ->
  appendBlockWith ValueAsStringList ValidIdentifier AbsTraversalForExpr f
    target block eval = (d', e', st) ->
  (forall p, st <> Panic p) -> noNewBindings eval e'.
Proof.
  intros Hf. unfold appendBlockWith. destruct (String.eqb _ _).
  - intros Hrun. now apply (appendDynamicBlocksWith_frame _ _ _ _ _ _ _ Hf Hrun).
  - destruct (BlockBody block) as [bd|].
    + destruct (f [] bd eval) as [[tb e1] s1] eqn:Hcopy.
      intros [= <- <- <-]. now apply (Hf _ _ _ _ _ _ Hcopy).
    + intros [= <- <- <-] _. apply noNewBindings_refl.
Qed.

Lemma appendBlocks_frame f (blocks : list Block) :
  leavesNoBinding f ->
  forall dest eval d' e' st,
    appendBlocks ValueAsStringList ValidIdentifier AbsTraversalForExpr f
      dest blocks eval = (d', e', st) ->
    (forall p, st <> Panic p) -> noNewBindings eval e'.
Proof.
  intros Hf. induction blocks as [|b bs IH]; intros dest eval d' e' st Hrun Hnp.
  - injection Hrun as <- <- <-. apply noNewBindings_refl.
  - cbn [appendBlocks] in Hrun.
    destruct (appendBlockWith _ _ _ f dest b eval) as [[d1 e1] s1] eqn:Hone.
    destruct s1 as [[]|err|p].
    + eapply noNewBindings_trans; [|eapply IH; eauto].
      apply (appendBlockWith_frame _ _ _ _ _ _ _ Hf Hone). discriminate.
    + injection Hrun as <- <- <-.
      now apply (appendBlockWith_frame _ _ _ _ _ _ _ Hf Hone).
    + injection Hrun as <- <- <-. exfalso. now apply (Hnp p).
Qed.

Lemma copyBodyN_frame (n : nat) :
  leavesNoBinding (copyBodyN ValueAsStringList ValidIdentifier AbsTraversalForExpr n).
Proof.
  induction n as [|n IH]; intros d b e d' e' st Hrun Hnp.
  - injection Hrun as <- <- <-. exfalso. eapply Hnp. reflexivity.
  - cbn [copyBodyN] in Hrun. unfold copyBodyStep in Hrun.
    destruct (copyAttributes d e _) as [d1 [[]|err|p]].
    + now apply (appendBlocks_frame _ _ IH _ _ _ _ _ Hrun).
    + injection Hrun as <- <- <-. apply noNewBindings_refl.
    + injection Hrun as <- <- <-. apply noNewBindings_refl.
Qed.

Lemma copyBodyN_static (n : nat) :
  forall src dest eval d' e' st,
    staticBody src ->
    copyBodyN ValueAsStringList ValidIdentifier AbsTraversalForExpr n dest src eval
    = (d', e', st) ->
    e' = eval.
Proof.
  induction n as [|n IH]; intros src dest eval d' e' st Hst Hrun.
  - now injection Hrun as _ <- _.
  - cbn [copyBodyN] in Hrun. unfold copyBodyStep in Hrun.
    destruct (copyAttributes dest eval _) as [d1 s1].
    assert (Hblocks : forall bs d0 d2 e2 s2,
               Forall staticBlock bs ->
               appendBlocks ValueAsStringList ValidIdentifier AbsTraversalForExpr
                 (copyBodyN ValueAsStringList ValidIdentifier AbsTraversalForExpr n)
                 d0 bs eval = (d2, e2, s2) -> e2 = eval).
    { induction bs as [|b bs IHb]; intros d0 d2 e2 s2 Hall Hr.
      - now injection Hr as _ <- _.
      - inversion Hall as [|? ? Hb Hbs]; subst.
        cbn [appendBlocks] in Hr. unfold appendBlockWith in Hr.
        destruct (staticBlock_inv _ Hb) as [Hty Hbody]. rewrite Hty in Hr.
        destruct (BlockBody b) as [bd|].
        + destruct (copyBodyN _ _ _ n [] bd eval) as [[tb e1] sb] eqn:Hcopy.
          assert (e1 = eval)
            by (eapply IH; [apply Hbody; reflexivity|exact Hcopy]).
          subst e1.
          destruct sb as [[]|?|?]; [now apply (IHb _ _ _ _ Hbs Hr)| |];
            now injection Hr as _ <- _.
        + now apply (IHb _ _ _ _ Hbs Hr). }
    destruct s1 as [[]|?|?]; [|now injection Hrun as _ <- _..].
    apply (Hblocks _ _ _ _ _ (proj1 (staticBody_blocks src) Hst) Hrun).
Qed.

(** X10.  Whatever copyBody copies, the evaluator it leaves behind (when
    it returns, with or without an error) binds nothing new: every variable
    binding that is left was there before with the same value, so no loop
    variable of a tm_dynamic block survives the copy, and the registered
    functions are the same.  A body without any tm_dynamic block leaves the
    evaluator exactly as it was. *)
Theorem copyBody_leaves_no_binding (dest : WBody) (src : Body) (eval : Context)
    (dest' : WBody) (eval' : Context) (st : status) :
  copyOf dest src eval = (dest', eval', st) ->
  ((forall p, st <> Panic p) -> noNewBindings eval eval')
  /\ (staticBody src -> eval' = eval).
Proof.
  intros Hrun. split.
  - intros Hnp. exact (copyBodyN_frame _ _ _ _ _ _ _ Hrun Hnp).
  - intros Hst. exact (copyBodyN_static _ _ _ _ _ _ _ Hst Hrun).
Qed.

(** ** What the copier puts into the destination *)

Lemma SetAttributeRaw_attributes (n : string) (t : Tokens) (d : WBody) :
  Forall isWAttribute d -> Forall isWAttribute (SetAttributeRaw n t d).
Proof.
  induction 1 as [|x d Hx Hd IH]; simpl; [repeat constructor|].
  destruct x as [m t0|]; [|destruct Hx].
  destruct (String.eqb m n); constructor; try exact I; assumption.
Qed.

Lemma SetAttributeRaw_sets (n : string) (t : Tokens) (d : WBody) :
  In (WAttribute n t) (SetAttributeRaw n t d).
Proof.
  induction d as [|x d IH]; simpl; [now left|].
  destruct x as [m t0|]; [|now right].
  destruct (String.eqb m n); [now left|now right].
Qed.

Lemma SetAttributeRaw_keeps (n : string) (t : Tokens) (d : WBody) (m : string) (t0 : Tokens) :
  In (WAttribute m t0) d -> exists t1, In (WAttribute m t1) (SetAttributeRaw n t d).
Proof.
  induction d as [|x d IH]; simpl; [tauto|].
  intros [->|Hin].
  - destruct (String.eqb_spec m n) as [->|_]; eexists; left; reflexivity.
  - destruct (IH Hin) as [t1 H1].
    destruct x as [k tk|]; [|exists t1; now right].
    destruct (String.eqb k n).
    + exists t0. now right.
    + exists t1. now right.
Qed.

Lemma copyAttributes_sets (attrs : list Attribute) :
  forall dest eval dest',
    copyAttributes dest eval attrs = (dest', Ret tt) ->
    (Forall isWAttribute dest -> Forall isWAttribute dest')
    /\ (forall m t0, In (WAttribute m t0) dest -> exists t1, In (WAttribute m t1) dest')
    /\ (forall a, In a attrs -> exists t, In (WAttribute (Name a) t) dest').
Proof.
  induction attrs as [|a attrs IH]; intros dest eval dest' Hrun.
  - injection Hrun as <-. repeat split; eauto. intros a [].
  - cbn [copyAttributes] in Hrun.
    destruct (PartialEval eval (AttrExpr a)) as [[newexpr flag]|e|p]; try discriminate.
    destruct (IH _ _ _ Hrun) as [Hattrs [Hkeep Hset]]. repeat split.
    + intros Hd. now apply Hattrs, SetAttributeRaw_attributes.
    + intros m t0 Hin.
      destruct (SetAttributeRaw_keeps (Name a) (TokensForExpression newexpr)
                  dest m t0 Hin) as [t1 H1].
      eauto.
    + intros a' [<-|Hin]; [|eauto].
      eapply Hkeep. apply SetAttributeRaw_sets.
Qed.

Lemma insertAttribute_In (a x : Attribute) (l : list Attribute) :
  In x (insertAttribute a l) <-> x = a \/ In x l.
Proof.
  induction l as [|b l IH]; simpl; [intuition congruence|].
  destruct (String.ltb (Name b) (Name a)); simpl; [rewrite IH|]; intuition congruence.
Qed.

Lemma SortRawAttributes_In (attrs : gmap string Attribute) (a : Attribute) :
  In a (SortRawAttributes attrs) <-> exists k, attrs !! k = Some a.
Proof.
  unfold SortRawAttributes.
  assert (H : forall l, In a (foldr insertAttribute [] l) <-> In a l).
  { induction l as [|x l IH]; simpl; [reflexivity|].
    rewrite insertAttribute_In, IH. intuition congruence. }
  rewrite H, <- list_elem_of_In, list_elem_of_fmap. split.
  - intros [[k a'] [-> Hin]]. exists k. now apply elem_of_map_to_list.
  - intros [k Hk]. exists (k, a). split; [reflexivity|].
    now apply elem_of_map_to_list.
Qed.

Lemma appendBlocks_mirrors f (blocks : list Block) :
  Forall (fun b => BlockType b <> "tm_dynamic") blocks ->
  forall dest eval dest' eval',
    appendBlocks ValueAsStringList ValidIdentifier AbsTraversalForExpr f
      dest blocks eval = (dest', eval', Ret tt) ->
    exists new, dest' = dest ++ new /\ Forall2 mirrors blocks new.
Proof.
  induction 1 as [|b bs Hb _ IH]; intros dest eval dest' eval' Hrun.
  - injection Hrun as <- _. exists []. rewrite app_nil_r. split; constructor.
  - cbn [appendBlocks] in Hrun. unfold appendBlockWith in Hrun.
    apply String.eqb_neq in Hb. rewrite Hb in Hrun.
    assert (Hnext : exists wb e1,
               appendBlocks ValueAsStringList ValidIdentifier AbsTraversalForExpr f
                 (dest ++ [WBlock (BlockType b) (BlockLabels b) wb]) bs e1
               = (dest', eval', Ret tt)).
    { destruct (BlockBody b) as [bd|].
      - destruct (f [] bd eval) as [[tb e1] [[]|?|?]]; try discriminate.
        exists tb, e1. exact Hrun.
      - exists [], eval. exact Hrun. }
    destruct Hnext as [wb [e1 Hnext]].
    destruct (IH _ _ _ _ Hnext) as [new [-> Hall]].
    exists (WBlock (BlockType b) (BlockLabels b) wb :: new).
    split; [now rewrite <- List.app_assoc|].
    constructor; [now exists wb|exact Hall].
Qed.

(** X11.  A successful copy into an empty destination of a body whose own
    blocks are ordinary ones (tm_dynamic may occur deeper) mirrors the
    source: first attributes only, among them one for every attribute of the
    source under its name, then one block for every block of the source, in
    the order of the source, with the same type and the same labels. *)
Theorem copyBody_mirrors_source (src : Body) (eval : Context)
    (dest' : WBody) (eval' : Context) :
  Forall (fun b => BlockType b <> "tm_dynamic") (BodyBlocks src) ->
  copyOf [] src eval = (dest', eval', Ret tt) ->
  exists attrsPart blocksPart,
    dest' = attrsPart ++ blocksPart
    /\ Forall isWAttribute attrsPart
    /\ (forall k a, BodyAttributes src !! k = Some a ->
                    exists t, In (WAttribute (Name a) t) attrsPart)
    /\ Forall2 mirrors (BodyBlocks src) blocksPart.
Proof.
  intros Hord Hrun. rewrite copyBody_unfold in Hrun. unfold copyBodyStep in Hrun.
  destruct (copyAttributes [] eval _) as [d1 [[]|e|p]] eqn:Hattrs; try discriminate.
  destruct (copyAttributes_sets _ _ _ _ Hattrs) as [Hall [_ Hset]].
  destruct (appendBlocks_mirrors _ _ Hord _ _ _ _ Hrun) as [new [-> Hmir]].
  exists d1, new. split; [reflexivity|]. split; [apply Hall; constructor|].
  split; [|exact Hmir].
  intros k a Hk. apply Hset. apply SortRawAttributes_In. eauto.
Qed.

(** ** Attributes first, in ascending order; blocks are only appended *)

Lemma leb_neq_ltb (a b : string) :
  String.leb a b = true -> a <> b -> String.ltb a b = true.
Proof.
  unfold String.leb, String.ltb. intros Hle Hne.
  destruct (String.compare a b) eqn:Hc; try reflexivity; try discriminate.
  apply String.compare_eq_iff in Hc. contradiction.
Qed.

Lemma insertAttribute_perm (a : Attribute) (l : list Attribute) :
  Permutation (a :: l) (insertAttribute a l).
Proof.
  induction l as [|x l IH]; simpl; [reflexivity|].
  destruct (String.ltb (Name x) (Name a)); [|reflexivity].
  rewrite perm_swap. now constructor.
Qed.

Lemma insertAttribute_sorted (a : Attribute) (l : list Attribute) :
  StronglySorted (fun x y => String.leb (Name x) (Name y) = true) l ->
  StronglySorted (fun x y => String.leb (Name x) (Name y) = true)
    (insertAttribute a l).
Proof.
  induction 1 as [|x l Hs IH Hall]; simpl; [repeat constructor|].
  destruct (String.ltb (Name x) (Name a)) eqn:Hlt.
  - constructor; [exact IH|].
    rewrite <- (insertAttribute_perm a l).
    constructor; [now apply leb_of_ltb|exact Hall].
  - assert (Hax : String.leb (Name a) (Name x) = true) by now apply leb_of_not_ltb.
    constructor; [now constructor|].
    constructor; [exact Hax|].
    eapply Forall_impl; [exact Hall|]. intros y Hy. cbn beta in *.
    eapply leb_trans; eassumption.
Qed.

Lemma SortRawAttributes_perm (attrs : gmap string Attribute) :
  Permutation (SortRawAttributes attrs) (snd <$> map_to_list attrs).
Proof.
  unfold SortRawAttributes. induction (snd <$> map_to_list attrs) as [|a l IH];
    [reflexivity|].
  simpl. rewrite <- insertAttribute_perm. now constructor.
Qed.

Lemma SortRawAttributes_ascending (src : Body) :
  keyedByName src ->
  StronglySorted nameLt (SortRawAttributes (BodyAttributes src))
  /\ NoDup (Name <$> SortRawAttributes (BodyAttributes src)).
Proof.
  intros Hkeyed.
  assert (Hnd : NoDup (Name <$> SortRawAttributes (BodyAttributes src))).
  { rewrite (SortRawAttributes_perm (BodyAttributes src)).
    rewrite <- list_fmap_compose.
    assert (Hext : (Name ∘ snd) <$> map_to_list (BodyAttributes src)
                   = fst <$> map_to_list (BodyAttributes src)).
    { apply Forall_fmap_ext, Forall_forall. intros [k a] Hin. cbn.
      apply Hkeyed. now apply elem_of_map_to_list. }
    rewrite Hext. apply NoDup_fst_map_to_list. }
  split; [|exact Hnd].
  assert (Hle : StronglySorted (fun x y => String.leb (Name x) (Name y) = true)
                  (SortRawAttributes (BodyAttributes src))).
  { unfold SortRawAttributes.
    induction (snd <$> map_to_list (BodyAttributes src)) as [|a l IH];
      [constructor|]. simpl. now apply insertAttribute_sorted. }
  revert Hnd Hle. generalize (SortRawAttributes (BodyAttributes src)).
  induction l as [|x l IH]; intros Hnd Hle; [constructor|].
  apply StronglySorted_inv in Hle as [Hs Hall].
  apply NoDup_cons in Hnd as [Hx Hnd].
  constructor; [now apply IH|].
  apply List.Forall_forall. intros y Hy.
  apply leb_neq_ltb; [exact (proj1 (List.Forall_forall _ _) Hall y Hy)|].
  intros Heq. apply Hx. rewrite Heq. apply list_elem_of_fmap.
  exists y. split; [reflexivity|]. now apply list_elem_of_In.
Qed.

Lemma SetAttributeRaw_fresh (n : string) (t : Tokens) (d : WBody) :
  (forall t0, ~ In (WAttribute n t0) d) ->
  SetAttributeRaw n t d = d ++ [WAttribute n t].
Proof.
  induction d as [|x d IH]; intros Hfresh; [reflexivity|]. simpl.
  assert (Hd : forall t0, ~ In (WAttribute n t0) d)
    by (intros t0 Hin; apply (Hfresh t0); now right).
  destruct x as [m t0|]; [|now rewrite IH].
  destruct (String.eqb_spec m n) as [->|_]; [|now rewrite IH].
  exfalso. apply (Hfresh t0). now left.
Qed.

Lemma copyAttributes_fresh (eval : Context) (attrs : list Attribute) :
  forall dest dest',
    NoDup (Name <$> attrs) ->
    (forall a, In a attrs -> forall t, ~ In (WAttribute (Name a) t) dest) ->
    copyAttributes dest eval attrs = (dest', Ret tt) ->
    exists new, dest' = dest ++ new /\ Forall2 (copiedFrom eval) attrs new.
Proof.
  induction attrs as [|a attrs IH]; intros dest dest' Hnd Hfresh Hrun.
  - injection Hrun as <-. exists []. rewrite app_nil_r. split; constructor.
  - cbn [copyAttributes] in Hrun.
    destruct (PartialEval eval (AttrExpr a)) as [[newexpr known]|e|p] eqn:Hpe;
      try discriminate.
    rewrite SetAttributeRaw_fresh in Hrun by (apply Hfresh; now left).
    cbn [fmap list_fmap] in Hnd. apply NoDup_cons in Hnd as [Ha Hnd].
    assert (Hfresh1 : forall b, In b attrs -> forall t,
               ~ In (WAttribute (Name b) t)
                    (dest ++ [WAttribute (Name a) (TokensForExpression newexpr)])).
    { intros b Hb t Hin. apply in_app_or in Hin as [Hin|[Hin|[]]].
      * apply (Hfresh b (or_intror Hb) t Hin).
      * injection Hin as Hn _. apply Ha. rewrite Hn.
        apply list_elem_of_fmap. exists b. split; [reflexivity|].
        now apply list_elem_of_In. }
    destruct (IH _ _ Hnd Hfresh1 Hrun) as [new [-> Hall]].
    exists (WAttribute (Name a) (TokensForExpression newexpr) :: new).
    split; [now rewrite <- List.app_assoc|].
    constructor; [|exact Hall]. exists newexpr, known. now split.
Qed.

Lemma appendDynamicBlockWith_appends f destination evaluator ty attrs contentBlock :
  exists new,
    fst (fst (appendDynamicBlockWith ValueAsStringList ValidIdentifier f
                destination evaluator ty attrs contentBlock))
    = destination ++ new
    /\ Forall isWBlock new.
Proof.
  unfold appendDynamicBlockWith.
  destruct (dynamicLabels _ _ _) as [lbls|e|p];
    try (exists []; rewrite app_nil_r; split; [reflexivity|constructor]).
  destruct (fillDynamicBlock _ _ _ _ _) as [[nb e'] st].
  eexists. split; [reflexivity|]. repeat constructor.
Qed.

Lemma ForEachElement_appends f it ty attrs contentBlock
    (elems : list (Value * Value)) :
  forall target evaluator st,
    exists new,
      fst (fst (ForEachElement elems
                  (expandElement ValueAsStringList ValidIdentifier f
                     it ty attrs contentBlock)
                  (target, evaluator, st)))
      = target ++ new
      /\ Forall isWBlock new.
Proof.
  induction elems as [|[k v] rest IH]; intros target evaluator st.
  - exists []. rewrite app_nil_r. split; [reflexivity|constructor].
  - cbn [ForEachElement]. unfold expandElement at 1.
    destruct (appendDynamicBlockWith_appends f target
                (SetNamespace it [("key", k); ("value", v)] evaluator)
                ty attrs contentBlock) as [new1 [H1 Hb1]].
    destruct (appendDynamicBlockWith _ _ _ _ _ _ _ _) as [[t1 e1] s1].
    cbn [fst] in H1. subst t1.
    destruct s1 as [[]|err|p]; try (exists new1; split; [reflexivity|exact Hb1]).
    destruct (IH (target ++ new1) e1 nil_) as [new2 [H2 Hb2]].
    exists (new1 ++ new2). rewrite List.app_assoc. split; [exact H2|].
    now apply Forall_app.
Qed.

Lemma appendDynamicBlocksWith_appends f target dynblock evaluator :
  exists new,
    fst (fst (appendDynamicBlocksWith ValueAsStringList ValidIdentifier
                AbsTraversalForExpr f target dynblock evaluator))
    = target ++ new
    /\ Forall isWBlock new.
Proof.
  assert (Hsame : exists new : WBody, target = target ++ new /\ Forall isWBlock new)
    by (exists []; rewrite app_nil_r; split; [reflexivity|constructor]).
  unfold appendDynamicBlocksWith.
  destruct (BlockBody dynblock) as [body|]; [|exact Hsame].
  destruct (errors.AsError _); [exact Hsame|].
  destruct (BlockLabels dynblock) as [|ty ?]; [exact Hsame|].
  destruct (dynamicCondition _ _) as [[|]|?|?]; try exact Hsame.
  destruct (foreachValue _ _) as [fv|?|?]; try exact Hsame.
  destruct (cty.IsNull fv).
  - destruct (iterator _); [exact Hsame|]. apply appendDynamicBlockWith_appends.
  - destruct (iteratorName _ _ _) as [it|?|?]; try exact Hsame.
    destruct (ForEachElement_appends f it ty (fst (getDynamicBlockAttrs body))
                (fst (getContentBlock (BodyBlocks body)))
                (cty.ElementIterator fv) target evaluator nil_) as [new [H Hb]].
    destruct (ForEachElement _ _ _) as [[t e] s]. cbn [fst] in H. subst t.
    exists new. split; [|exact Hb]. now destruct s.
Qed.

Lemma appendBlocks_appends f (blocks : list Block) :
  forall dest eval,
    exists new,
      fst (fst (appendBlocks ValueAsStringList ValidIdentifier AbsTraversalForExpr f
                  dest blocks eval))
      = dest ++ new
      /\ Forall isWBlock new.
Proof.
  induction blocks as [|b bs IH]; intros dest eval.
  - exists []. rewrite app_nil_r. split; [reflexivity|constructor].
  - cbn [appendBlocks].
    assert (Hone : exists new,
               fst (fst (appendBlockWith ValueAsStringList ValidIdentifier
                           AbsTraversalForExpr f dest b eval))
               = dest ++ new /\ Forall isWBlock new).
    { unfold appendBlockWith. destruct (String.eqb _ _).
      - apply appendDynamicBlocksWith_appends.
      - destruct (BlockBody b) as [bd|].
        + destruct (f [] bd eval) as [[tb e1] s1].
          eexists. split; [reflexivity|]. repeat constructor.
        + eexists. split; [reflexivity|]. repeat constructor. }
    destruct Hone as [new1 [H1 Hb1]].
    destruct (appendBlockWith _ _ _ f dest b eval) as [[d1 e1] s1].
    cbn [fst] in H1. subst d1.
    destruct s1 as [[]|err|p]; try (exists new1; split; [reflexivity|exact Hb1]).
    destruct (IH (dest ++ new1) e1) as [new2 [H2 Hb2]].
    exists (new1 ++ new2). rewrite List.app_assoc. split; [exact H2|].
    now apply Forall_app.
Qed.

(** X20.  A successful copy of a body whose attributes are keyed by their
    names into an empty destination writes the attributes first, one for
    each attribute of the source, in strictly ascending order of the names
    whatever the order in which Go ranges over them, each with the tokens of
    its partly evaluated expression; everything after them is a block,
    also when the source holds tm_dynamic blocks. *)
Theorem copyBody_attributes_ascending (src : Body) (eval : Context)
    (dest' : WBody) (eval' : Context) :
  keyedByName src ->
  copyOf [] src eval = (dest', eval', Ret tt) ->
  exists attrsPart blocksPart,
    dest' = attrsPart ++ blocksPart
    /\ Forall2 (copiedFrom eval) (SortRawAttributes (BodyAttributes src)) attrsPart
    /\ StronglySorted nameLt (SortRawAttributes (BodyAttributes src))
    /\ (forall a, In a (SortRawAttributes (BodyAttributes src))
                  <-> exists k, BodyAttributes src !! k = Some a)
    /\ Forall isWBlock blocksPart.
Proof.
  intros Hkeyed Hrun. rewrite copyBody_unfold in Hrun. unfold copyBodyStep in Hrun.
  destruct (SortRawAttributes_ascending src Hkeyed) as [Hsorted Hnd].
  destruct (copyAttributes [] eval _) as [d1 [[]|e|p]] eqn:Hattrs; try discriminate.
  destruct (copyAttributes_fresh eval _ [] d1 Hnd (fun _ _ _ H => H) Hattrs)
    as [new [-> Hall]].
  destruct (appendBlocks_appends
              (copyBody ValueAsStringList ValidIdentifier AbsTraversalForExpr)
              (BodyBlocks src) ([] ++ new) eval) as [blocksPart [Hd Hb]].
  rewrite Hrun in Hd. cbn [fst] in Hd.
  exists new, blocksPart. split; [exact Hd|]. split; [exact Hall|].
  split; [exact Hsorted|]. split; [|exact Hb].
  intros a. apply SortRawAttributes_In.
Qed.

(** ** Failures of the expander *)

Abbreviation expand :=
  (appendDynamicBlocks ValueAsStringList ValidIdentifier AbsTraversalForExpr).
Abbreviation expandOnce :=
  (appendDynamicBlock ValueAsStringList ValidIdentifier AbsTraversalForExpr).

(** X12.  The guard of a tm_dynamic block fails fast: when it cannot be
    evaluated, or evaluates to something that is not a boolean, the expander
    returns an error of kind "evaluating tm_dynamic.condition" and has
    touched neither the destination nor the evaluator; for_each is not
    looked at. *)
Theorem dynamic_condition_errors (target : WBody) (dynblock : Block)
    (evaluator : Context) (body : Body) (ty : string) (c : Attribute) :
  wellFormedDynamic dynblock body ty ->
  BodyAttributes body !! "condition" = Some c ->
  (forall err, Eval evaluator (AttrExpr c) = Err err ->
     expand target dynblock evaluator
     = (target, evaluator,
        Err (E (Some ErrDynamicConditionEval) NoRange noMsg (Some err))))
  /\ (forall v, Eval evaluator (AttrExpr c) = Ret v -> cty.Type_ v <> TyBool ->
      expand target dynblock evaluator
      = (target, evaluator,
         Err (E (Some ErrDynamicConditionEval) NoRange
                (mkMsg "want boolean got %s" [ArgType (cty.Type_ v)]) None))).
Proof.
  intros [Hbody [Hlabels Herrs]] Hc.
  assert (Hcond : condition (fst (getDynamicBlockAttrs body)) = Some c)
    by now rewrite getDynamicBlockAttrs_fields.
  split.
  - intros err Hev. unfold appendDynamicBlocks, appendDynamicBlocksWith.
    rewrite Hbody, Herrs, Hlabels. cbn [errors.AsError].
    unfold dynamicCondition. rewrite Hcond, Hev. reflexivity.
  - intros v Hev Hty. unfold appendDynamicBlocks, appendDynamicBlocksWith.
    rewrite Hbody, Herrs, Hlabels. cbn [errors.AsError].
    unfold dynamicCondition. rewrite Hcond, Hev. cbn [mapErr bind].
    assert (Hb : cty.IsBool (cty.Type_ v) = false)
      by (destruct (cty.Type_ v); simpl; congruence).
    rewrite Hb. reflexivity.
Qed.

(** X13.  Once the guard holds, a for_each that cannot be evaluated or
    whose value is not of a collection type is an error of kind "parsing
    generate_hcl block" at the range of the for_each expression, the first
    wrapping the evaluation error; nothing is added to the destination. *)
Theorem dynamic_for_each_errors (target : WBody) (dynblock : Block)
    (evaluator : Context) (body : Body) (ty : string) (fe : Attribute) :
  wellFormedDynamic dynblock body ty ->
  guardHolds evaluator body ->
  BodyAttributes body !! "for_each" = Some fe ->
  (forall err, Eval evaluator (AttrExpr fe) = Err err ->
     expand target dynblock evaluator
     = (target, evaluator,
        Err (E (Some ErrParsing) (AtRange (ExprRange (AttrExpr fe)))
               (msg "evaluating `for_each` expression") (Some err))))
  /\ (forall v, Eval evaluator (AttrExpr fe) = Ret v ->
      cty.CanIterateElements v = false ->
      expand target dynblock evaluator
      = (target, evaluator,
         Err (E (Some ErrParsing) (AtRange (ExprRange (AttrExpr fe)))
                (mkMsg "`for_each` expression of type %s cannot be iterated"
                       [ArgType (cty.Type_ v)]) None))).
Proof.
  intros Hwf Hguard Hfe.
  assert (Hf : foreach (fst (getDynamicBlockAttrs body)) = Some fe)
    by now rewrite getDynamicBlockAttrs_fields.
  split.
  - intros err Hev. rewrite (dynBlocks_guarded _ _ _ _ _ _ _ _ Hwf Hguard).
    unfold foreachValue. rewrite Hf, Hev. reflexivity.
  - intros v Hev Hit. rewrite (dynBlocks_guarded _ _ _ _ _ _ _ _ Hwf Hguard).
    unfold foreachValue. rewrite Hf, Hev. cbn [mapErr bind]. rewrite Hit.
    reflexivity.
Qed.

(** X14.  When for_each yields a collection that is not null, an iterator
    attribute that is not a traversal, or is a traversal of more or fewer
    than one step, is an error of kind "invalid tm_dynamic.iterator" at the
    attribute's range; no expansion is run, whatever the collection holds. *)
Theorem dynamic_iterator_errors (target : WBody) (dynblock : Block)
    (evaluator : Context) (body : Body) (ty : string)
    (fe it : Attribute) (v : Value) :
  wellFormedDynamic dynblock body ty ->
  guardHolds evaluator body ->
  BodyAttributes body !! "for_each" = Some fe ->
  Eval evaluator (AttrExpr fe) = Ret v ->
  cty.CanIterateElements v = true ->
  cty.IsNull v = false ->
  BodyAttributes body !! "iterator" = Some it ->
  (forall steps, AbsTraversalForExpr (AttrExpr it) = Some steps -> length steps <> 1) ->
  expand target dynblock evaluator
  = (target, evaluator,
     Err (E (Some ErrInvalidDynamicIterator) (AtRange (AttrRange it))
            (msg "dynamic iterator must be a single variable name") None)).
Proof.
  intros Hwf Hguard Hfe Hev Hiter Hnull Hit Hbad.
  rewrite (dynBlocks_guarded _ _ _ _ _ _ _ _ Hwf Hguard).
  rewrite (foreachValue_iterable _ _ _ _ Hfe Hev Hiter). rewrite Hnull.
  unfold iteratorName. rewrite getDynamicBlockAttrs_fields. cbn [iterator].
  rewrite Hit.
  destruct (AbsTraversalForExpr (AttrExpr it)) as [steps|] eqn:Ht; [|reflexivity].
  specialize (Hbad steps eq_refl).
  destruct steps as [|s [|s' rest]]; try reflexivity. now elim Hbad.
Qed.

(** X15.  Iterating over an empty collection adds nothing and returns no
    error, but it is not without effect: the context no longer binds the
    name of the loop variable, also when that name was bound before the
    block was reached. *)
Theorem dynamic_empty_collection (target : WBody) (dynblock : Block)
    (evaluator : Context) (body : Body) (ty it : string)
    (fe : Attribute) (v : Value) :
  wellFormedDynamic dynblock body ty ->
  guardHolds evaluator body ->
  BodyAttributes body !! "for_each" = Some fe ->
  Eval evaluator (AttrExpr fe) = Ret v ->
  cty.CanIterateElements v = true ->
  cty.IsNull v = false ->
  cty.LengthInt v = 0 ->
  loopVariable AbsTraversalForExpr body ty it ->
  expand target dynblock evaluator
  = (target, DeleteNamespace it evaluator, Ret tt)
  /\ Variables (DeleteNamespace it evaluator) !! it = None.
Proof.
  intros Hwf Hguard Hfe Hev Hiter Hnull Hlen Hvar.
  rewrite (dynBlocks_iterating _ _ _ _ _ _ _ _ _ _ _
             Hwf Hguard Hfe Hev Hiter Hnull Hvar).
  unfold cty.LengthInt in Hlen. apply nil_length_inv in Hlen. rewrite Hlen.
  split; [reflexivity|]. unfold DeleteNamespace. cbn [Variables].
  apply lookup_delete_eq.
Qed.

(** X16.  The labels of the generated block are settled before the block
    is made: when they cannot be evaluated or are not a list of strings, one
    expansion returns an error of kind "invalid tm_dynamic.labels" and the
    destination is as it was.  Once they are settled the expansion adds
    exactly one block of the generated type with these labels, also when it
    then fails. *)
Theorem appendDynamicBlock_labels (destination : WBody) (evaluator : Context)
    (ty : string) (attrs : dynBlockAttributes) (contentBlock : option Block) :
  (forall l err,
     labels attrs = Some l ->
     Eval evaluator (AttrExpr l) = Err err ->
     expandOnce destination evaluator ty attrs contentBlock
     = (destination, evaluator,
        Err (E (Some ErrInvalidDynamicLabels) (AtRange (AttrRange l))
               (msg "failed to evaluate tm_dynamic.labels") (Some err))))
  /\ (forall l v err,
        labels attrs = Some l ->
        Eval evaluator (AttrExpr l) = Ret v ->
        ValueAsStringList v = Err err ->
        expandOnce destination evaluator ty attrs contentBlock
        = (destination, evaluator,
           Err (E (Some ErrInvalidDynamicLabels) (AtRange (AttrRange l))
                  (msg "tm_dynamic.labels is not a string list") (Some err))))
  /\ (forall lbls,
        dynamicLabels ValueAsStringList evaluator attrs = Ret lbls ->
        exists newbody evaluator' st,
          expandOnce destination evaluator ty attrs contentBlock
          = (destination ++ [WBlock ty lbls newbody], evaluator', st)).
Proof.
  unfold appendDynamicBlock, appendDynamicBlockWith, dynamicLabels.
  split; [|split].
  - intros l err Hl Hev. rewrite Hl, Hev. reflexivity.
  - intros l v err Hl Hev Hlist. rewrite Hl, Hev. cbn [mapErr bind].
    rewrite Hlist. reflexivity.
  - intros lbls Hlbls. rewrite Hlbls.
    destruct (fillDynamicBlock _ _ _ _ _) as [[nb e'] st]. eauto.
Qed.

(** X17.  setBodyAttributes sets the attributes in order and stops at the
    first name that is not a valid identifier: the attributes before it are
    set, the ones after it are not looked at, and the error names the
    offending key at its range.  With valid names only it returns no error
    and every name is set. *)
Theorem setBodyAttributes_stops (wbody : WBody)
    (pre post : list tmAttribute) (bad : tmAttribute) :
  Forall (fun t => ValidIdentifier (name t) = true) pre ->
  (ValidIdentifier (name bad) = false ->
   setBodyAttributes ValidIdentifier wbody (pre ++ bad :: post)
   = (fst (setBodyAttributes ValidIdentifier wbody pre),
      Err (E (Some ErrParsing) (AtRange (info bad))
             (mkMsg "tm_dynamic.attributes key %q is not a valid HCL identifier"
                    [ArgString (name bad)]) None)))
  /\ snd (setBodyAttributes ValidIdentifier wbody pre) = Ret tt
  /\ (forall t, In t pre ->
        exists tok, In (WAttribute (name t) tok)
                       (fst (setBodyAttributes ValidIdentifier wbody pre))).
Proof.
  intros Hpre. revert wbody.
  induction Hpre as [|t pre Ht _ IH]; intros wbody.
  - split; [|split]; [|reflexivity|intros t []].
    intros Hbad. simpl. now rewrite Hbad.
  - destruct (IH (SetAttributeRaw (name t) (tokens t) wbody)) as [Hstop [Hok Hset]].
    cbn [app setBodyAttributes]. rewrite Ht. cbn [negb].
    split; [exact Hstop|]. split; [exact Hok|].
    intros t' [<-|Hin]; [|now apply Hset].
    assert (Hkeep : forall l b m t0,
               Forall (fun t => ValidIdentifier (name t) = true) l ->
               In (WAttribute m t0) b ->
               exists t1, In (WAttribute m t1)
                             (fst (setBodyAttributes ValidIdentifier b l))).
    { induction l as [|x l IHl]; intros b m t0 Hall Hin; [simpl; eauto|].
      inversion Hall as [|? ? Hx Hl]; subst. cbn [setBodyAttributes].
      rewrite Hx. cbn [negb].
      destruct (SetAttributeRaw_keeps (name x) (tokens x) b m t0 Hin) as [t1 H1].
      eapply IHl; eauto. }
    eapply Hkeep; [|apply SetAttributeRaw_sets].
    clear -IH Hok Hset. 
    assert (Hall : forall l b, snd (setBodyAttributes ValidIdentifier b l) = Ret tt ->
                               Forall (fun t => ValidIdentifier (name t) = true) l).
    { induction l as [|x l IHl]; intros b Hs; [constructor|].
      cbn [setBodyAttributes] in Hs.
      destruct (ValidIdentifier (name x)) eqn:Hx; cbn [negb] in Hs; [|discriminate].
      constructor; [exact Hx|eauto]. }
    eapply Hall. exact Hok.
Qed.

End CopierFrame.

(** ** The attributes of a generated block *)

Lemma insertEntry_sorted (e : string * Value) (es : list (string * Value)) :
  StronglySorted (fun x y => String.leb (fst x) (fst y) = true) es ->
  StronglySorted (fun x y => String.leb (fst x) (fst y) = true) (cty.insertEntry e es)
  /\ forall x, In x (cty.insertEntry e es) <-> x = e \/ In x es.
Proof.
  induction es as [|b es IH]; intros Hs.
  - split; [repeat constructor|]. simpl. intuition congruence.
  - apply StronglySorted_inv in Hs as [Hs Hall].
    destruct (IH Hs) as [IHs IHin]. cbn [cty.insertEntry].
    destruct (String.ltb (fst b) (fst e)) eqn:Hlt.
    + split.
      * constructor; [exact IHs|]. apply List.Forall_forall. intros x Hx.
        apply IHin in Hx as [->|Hx].
        -- now apply leb_of_ltb.
        -- apply (proj1 (List.Forall_forall _ _) Hall x Hx).
      * intros x. simpl. rewrite IHin. intuition congruence.
    + split; [|simpl; intuition congruence].
      assert (Heb : String.leb (fst e) (fst b) = true) by now apply leb_of_not_ltb.
      constructor; [now constructor|]. constructor; [exact Heb|].
      eapply List.Forall_impl; [|exact Hall]. intros x Hx.
      eapply leb_trans; eassumption.
Qed.

Lemma sortEntries_sorted (es : list (string * Value)) :
  StronglySorted (fun x y => String.leb (fst x) (fst y) = true) (cty.sortEntries es).
Proof.
  unfold cty.sortEntries.
  induction es as [|e es IH]; [constructor|]. simpl.
  now apply insertEntry_sorted.
Qed.

Lemma literalTmAttrs_entries (rng : Range) (es : list (string * Value)) :
  literalTmAttrs rng (map (fun e => (StringVal (fst e), snd e)) es)
  = Ret (map (fun e => mkTmAttribute (fst e) (TokensForValue (snd e)) rng) es).
Proof.
  induction es as [|[k v] es IH]; [reflexivity|].
  cbn [map literalTmAttrs fst snd]. rewrite IH. reflexivity.
Qed.

Section GeneratedAttributes.

Context {evaluatorImpl : Evaluator}.

(** X18.  When tm_dynamic.attributes evaluates to a literal object or map
    that is not null, the attributes to set are one per entry, named by the
    entry's key with the tokens of its value, in ascending order of the keys
    whatever the order of the entries; the branch that panics on a key that
    is not a string is never taken. *)
Theorem tmAttributes_literal_object (evaluator : Context) (attr : Attribute)
    (val : Value) (rng : Range) (known : bool) :
  PartialEval evaluator (AttrExpr attr) = Ret (LiteralValueExpr val rng, known) ->
  cty.IsNull val = false ->
  cty.IsObjectType (cty.Type_ val) || cty.IsMapType (cty.Type_ val) = true ->
  exists entries sorted,
    (val = ObjectVal entries \/ exists ety, val = MapVal ety entries)
    /\ sorted ≡ₚ entries
    /\ StronglySorted (fun x y => String.leb (fst x) (fst y) = true) sorted
    /\ tmAttributes evaluator attr
       = Ret (map (fun e => mkTmAttribute (fst e) (TokensForValue (snd e)) rng) sorted).
Proof.
  intros Hev Hnull Hty. unfold tmAttributes. rewrite Hev. cbn [mapErr bind].
  rewrite Hnull.
  assert (Hperm : forall es, cty.sortEntries es ≡ₚ es).
  { unfold cty.sortEntries. induction es as [|e es IH]; [reflexivity|]. simpl.
    rewrite <- IH at 2. generalize (foldr cty.insertEntry [] es). clear.
    induction l as [|b l IHl]; simpl; [reflexivity|].
    destruct (String.ltb (fst b) (fst e)); [|reflexivity].
    rewrite IHl. apply Permutation_swap. }
  destruct val as [| | | | | | ety es | | | es]; try discriminate.
  - exists es, (cty.sortEntries es). split; [right; eauto|].
    split; [apply Hperm|]. split; [apply sortEntries_sorted|].
    cbn. apply literalTmAttrs_entries.
  - exists es, (cty.sortEntries es). split; [now left|].
    split; [apply Hperm|]. split; [apply sortEntries_sorted|].
    cbn. apply literalTmAttrs_entries.
Qed.

(** X19.  When tm_dynamic.attributes is an object constructor the
    attributes to set are one per item, in the order of the items, and they
    exist exactly when every key evaluates in full to a string and every
    value can be evaluated in part; the attribute is named by the key and
    carries the tokens of the partly evaluated value. *)
Theorem objectTmAttrs_items (evaluator : Context) (items : list (Expr * Expr))
    (tmAttrs : list tmAttribute) :
  objectTmAttrs evaluator items = Ret tmAttrs
  <-> Forall2 (fun item tm =>
                 exists k valExpr known,
                   Eval evaluator (fst item) = Ret (StringVal k)
                   /\ PartialEval evaluator (snd item) = Ret (valExpr, known)
                   /\ tm = mkTmAttribute k (TokensForExpression valExpr)
                             (ExprRange (snd item)))
       items tmAttrs.
Proof.
  revert tmAttrs. induction items as [|[ke ve] items IH]; intros tmAttrs.
  - simpl. split.
    + intros [= <-]. constructor.
    + intros H. inversion H. reflexivity.
  - cbn [objectTmAttrs]. split.
    + intros H.
      destruct (Eval evaluator ke) as [kv|e|p] eqn:Hk; try discriminate.
      cbn [mapErr bind] in H.
      destruct (cty.IsString (cty.Type_ kv)) eqn:Hs; cbn [negb] in H; [|discriminate].
      destruct (PartialEval evaluator ve) as [[valExpr known]|e|p] eqn:Hv;
        try discriminate.
      cbn [mapErr bind] in H.
      destruct kv; try discriminate.
      destruct (objectTmAttrs evaluator items) as [rest|e|p] eqn:Hrest;
        try discriminate.
      injection H as <-. constructor; [|now apply IH].
      cbn [fst snd]. eauto 6.
    + intros H. inversion H as [|? tm ? rest [k [valExpr [known [Hk [Hv ->]]]]] Hrest];
        subst. cbn [fst snd] in Hk, Hv.
      rewrite Hk. cbn [mapErr bind cty.Type_ cty.IsString negb].
      rewrite Hv. cbn [mapErr bind].
      apply IH in Hrest. rewrite Hrest. reflexivity.
Qed.

End GeneratedAttributes.
(** ** The further properties at concrete inputs *)

Lemma commentStyle_round_trip_witness :
  commentStyleFromString "#" = Ret HashComment
  /\ commentStyleFromString "--" = Panic "invalid comment style".
Proof.
  split.
  - exact (proj1 (commentStyle_round_trip HashComment "#")).
  - apply (proj2 (proj2 (commentStyle_round_trip SlashComment "--"))); discriminate.
Defined.

Lemma loadBlocks_app_witness :
  Toy.loop Cases.root Toy.stack Toy.emptyCtx [] SlashComment
    ([Cases.blockB] ++ Cases.blockBroken :: [Cases.blockA]) []
  = Err (E (Some ErrInvalidConditionType) NoRange
           (mkMsg "condition has type %s but must be boolean" [ArgType TyString])
           None).
Proof.
  apply (proj2 (loadBlocks_app (evaluatorImpl := Toy.toyEvaluator)
                  Toy.toyStringList Toy.toyValidIdentifier Toy.toyTraversal
                  Toy.toyLets Toy.toyEvalAssert Toy.toyVendorTarget
                  Toy.toyPrjAbsPath Toy.toyBytes Toy.toyFormat
                  Cases.root Toy.stack Toy.emptyCtx [] SlashComment
                  [Cases.blockB] [Cases.blockA] [])
          Cases.blockBroken [Cases.generated "b.tf"]).
  - vm_compute. reflexivity.
  - vm_compute. reflexivity.
Defined.

Lemma loadBlocks_artifacts_witness :
  keptBlocks (H := Toy.toyEvaluator) Toy.toyLets Toy.toyVendorTarget Toy.stack
    Toy.emptyCtx [] [Cases.blockB; Toy.parentOnlyBlock; Cases.blockParent]
  = [Cases.blockB; Cases.blockParent]
  /\ exists new,
       [Cases.generated "b.tf";
        mkHCL SlashComment "a.tf" Toy.r0 "" false []]
       = [] ++ new
       /\ Forall2 (fun b h => artifactOf SlashComment b h /\ inertWhenDisabled h)
            (keptBlocks (H := Toy.toyEvaluator) Toy.toyLets Toy.toyVendorTarget
               Toy.stack Toy.emptyCtx []
               [Cases.blockB; Toy.parentOnlyBlock; Cases.blockParent])
            new.
Proof.
  split; [vm_compute; reflexivity|].
  apply (loadBlocks_artifacts (evaluatorImpl := Toy.toyEvaluator)
           Toy.toyStringList Toy.toyValidIdentifier Toy.toyTraversal
           Toy.toyLets Toy.toyEvalAssert Toy.toyVendorTarget
           Toy.toyPrjAbsPath Toy.toyBytes Toy.toyFormat
           Cases.root Toy.stack Toy.emptyCtx [] SlashComment
           [Cases.blockB; Toy.parentOnlyBlock; Cases.blockParent] []).
  vm_compute. reflexivity.
Defined.

Lemma Load_sorted_by_label_witness :
  exists style collected,
    CommentStyleFromConfig Cases.root = Ret style
    /\ Toy.loop Cases.root Toy.stack Toy.emptyCtx [] style
         (loadGenHCLBlocks Cases.root (StackDir Toy.stack)) [] = Ret collected
    /\ StronglySorted labelLe
         [Cases.generated "a.tf";
          mkHCL SlashComment "a.tf" Toy.r0 "" false [];
          Cases.generated "b.tf"]
    /\ Permutation collected
         [Cases.generated "a.tf";
          mkHCL SlashComment "a.tf" Toy.r0 "" false [];
          Cases.generated "b.tf"]
    /\ forall l,
         List.filter (hasLabel l)
           [Cases.generated "a.tf";
            mkHCL SlashComment "a.tf" Toy.r0 "" false [];
            Cases.generated "b.tf"]
         = List.filter (hasLabel l) collected.
Proof.
  apply (Load_sorted_by_label (evaluatorImpl := Toy.toyEvaluator)
           Toy.toyStringList Toy.toyValidIdentifier Toy.toyTraversal
           Toy.toyLets Toy.toyEvalAssert Toy.toyVendorTarget
           Toy.toyPrjAbsPath Toy.toyBytes Toy.toyFormat
           Cases.root Toy.stack Toy.emptyCtx []).
  vm_compute. reflexivity.
Defined.

Lemma getContentBlock_cases_witness :
  getContentBlock [Toy.content1] = (Some Toy.content1, None)
  /\ fst (getContentBlock [Toy.content1; Toy.content2]) = None.
Proof.
  split.
  - apply (proj1 (getContentBlock_cases [Toy.content1])). split; reflexivity.
  - eapply (proj2 (proj2 (getContentBlock_cases [Toy.content1; Toy.content2]))).
    vm_compute. reflexivity.
Defined.

Lemma getDynamicBlockAttrs_cases_witness :
  snd (getDynamicBlockAttrs Toy.brokenBody) <> None.
Proof.
  intros H.
  pose proof (proj1 (proj2 (getDynamicBlockAttrs_cases Toy.brokenBody)) H
                "foo" Toy.fooAttr eq_refl) as Hs.
  unfold supportedDynamicAttr in Hs.
  destruct Hs as [Hs|[Hs|[Hs|[Hs|Hs]]]]; discriminate Hs.
Defined.

Lemma dynamicBlockErrors_none_witness :
  dynamicBlockErrors (Toy.dynForEach Toy.numbers) (Toy.forEachBody Toy.numbers) = [].
Proof.
  apply (proj2 (dynamicBlockErrors_none (Toy.dynForEach Toy.numbers)
                  (Toy.forEachBody Toy.numbers))).
  split; [reflexivity|]. split.
  - intros n a H.
    assert (Hn : n = "for_each").
    { destruct (decide (n = "for_each")) as [->|Hne]; [reflexivity|].
      unfold Toy.forEachBody, Toy.bodyOf, Toy.attrsOf in H. cbn in H.
      rewrite lookup_insert_ne in H by congruence.
      rewrite lookup_empty in H. discriminate H. }
    subst n. right. left. reflexivity.
  - left. exists Toy.contentValue. split; reflexivity.
Defined.

Lemma copyBody_leaves_no_binding_witness :
  noNewBindings Cases.boundCtx
    (snd (fst (Toy.copy [] Cases.nestedBody Cases.boundCtx)))
  /\ snd (fst (Toy.copy [] Cases.ordinaryBody Cases.boundCtx)) = Cases.boundCtx.
Proof.
  split.
  - destruct (Toy.copy [] Cases.nestedBody Cases.boundCtx) as [[d e] s] eqn:H.
    cbn [fst snd].
    apply (proj1 (copyBody_leaves_no_binding (evaluatorImpl := Toy.toyEvaluator)
                    Toy.toyStringList Toy.toyValidIdentifier Toy.toyTraversal
                    [] Cases.nestedBody Cases.boundCtx d e s H)).
    intros p Hp. subst s. vm_compute in H. discriminate H.
  - destruct (Toy.copy [] Cases.ordinaryBody Cases.boundCtx) as [[d e] s] eqn:H.
    cbn [fst snd].
    apply (proj2 (copyBody_leaves_no_binding (evaluatorImpl := Toy.toyEvaluator)
                    Toy.toyStringList Toy.toyValidIdentifier Toy.toyTraversal
                    [] Cases.ordinaryBody Cases.boundCtx d e s H)).
    simpl. repeat split; discriminate.
Defined.

Lemma copyBody_mirrors_source_witness :
  exists attrsPart blocksPart,
    [WAttribute "foo" (TokensForExpression (Toy.lit (NumberIntVal 1)));
     WBlock "other" [] []; WBlock "content" [] []]
    = attrsPart ++ blocksPart
    /\ Forall isWAttribute attrsPart
    /\ (forall k a, BodyAttributes Cases.ordinaryBody !! k = Some a ->
                    exists t, In (WAttribute (Name a) t) attrsPart)
    /\ Forall2 mirrors (BodyBlocks Cases.ordinaryBody) blocksPart.
Proof.
  apply (copyBody_mirrors_source (evaluatorImpl := Toy.toyEvaluator)
           Toy.toyStringList Toy.toyValidIdentifier Toy.toyTraversal
           Cases.ordinaryBody Toy.emptyCtx _ Toy.emptyCtx).
  - repeat constructor; discriminate.
  - vm_compute. reflexivity.
Defined.

Lemma dynamic_condition_errors_witness :
  Toy.dyn [] (Cases.dynOf Cases.stringGuardBody) Toy.emptyCtx
  = ([], Toy.emptyCtx,
     Err (E (Some ErrDynamicConditionEval) NoRange
            (mkMsg "want boolean got %s" [ArgType TyString]) None))
  /\ Toy.dyn [] (Cases.dynOf Cases.unboundGuardBody) Toy.emptyCtx
     = ([], Toy.emptyCtx,
        Err (E (Some ErrDynamicConditionEval) NoRange noMsg
               (Some (E None (AtRange (Toy.at_ 9)) (msg "unknown variable") None)))).
Proof.
  split.
  - apply (proj2 (dynamic_condition_errors (evaluatorImpl := Toy.toyEvaluator)
                    Toy.toyStringList Toy.toyValidIdentifier Toy.toyTraversal
                    [] (Cases.dynOf Cases.stringGuardBody) Toy.emptyCtx
                    Cases.stringGuardBody "b" Cases.stringGuard
                    ltac:(repeat split; vm_compute; reflexivity)
                    ltac:(vm_compute; reflexivity))
            (StringVal "yes")).
    + reflexivity.
    + discriminate.
  - apply (proj1 (dynamic_condition_errors (evaluatorImpl := Toy.toyEvaluator)
                    Toy.toyStringList Toy.toyValidIdentifier Toy.toyTraversal
                    [] (Cases.dynOf Cases.unboundGuardBody) Toy.emptyCtx
                    Cases.unboundGuardBody "b" Cases.unboundGuard
                    ltac:(repeat split; vm_compute; reflexivity)
                    ltac:(vm_compute; reflexivity))).
    vm_compute. reflexivity.
Defined.

Lemma dynamic_for_each_errors_witness :
  Toy.dyn [] (Cases.dynOf Cases.numberBody) Toy.emptyCtx
  = ([], Toy.emptyCtx,
     Err (E (Some ErrParsing) (AtRange Toy.r0)
            (mkMsg "`for_each` expression of type %s cannot be iterated"
                   [ArgType TyNumber]) None))
  /\ Toy.dyn [] (Cases.dynOf Cases.unboundForEachBody) Toy.emptyCtx
     = ([], Toy.emptyCtx,
        Err (E (Some ErrParsing) (AtRange (Toy.at_ 9))
               (msg "evaluating `for_each` expression")
               (Some (E None (AtRange (Toy.at_ 9)) (msg "unknown variable") None)))).
Proof.
  split.
  - apply (proj2 (dynamic_for_each_errors (evaluatorImpl := Toy.toyEvaluator)
                    Toy.toyStringList Toy.toyValidIdentifier Toy.toyTraversal
                    [] (Cases.dynOf Cases.numberBody) Toy.emptyCtx
                    Cases.numberBody "b" Cases.numberForEach
                    ltac:(repeat split; vm_compute; reflexivity)
                    ltac:(vm_compute; exact I)
                    ltac:(vm_compute; reflexivity))
            (NumberIntVal 1)); reflexivity.
  - apply (proj1 (dynamic_for_each_errors (evaluatorImpl := Toy.toyEvaluator)
                    Toy.toyStringList Toy.toyValidIdentifier Toy.toyTraversal
                    [] (Cases.dynOf Cases.unboundForEachBody) Toy.emptyCtx
                    Cases.unboundForEachBody "b" Cases.unboundForEach
                    ltac:(repeat split; vm_compute; reflexivity)
                    ltac:(vm_compute; exact I)
                    ltac:(vm_compute; reflexivity))).
    vm_compute. reflexivity.
Defined.

Lemma dynamic_iterator_errors_witness :
  Toy.dyn [] (Cases.dynOf Cases.longIteratorBody) Toy.emptyCtx
  = ([], Toy.emptyCtx,
     Err (E (Some ErrInvalidDynamicIterator) (AtRange (Toy.at_ 2))
            (msg "dynamic iterator must be a single variable name") None)).
Proof.
  apply (dynamic_iterator_errors (evaluatorImpl := Toy.toyEvaluator)
           Toy.toyStringList Toy.toyValidIdentifier Toy.toyTraversal
           [] (Cases.dynOf Cases.longIteratorBody) Toy.emptyCtx
           Cases.longIteratorBody "b" Cases.numbersForEach Cases.longIterator
           Toy.numbers).
  - repeat split; vm_compute; reflexivity.
  - vm_compute. exact I.
  - vm_compute. reflexivity.
  - reflexivity.
  - reflexivity.
  - reflexivity.
  - vm_compute. reflexivity.
  - intros steps H. vm_compute in H. injection H as <-. simpl. lia.
Defined.

Lemma dynamic_empty_collection_witness :
  Variables Cases.boundCtx !! "b" = Some (ObjectVal [("value", StringVal "outer")])
  /\ Toy.dyn [] (Cases.dynOf Cases.emptyBody) Cases.boundCtx
     = ([], DeleteNamespace "b" Cases.boundCtx, Ret tt)
  /\ Variables (DeleteNamespace "b" Cases.boundCtx) !! "b" = None.
Proof.
  split; [vm_compute; reflexivity|].
  apply (dynamic_empty_collection (evaluatorImpl := Toy.toyEvaluator)
           Toy.toyStringList Toy.toyValidIdentifier Toy.toyTraversal
           [] (Cases.dynOf Cases.emptyBody) Cases.boundCtx
           Cases.emptyBody "b" "b" Cases.emptyForEach Cases.emptyMap).
  - repeat split; vm_compute; reflexivity.
  - vm_compute. exact I.
  - vm_compute. reflexivity.
  - reflexivity.
  - reflexivity.
  - reflexivity.
  - reflexivity.
  - vm_compute. reflexivity.
Defined.

Lemma appendDynamicBlock_labels_witness :
  Toy.dyn1 [] Toy.emptyCtx "b" (Cases.labelled Cases.numberLabel)
    (Some Toy.contentLiteral)
  = ([], Toy.emptyCtx,
     Err (E (Some ErrInvalidDynamicLabels) (AtRange (Toy.at_ 6))
            (msg "tm_dynamic.labels is not a string list")
            (Some (E None NoRange (msg "value must be a list of strings") None))))
  /\ Toy.dyn1 [] Toy.emptyCtx "b" (Cases.labelled Cases.unboundLabel)
       (Some Toy.contentLiteral)
     = ([], Toy.emptyCtx,
        Err (E (Some ErrInvalidDynamicLabels) (AtRange (Toy.at_ 6))
               (msg "failed to evaluate tm_dynamic.labels")
               (Some (E None (AtRange (Toy.at_ 9)) (msg "unknown variable") None))))
  /\ exists newbody evaluator' st,
       Toy.dyn1 [] Toy.emptyCtx "b" (Cases.labelled Cases.listLabel)
         (Some Toy.contentMissing)
       = ([] ++ [WBlock "b" ["x"] newbody], evaluator', st).
Proof.
  pose proof (appendDynamicBlock_labels (evaluatorImpl := Toy.toyEvaluator)
                Toy.toyStringList Toy.toyValidIdentifier Toy.toyTraversal
                [] Toy.emptyCtx "b") as H.
  split; [|split].
  - apply (proj1 (proj2 (H (Cases.labelled Cases.numberLabel)
                           (Some Toy.contentLiteral)))
            Cases.numberLabel (NumberIntVal 1)); reflexivity.
  - apply (proj1 (H (Cases.labelled Cases.unboundLabel) (Some Toy.contentLiteral))
            Cases.unboundLabel); reflexivity.
  - apply (proj2 (proj2 (H (Cases.labelled Cases.listLabel)
                           (Some Toy.contentMissing)))).
    reflexivity.
Defined.

Lemma setBodyAttributes_stops_witness :
  setBodyAttributes Toy.toyValidIdentifier [] ([Cases.tmA] ++ Cases.tmBad :: [Cases.tmC])
  = (fst (setBodyAttributes Toy.toyValidIdentifier [] [Cases.tmA]),
     Err (E (Some ErrParsing) (AtRange (Toy.at_ 2))
            (mkMsg "tm_dynamic.attributes key %q is not a valid HCL identifier"
                   [ArgString "not valid"]) None)).
Proof.
  apply (proj1 (setBodyAttributes_stops Toy.toyValidIdentifier []
                  [Cases.tmA] [Cases.tmC] Cases.tmBad
                  ltac:(repeat constructor))).
  reflexivity.
Defined.

Lemma tmAttributes_literal_object_witness :
  exists entries sorted,
    (Cases.unordered = ObjectVal entries
     \/ exists ety, Cases.unordered = MapVal ety entries)
    /\ sorted ≡ₚ entries
    /\ StronglySorted (fun x y => String.leb (fst x) (fst y) = true) sorted
    /\ tmAttributes (evaluatorImpl := Toy.toyEvaluator) Toy.emptyCtx Cases.unorderedAttr
       = Ret (map (fun e => mkTmAttribute (fst e) (TokensForValue (snd e)) Toy.r0)
                sorted).
Proof.
  apply (tmAttributes_literal_object (evaluatorImpl := Toy.toyEvaluator)
           Toy.emptyCtx Cases.unorderedAttr Cases.unordered Toy.r0 false);
    reflexivity.
Defined.

Lemma objectTmAttrs_items_witness :
  objectTmAttrs (evaluatorImpl := Toy.toyEvaluator) Toy.emptyCtx Cases.items
  = Ret [mkTmAttribute "a" (TokensForExpression Cases.unboundExpr) (Toy.at_ 9)].
Proof.
  apply (proj2 (objectTmAttrs_items (evaluatorImpl := Toy.toyEvaluator)
                  Toy.emptyCtx Cases.items _)).
  repeat constructor. exists "a", Cases.unboundExpr, true.
  repeat split; reflexivity.
Defined.

Lemma copyBody_attributes_ascending_witness :
  exists attrsPart blocksPart,
    [WAttribute "alpha" (TokensForExpression Cases.unboundExpr);
     WAttribute "zeta" (TokensForExpression (Toy.lit (NumberIntVal 1)));
     WBlock "b" [] [WAttribute "value" (TokensForExpression (Toy.lit (NumberIntVal 1)))];
     WBlock "b" [] [WAttribute "value" (TokensForExpression (Toy.lit (NumberIntVal 2)))]]
    = attrsPart ++ blocksPart
    /\ Forall2 (copiedFrom (H := Toy.toyEvaluator) Toy.emptyCtx)
         (SortRawAttributes (BodyAttributes Cases.mixedBody)) attrsPart
    /\ StronglySorted nameLt (SortRawAttributes (BodyAttributes Cases.mixedBody))
    /\ (forall a, In a (SortRawAttributes (BodyAttributes Cases.mixedBody))
                  <-> exists k, BodyAttributes Cases.mixedBody !! k = Some a)
    /\ Forall isWBlock blocksPart.
Proof.
  apply (copyBody_attributes_ascending (evaluatorImpl := Toy.toyEvaluator)
           Toy.toyStringList Toy.toyValidIdentifier Toy.toyTraversal
           Cases.mixedBody Toy.emptyCtx _ Toy.emptyCtx).
  - intros k a H.
    unfold Cases.mixedBody, Toy.bodyOf, Toy.attrsOf in H. cbn in H.
    destruct (decide (k = "zeta")) as [->|Hz].
    { rewrite lookup_insert_eq in H. injection H as <-. reflexivity. }
    rewrite lookup_insert_ne in H by congruence.
    destruct (decide (k = "alpha")) as [->|Ha].
    { rewrite lookup_insert_eq in H. injection H as <-. reflexivity. }
    rewrite lookup_insert_ne in H by congruence.
    rewrite lookup_empty in H. discriminate H.
  - vm_compute. reflexivity.
Defined.

Lemma Load_artifacts_origin_witness :
  exists style collected,
    CommentStyleFromConfig Cases.root = Ret style
    /\ collected ≡ₚ [Cases.generated "a.tf";
                     mkHCL SlashComment "a.tf" Toy.r0 "" false [];
                     Cases.generated "b.tf"]
    /\ Forall2 (fun b h =>
                  (exists d, d `prefix_of` StackDir Toy.stack
                             /\ In b (blocksAt Cases.root d))
                  /\ artifactOf style b h
                  /\ inertWhenDisabled h)
         (keptBlocks (H := Toy.toyEvaluator) Toy.toyLets Toy.toyVendorTarget
            Toy.stack Toy.emptyCtx []
            (loadGenHCLBlocks Cases.root (StackDir Toy.stack)))
         collected.
Proof.
  apply (Load_artifacts_origin (evaluatorImpl := Toy.toyEvaluator)
           Toy.toyStringList Toy.toyValidIdentifier Toy.toyTraversal
           Toy.toyLets Toy.toyEvalAssert Toy.toyVendorTarget
           Toy.toyPrjAbsPath Toy.toyBytes Toy.toyFormat
           Cases.root Toy.stack Toy.emptyCtx []
           [Cases.generated "a.tf";
            mkHCL SlashComment "a.tf" Toy.r0 "" false [];
            Cases.generated "b.tf"]).
  vm_compute. reflexivity.
Defined.
